(** * Crawl-job lifecycle of the map scraper: a shallow embedding

    The first part embeds the Go packages of the repository:

    - [GoInt]      : Go's 64-bit [int] arithmetic, with its wrap-around;
    - [Gmaps]      : [gmaps/searchjob.go], the paginating search job;
    - [GoStrings]  : the functions of [strings] and [bufio] the code calls;
    - [Runner]     : [runner.CreateSeedJobs], the seed builder;
    - [Web]        : the run record of package [web];
    - [Webrunner]  : the rotating CSV writer, the shard merger and the
                     scheduling loop's [scrapeJob];
    - [GmapsInv], [WebrunnerInv] : the invariants the code maintains;
    - [Fixture]    : instances of the interfaces, to run the code;
    - [WebService] : [web/service.go], the result files of a run: look-up,
                     removal and the selection of columns;
    - [GmapsRun]   : the pages of a run, processed one after the other;
    - [RunnerInv], [WriterInv], [MergeInv] : what the seed loop, the writer
                     and the merger keep true;
    - [Scenario]   : further inputs, to run the code.

    The second part states and proves the properties, package by package.

    Go pointers to shared objects (the query parameters, the deduper and the
    exit monitor of a run) are locations in an explicit store, so that
    sharing between a job and its continuation is sharing of a location.
    What lies outside the repository (floating point, the response decoder,
    the storage, the dispatch engine) is an interface the code is
    parametrized by. *)

From stdpp Require Import gmap strings list pretty sorting.
From Stdlib Require Import ZArith QArith Lia.
From Stdlib.Strings Require Import Byte Ascii.

Local Open Scope Z_scope.

(** ** Go's [int] *)

Module GoInt.

Definition min_int : Z := - 2 ^ 63.
Definition max_int : Z := 2 ^ 63 - 1.

(** Two's-complement wrap-around of a mathematical integer into [int]. *)
Definition wrap (z : Z) : Z := (z + 2 ^ 63) mod 2 ^ 64 - 2 ^ 63.

Definition add (a b : Z) : Z := wrap (a + b).
Definition mul (a b : Z) : Z := wrap (a * b).
(** Go's [/] truncates towards zero; [min_int / -1] wraps. *)
Definition div (a b : Z) : Z := wrap (Z.quot a b).

Definition in_range (z : Z) : Prop := min_int <= z <= max_int.

End GoInt.

(** ** Results of fallible Go functions: a value or an error message *)

Inductive result (A : Type) : Type :=
  | Ok (a : A)
  | Err (msg : string).
Arguments Ok {A} a.
Arguments Err {A} msg.

#[global] Instance byte_eq_dec : EqDecision byte := Byte.byte_eq_dec.

(** Locations of heap-allocated Go objects. *)
Abbreviation loc := positive.

(** ** Package gmaps: the paginating search job *)

Module Gmaps.

Definition resultsPerPage : Z := 20.
Definition maxPaginationPages : Z := 6.

(** [scrapemate.PriorityMedium] of the dispatch engine. *)
Definition PriorityMedium : Z := 1.

(** *** [removeFirstLine] *)

Definition newline : byte := "010"%byte.

(** [bytes.IndexByte]: index of the first occurrence, or -1. *)
Fixpoint IndexByte (data : list byte) (c : byte) : Z :=
  match data with
  | [] => -1
  | b :: rest =>
      if Byte.eqb b c then 0
      else let i := IndexByte rest c in
           if i =? -1 then -1 else i + 1
  end.

Definition removeFirstLine (data : list byte) : list byte :=
  if (Z.of_nat (length data) =? 0) then data
  else
    let index := IndexByte data newline in
    if index =? -1 then []
    else drop (Z.to_nat (index + 1)) data.

(** *** Calls received by an exit monitor

    The monitor is an interface of the run ([exiter.Exiter]); a job only
    calls its increment methods.  The store keeps, per monitor, the calls
    in the order they were made. *)

Inductive ExitCall : Type :=
  | SetSeedCount (n : Z)
  | IncrSeedCompleted (n : Z)
  | IncrPlacesFound (n : Z)
  | IncrPlacesCompleted (n : Z).

Record Counters : Type := mkCounters {
  seedsTotal : Z;
  seedsCompleted : Z;
  placesFound : Z;
  placesCompleted : Z
}.

(** Modelled from the spec: the completion counters of the missing
    package [exiter] are integers: the seed total is set once and each
    increment call adds to its counter. *)
Definition applyCall (c : Counters) (e : ExitCall) : Counters :=
  match e with
  | SetSeedCount n =>
      mkCounters n (seedsCompleted c) (placesFound c) (placesCompleted c)
  | IncrSeedCompleted n =>
      mkCounters (seedsTotal c) (seedsCompleted c + n) (placesFound c)
        (placesCompleted c)
  | IncrPlacesFound n =>
      mkCounters (seedsTotal c) (seedsCompleted c) (placesFound c + n)
        (placesCompleted c)
  | IncrPlacesCompleted n =>
      mkCounters (seedsTotal c) (seedsCompleted c) (placesFound c)
        (placesCompleted c + n)
  end.

Definition countersOf (calls : list ExitCall) : Counters :=
  foldl applyCall (mkCounters 0 0 0 0) calls.

(** [float64] as far as the crawl code uses it: conversion from integers
    (which also gives the literals 0, 90, 180, 10000), the comparisons
    [==], [<=] and [<], [strconv.ParseFloat], and the two renderings [%.4f]
    and [%.1f] of the request builder. *)
Class Float64 : Type := {
  float64 : Type;
  ofInt : Z -> float64;
  feqb : float64 -> float64 -> bool;
  fleb : float64 -> float64 -> bool;
  fltb : float64 -> float64 -> bool;
  ParseFloat : string -> option float64;
  fmt4 : float64 -> string;
  fmt1 : float64 -> string
}.

(** The decoded listing [gmaps.Entry] with the fields and methods the
    crawl code reads, the response decoder and the radius filter. *)
Class EntryAPI `{Float64} : Type := {
  Entry : Type;
  Cid : Entry -> string;
  Title : Entry -> string;
  Address : Entry -> string;
  CsvHeaders : Entry -> list string;
  CsvRow : Entry -> list string;
  ParseSearchResults : list byte -> result (list Entry);
  filterAndSortEntriesWithinRadius :
    list Entry -> float64 -> float64 -> float64 -> list Entry
}.

Section WithDecoder.

Context `{EntryAPI}.

Record MapLocation : Type := mkMapLocation {
  Lat : float64;
  Lon : float64;
  ZoomLvl : float64;
  Radius : float64
}.

Record MapSearchParams : Type := mkMapSearchParams {
  Location : MapLocation;
  Query : string;
  ViewportW : Z;
  ViewportH : Z;
  Hl : string
}.

(** The fields of [scrapemate.Job] a search job sets. *)
Record Job : Type := mkJob {
  ID : string;
  Method : string;
  URL : string;
  URLParams : gmap string string;
  MaxRetries : Z;
  Priority : Z
}.

Record SearchJob : Type := mkSearchJob {
  job : Job;
  params : loc;
  ExitMonitor : option loc;
  Deduper : option loc;
  SearchDelay : Z;
  offset : Z;
  pageNum : Z;
  maxPages : Z
}.

(** The store of the objects jobs point to. *)
Record Heap : Type := mkHeap {
  paramsH : gmap loc MapSearchParams;
  dedupH : gmap loc (gset string);
  exitH : gmap loc (list ExitCall)
}.

Definition seen (h : Heap) (d : loc) : gset string :=
  default ∅ (dedupH h !! d).

Definition calls (h : Heap) (m : loc) : list ExitCall :=
  default [] (exitH h !! m).

Definition setParams (h : Heap) (p : loc) (v : MapSearchParams) : Heap :=
  mkHeap (<[p := v]> (paramsH h)) (dedupH h) (exitH h).

Definition setSeen (h : Heap) (d : loc) (s : gset string) : Heap :=
  mkHeap (paramsH h) (<[d := s]> (dedupH h)) (exitH h).

(** One call on monitor [m], appended to its log. *)
Definition notify (h : Heap) (m : loc) (e : ExitCall) : Heap :=
  mkHeap (paramsH h) (dedupH h) (<[m := calls h m ++ [e]]> (exitH h)).

Definition notifyOpt (h : Heap) (m : option loc) (e : ExitCall) : Heap :=
  match m with
  | Some l => notify h l e
  | None => h
  end.

(** *** [buildGoogleMapsParams]: writes the viewport into the shared
    parameters and renders the request. *)

Definition pbString (p : MapSearchParams) (off : Z) : string :=
  "!4m12!1m3!1d3826.902183192154!2d" +:+ fmt4 (Lon (Location p)) +:+
  "!3d" +:+ fmt4 (Lat (Location p)) +:+
  "!2m3!1f0!2f0!3f0!3m2!1i" +:+ pretty (ViewportW p) +:+
  "!2i" +:+ pretty (ViewportH p) +:+
  "!4f" +:+ fmt1 (ZoomLvl (Location p)) +:+
  "!7i20!8i" +:+ pretty off +:+
  "!10b1!12m22!1m3!18b1!30b1!34e1!2m3!5m1!6e2!20e3!4b0!10b1!12b1!13b1!16b1!17m1!3e1!20m3!5e2!6b1!14b1!46m1!1b0" +:+
  "!96b1!19m4!2m3!1i360!2i120!4i8".

Definition withViewport (p : MapSearchParams) : MapSearchParams :=
  mkMapSearchParams (Location p) (Query p) 600 800 (Hl p).

Definition buildGoogleMapsParams (h : Heap) (p : loc) (off : Z)
  : option (Heap * gmap string string) :=
  match paramsH h !! p with
  | None => None
  | Some v =>
      let v' := withViewport v in
      let ans : gmap string string :=
        <["pb" := pbString v' off]>
          (<["q" := Query v']>
             (<["hl" := Hl v']>
                (<["authuser" := "0"%string]>
                   (<["tbm" := "map"%string]> ∅)))) in
      Some (setParams h p v', ans)
  end.

(** *** Job construction *)

Definition SearchJobOptions : Type := SearchJob -> SearchJob.

Definition WithSearchJobExitMonitor (m : loc) : SearchJobOptions :=
  fun j => mkSearchJob (job j) (params j) (Some m) (Deduper j)
             (SearchDelay j) (offset j) (pageNum j) (maxPages j).

Definition WithSearchJobDelay (d : Z) : SearchJobOptions :=
  fun j => mkSearchJob (job j) (params j) (ExitMonitor j) (Deduper j)
             d (offset j) (pageNum j) (maxPages j).

Definition WithSearchJobDeduper (d : loc) : SearchJobOptions :=
  fun j => mkSearchJob (job j) (params j) (ExitMonitor j) (Some d)
             (SearchDelay j) (offset j) (pageNum j) (maxPages j).

Definition WithSearchJobMaxPages (n : Z) : SearchJobOptions :=
  fun j =>
    if (0 <? n) && (n <=? maxPaginationPages) then
      mkSearchJob (job j) (params j) (ExitMonitor j) (Deduper j)
        (SearchDelay j) (offset j) (pageNum j) n
    else j.

Definition baseURL : string := "https://maps.google.com/search".

Definition withURLParams (j : SearchJob) (u : gmap string string) : SearchJob :=
  mkSearchJob
    (mkJob (ID (job j)) (Method (job j)) (URL (job j)) u
       (MaxRetries (job j)) (Priority (job j)))
    (params j) (ExitMonitor j) (Deduper j)
    (SearchDelay j) (offset j) (pageNum j) (maxPages j).

(** [NewSearchJob]; [newID] is the identifier [uuid.New] draws.  [None]
    is the nil-pointer panic of the request builder. *)
Definition NewSearchJob (newID : string) (h : Heap) (p : loc)
    (opts : list SearchJobOptions) : option (Heap * SearchJob) :=
  let j0 :=
    mkSearchJob (mkJob newID "GET" baseURL ∅ 1 PriorityMedium)
      p None None 0 0 0 maxPaginationPages in
  let j1 := foldl (fun j opt => opt j) j0 opts in
  match buildGoogleMapsParams h p (offset j1) with
  | None => None
  | Some (h', u) => Some (h', withURLParams j1 u)
  end.

(** *** [Process] *)

Inductive outcome : Type :=
  | Panic
  | Failed (msg : string)
  | Done (entries : list Entry) (nextJobs : list SearchJob).

Definition dedupKey (e : Entry) : string :=
  if decide (Cid e = ""%string)
  then Title e +:+ "|" +:+ Address e
  else Cid e.

(** Modelled from the spec: [AddIfNotExists] of the missing package
    [deduper] admits a key iff it was not seen before in this run, and
    records it. *)
Definition AddIfNotExists (s : gset string) (key : string)
  : gset string * bool :=
  if decide (key ∈ s) then (s, false) else ({[key]} ∪ s, true).

(** The deduplication loop over the surviving entries. *)
Fixpoint dedupLoop (s : gset string) (entries : list Entry)
  : gset string * list Entry :=
  match entries with
  | [] => (s, [])
  | e :: rest =>
      let key := dedupKey e in
      if decide (key = ""%string) then dedupLoop s rest
      else
        let '(s1, fresh) := AddIfNotExists s key in
        let '(s2, unique) := dedupLoop s1 rest in
        (s2, if fresh then e :: unique else unique)
  end.

Definition dedupEntries (h : Heap) (d : option loc) (entries : list Entry)
  : Heap * list Entry :=
  match d with
  | None => (h, entries)
  | Some l =>
      let '(s, unique) := dedupLoop (seen h l) entries in
      (setSeen h l s, unique)
  end.

Definition wantsNextPage (j : SearchJob) (rawCount : Z) : bool :=
  (resultsPerPage <=? rawCount)
  && (GoInt.add (pageNum j) 1 <? maxPages j).

Definition nextJobOf (j : SearchJob) (newID : string)
    (u : gmap string string) : SearchJob :=
  let nextPage := GoInt.add (pageNum j) 1 in
  let nextOffset := GoInt.mul nextPage resultsPerPage in
  mkSearchJob
    (mkJob newID "GET" baseURL u 1 (GoInt.add (Priority (job j)) 1))
    (params j) (ExitMonitor j) (Deduper j) (SearchDelay j)
    nextOffset nextPage (maxPages j).

(** The completion report of a page that kept [n] entries. *)
Definition report (j : SearchJob) (n : Z) : list ExitCall :=
  [ (if pageNum j =? 0 then IncrSeedCompleted 1 else IncrPlacesCompleted 1);
    IncrPlacesFound n;
    IncrPlacesCompleted n ].

(** [Process] on the body of the response; [newID] is the identifier
    drawn for the job of the next page.  The randomized delay before
    processing and the clearing of the response on return do not bear on
    the result and are left out. *)
Definition Process (j : SearchJob) (newID : string) (h : Heap)
    (respBody : list byte) : Heap * outcome :=
  let body := removeFirstLine respBody in
  if (Z.of_nat (length body) =? 0) then (h, Failed "empty response body")
  else
    match ParseSearchResults body with
    | Err msg => (h, Failed ("failed to parse search results: " +:+ msg))
    | Ok decoded =>
        let rawCount := Z.of_nat (length decoded) in
        match paramsH h !! params j with
        | None => (h, Panic)
        | Some p =>
            let kept :=
              filterAndSortEntriesWithinRadius decoded
                (Lat (Location p)) (Lon (Location p)) (Radius (Location p)) in
            let '(h1, entries) := dedupEntries h (Deduper j) kept in
            let '(h2, nextJobs) :=
              if wantsNextPage j rawCount then
                let nextOffset :=
                  GoInt.mul (GoInt.add (pageNum j) 1) resultsPerPage in
                match buildGoogleMapsParams h1 (params j) nextOffset with
                | None => (h1, None)
                | Some (hb, u) =>
                    (notifyOpt hb (ExitMonitor j) (IncrPlacesFound 1),
                     Some [nextJobOf j newID u])
                end
              else (h1, Some []) in
            match nextJobs with
            | None => (h2, Panic)
            | Some next =>
                let n := Z.of_nat (length entries) in
                (foldl (fun hh e => notifyOpt hh (ExitMonitor j) e)
                   h2 (report j n),
                 Done entries next)
            end
        end
    end.

(** The dispatch engine requeues the job a page emits.  [chain] is the
    sequence of pages processed for one query when the service answers
    the successive requests with [resps] (each with the identifier
    drawn for a possible continuation); it ends with the first page
    that emits no job or fails. *)
Fixpoint chain (j : SearchJob) (h : Heap) (resps : list (string * list byte))
  : list (SearchJob * list byte) :=
  match resps with
  | [] => []
  | (newID, body) :: rest =>
      match Process j newID h body with
      | (h', Done _ (child :: _)) => (j, body) :: chain child h' rest
      | _ => [(j, body)]
      end
  end.

(** The number of entries decoded from a response, before any filter:
    [rawCount], and 0 when nothing is decoded. *)
Definition rawCountOf (respBody : list byte) : Z :=
  let body := removeFirstLine respBody in
  if (Z.of_nat (length body) =? 0) then 0
  else
    match ParseSearchResults body with
    | Ok decoded => Z.of_nat (length decoded)
    | Err _ => 0
    end.


End WithDecoder.

End Gmaps.

(** ** The string functions of Go's [strings] and [bufio] the seed builder
    uses, on byte strings *)

Module GoStrings.

(** ASCII white space; [strings.TrimSpace] also strips the Unicode
    spaces beyond ASCII, which are not modelled. *)
Definition isSpace (a : ascii) : bool :=
  let n := nat_of_ascii a in
  ((9 <=? n)%nat && (n <=? 13)%nat) || (n =? 32)%nat.

Fixpoint trimLeft (s : string) : string :=
  match s with
  | String a rest => if isSpace a then trimLeft rest else s
  | EmptyString => EmptyString
  end.

Definition TrimSpace (s : string) : string :=
  String.rev (trimLeft (String.rev (trimLeft s))).

Fixpoint dropString (n : nat) (s : string) : string :=
  match n, s with
  | O, _ => s
  | S n', String _ rest => dropString n' rest
  | S _, EmptyString => EmptyString
  end.

(** [strings.Cut]: the text before and after the first [sep]. *)
Fixpoint Cut (s sep : string) : option (string * string) :=
  if String.prefix sep s
  then Some (EmptyString, dropString (String.length sep) s)
  else
    match s with
    | EmptyString => None
    | String a rest =>
        match Cut rest sep with
        | Some (before, after) => Some (String a before, after)
        | None => None
        end
    end.

(** [strings.Split] on a one-byte separator. *)
Fixpoint Split (s : string) (sep : ascii) : list string :=
  match s with
  | EmptyString => [EmptyString]
  | String a rest =>
      if Ascii.eqb a sep then EmptyString :: Split rest sep
      else
        match Split rest sep with
        | first :: others => String a first :: others
        | [] => [String a EmptyString]
        end
  end.

(** [strings.Join]. *)
Fixpoint Join (elems : list string) (sep : string) : string :=
  match elems with
  | [] => EmptyString
  | [e] => e
  | e :: rest => e +:+ sep +:+ Join rest sep
  end.

Definition lf : ascii := "010"%char.
Definition cr : ascii := "013"%char.

Definition dropCR (s : string) : string :=
  match String.rev s with
  | String a rest => if Ascii.eqb a cr then String.rev rest else s
  | EmptyString => s
  end.

(** [bufio.ScanLines] over the whole text: the lines without their end
    marker; a final empty line is not a line. *)
Definition scanLines (text : string) : list string :=
  let parts := Split text lf in
  let parts :=
    match reverse parts with
    | EmptyString :: others => reverse others
    | _ => parts
    end in
  dropCR <$> parts.

(** [bufio.MaxScanTokenSize]. *)
Definition MaxScanTokenSize : Z := 65536.

(** What [Scanner.Scan] delivers until it stops, and [Scanner.Err]: a
    line that does not fit the scanner's buffer, taken here as a line of
    [MaxScanTokenSize] bytes or more, ends the scan with
    [bufio.ErrTooLong]. *)
Fixpoint scanAll (lines : list string) : list string * option string :=
  match lines with
  | [] => ([], None)
  | l :: rest =>
      if MaxScanTokenSize <=? Z.of_nat (String.length l)
      then ([], Some "bufio.Scanner: token too long"%string)
      else let '(ls, e) := scanAll rest in (l :: ls, e)
  end.

End GoStrings.

(** ** Package runner: the seed builder *)

Module Runner.

Import Gmaps GoStrings.

Section WithDecoder.

Context `{EntryAPI}.

(** The options of the rendered-page job, [gmaps.GmapJobOptions]. *)
Inductive GmapJobOption : Type :=
  | WithDeduper (d : loc)
  | WithExitMonitor (m : loc)
  | WithExtraReviews
  | WithSearchDelay (d : Z).

(** The rendered-page job of [gmaps.NewGmapJob], kept as the arguments
    it is built from. *)
Record GmapJob : Type := mkGmapJob {
  gmapID : string;
  gmapLang : string;
  gmapQuery : string;
  gmapMaxDepth : Z;
  gmapEmail : bool;
  gmapGeo : string;
  gmapZoom : Z;
  gmapOpts : list GmapJobOption
}.

Inductive IJob : Type :=
  | SearchIJob (j : SearchJob)
  | GmapIJob (j : GmapJob).

Definition fzero : float64 := ofInt 0.

Definition isZeroCoord (lat lon : float64) : bool :=
  feqb lat fzero && feqb lon fzero.

(** The global anchor of direct-request mode; it stays [0,0] unless the
    coordinates parse and are in range. *)
Definition globalAnchor (geoCoordinates : string) : float64 * float64 :=
  if bool_decide (geoCoordinates ≠ ""%string)
     && bool_decide (geoCoordinates ≠ "0,0"%string)
  then
    match Split geoCoordinates ","%char with
    | [p0; p1] =>
        match ParseFloat (TrimSpace p0) with
        | Some qlat =>
            match ParseFloat (TrimSpace p1) with
            | Some qlon =>
                if fleb (ofInt (-90)) qlat && fleb qlat (ofInt 90)
                   && fleb (ofInt (-180)) qlon && fleb qlon (ofInt 180)
                then (qlat, qlon)
                else (fzero, fzero)
            | None => (fzero, fzero)
            end
        | None => (fzero, fzero)
        end
    | _ => (fzero, fzero)
    end
  else (fzero, fzero).

Definition normZoom (zoom : Z) : Z :=
  if (zoom <? 1) || (21 <? zoom) then 15 else zoom.

Definition normRadius (radius : float64) : float64 :=
  if fltb radius fzero then ofInt 10000 else radius.

(** The [#!#] directive: the query and its explicit id. *)
Definition cutID (line : string) : string * string :=
  match Cut line "#!#" with
  | Some (before, after) => (TrimSpace before, TrimSpace after)
  | None => (line, ""%string)
  end.

(** The result of reading the [#!geo#] directive of a query. *)
Record QueryGeo : Type := mkQueryGeo {
  qQuery : string;
  queryLat : float64;
  queryLon : float64;
  queryGeo : string;
  hasPerQueryGeo : bool
}.

Definition cutGeo (query : string) (lat lon : float64)
    (geoCoordinates : string) : QueryGeo :=
  match Cut query "#!geo#" with
  | Some (before, after) =>
      let q := TrimSpace before in
      match Split (TrimSpace after) ","%char with
      | [g0; g1] =>
          match ParseFloat g0 with
          | Some qlat =>
              match ParseFloat g1 with
              | Some qlon =>
                  mkQueryGeo q qlat qlon (g0 +:+ "," +:+ g1) true
              | None => mkQueryGeo q lat lon geoCoordinates false
              end
          | None => mkQueryGeo q lat lon geoCoordinates false
          end
      | _ => mkQueryGeo q lat lon geoCoordinates false
      end
  | None => mkQueryGeo query lat lon geoCoordinates false
  end.

(** What one line of the query list yields. *)
Inductive seed : Type :=
  | Skip
  | Emit (h : Heap) (j : IJob)
  | Crash.

Definition gmapOptions (dedup exitMonitor : option loc)
    (extraReviews : bool) (searchDelay : Z) : list GmapJobOption :=
  (match dedup with Some d => [WithDeduper d] | None => [] end)
  ++ (match exitMonitor with Some m => [WithExitMonitor m] | None => [] end)
  ++ (if extraReviews then [WithExtraReviews] else [])
  ++ (if 0 <? searchDelay then [WithSearchDelay searchDelay] else []).

Definition searchOptions (dedup exitMonitor : option loc)
    (searchDelay maxDepth : Z) : list SearchJobOptions :=
  (match dedup with Some d => [WithSearchJobDeduper d] | None => [] end)
  ++ (match exitMonitor with
      | Some m => [WithSearchJobExitMonitor m] | None => [] end)
  ++ (if 0 <? searchDelay then [WithSearchJobDelay searchDelay] else [])
  ++ (if 1 <? maxDepth then [WithSearchJobMaxPages maxDepth] else []).

(** The body of the scanning loop; [lat], [lon], [zoom] and [radius] are
    the values the prologue of [CreateSeedJobs] computed. *)
Definition seedJob (fastmode : bool) (langCode : string) (maxDepth : Z)
    (email : bool) (geoCoordinates : string) (zoom : Z) (radius : float64)
    (lat lon : float64) (dedup exitMonitor : option loc)
    (extraReviews : bool) (searchDelay : Z)
    (newID : string) (h : Heap) (line : string) : seed :=
  let query := TrimSpace line in
  if bool_decide (query = ""%string) then Skip
  else
    let '(query, id) := cutID query in
    let g := cutGeo query lat lon geoCoordinates in
    if fastmode && negb (hasPerQueryGeo g) && isZeroCoord lat lon then Skip
    else if negb fastmode then
      Emit h (GmapIJob
                (mkGmapJob id langCode (qQuery g) maxDepth email (queryGeo g)
                   zoom (gmapOptions dedup exitMonitor extraReviews searchDelay)))
    else
      let jparams :=
        mkMapSearchParams
          (mkMapLocation (queryLat g) (queryLon g) (ofInt zoom) radius)
          (qQuery g) 1920 450 langCode in
      let p := fresh (dom (paramsH h)) in
      match NewSearchJob newID (setParams h p jparams) p
              (searchOptions dedup exitMonitor searchDelay maxDepth) with
      | Some (h', j) => Emit h' (SearchIJob j)
      | None => Crash
      end.

Fixpoint seedLoop (step : string -> Heap -> string -> seed)
    (uuid : nat -> string) (h : Heap) (jobs : list IJob)
    (lines : list string) : option (Heap * list IJob) :=
  match lines with
  | [] => Some (h, jobs)
  | line :: rest =>
      match step (uuid (length jobs)) h line with
      | Skip => seedLoop step uuid h jobs rest
      | Emit h' j => seedLoop step uuid h' (jobs ++ [j]) rest
      | Crash => None
      end
  end.

(** [CreateSeedJobs] on the text of the reader [r]; [uuid] is the
    sequence of identifiers drawn.  The result is the jobs and the
    scanner's error; [None] is a panic. *)
Definition CreateSeedJobs (uuid : nat -> string) (h : Heap)
    (fastmode : bool) (langCode : string) (r : string) (maxDepth : Z)
    (email : bool) (geoCoordinates : string) (zoom : Z) (radius : float64)
    (dedup exitMonitor : option loc) (extraReviews : bool)
    (searchDelay : Z) : option (Heap * list IJob * option string) :=
  let '(lat, lon) :=
    if fastmode then globalAnchor geoCoordinates else (fzero, fzero) in
  let zoom := if fastmode then normZoom zoom else zoom in
  let radius := if fastmode then normRadius radius else radius in
  let '(lines, err) := scanAll (scanLines r) in
  match seedLoop
          (seedJob fastmode langCode maxDepth email geoCoordinates zoom
             radius lat lon dedup exitMonitor extraReviews searchDelay)
          uuid h [] lines with
  | Some (h', jobs) => Some (h', jobs, err)
  | None => None
  end.

End WithDecoder.

End Runner.

(** ** Package web: the run record the scheduling loop works on *)

Module Web.

Inductive RunStatus : Type :=
  | StatusPending
  | StatusWorking
  | StatusOK
  | StatusFailed.

(** [MaxTime] is a [time.Duration], in nanoseconds. *)
Record JobData : Type := mkJobData {
  Keywords : list string;
  Lang : string;
  Zoom : Z;
  Lat : string;
  Lon : string;
  FastMode : bool;
  Radius : Z;
  Depth : Z;
  Email : bool;
  MaxTime : Z;
  SearchDelay : Z
}.

Record Job : Type := mkJob {
  ID : string;
  Status : RunStatus;
  Count : Z;
  Data : JobData
}.

Definition withStatus (j : Job) (s : RunStatus) : Job :=
  mkJob (ID j) s (Count j) (Data j).

Definition withCount (j : Job) (n : Z) : Job :=
  mkJob (ID j) (Status j) n (Data j).

End Web.

(** ** Package webrunner: rotating writer, shard merger, scheduling loop *)

Module Webrunner.

Import Gmaps GoStrings.

(** *** Files

    A CSV file is kept as what was written to it: whether it starts with
    the byte-order mark, the header record a rotation wrote, and the
    records written after it.  The CSV quoting of a record and the
    buffering of the writer (flushed every 100th row and on close) are not
    modelled: a file holds the records written through its writer. *)

Abbreviation row := (list string).

Record File : Type := mkFile {
  bom : bool;
  header : option row;
  rows : list row
}.

(** The file system: the files by path, and the paths at which a file
    cannot be created. *)
Record FS : Type := mkFS {
  files : gmap string File;
  denied : gset string
}.

(** [os.Create]: a new or truncated empty file, or a failure. *)
Definition Create (fs : FS) (path : string) : option FS :=
  if decide (path ∈ denied fs) then None
  else Some (mkFS (<[path := mkFile false None []]> (files fs)) (denied fs)).

Definition onFile (f : File -> File) (fs : FS) (path : string) : FS :=
  mkFS (alter f path (files fs)) (denied fs).

Definition writeBOM : FS -> string -> FS :=
  onFile (fun f => mkFile true (header f) (rows f)).
Definition writeHeader (r : row) : FS -> string -> FS :=
  onFile (fun f => mkFile (bom f) (Some r) (rows f)).
Definition writeRow (r : row) : FS -> string -> FS :=
  onFile (fun f => mkFile (bom f) (header f) (rows f ++ [r])).

(** [os.Remove]. *)
Definition Remove (fs : FS) (path : string) : FS :=
  mkFS (delete path (files fs)) (denied fs).

(** The records of a file in the order written. *)
Definition records (f : File) : list row :=
  match header f with
  | Some h => h :: rows f
  | None => rows f
  end.

(** [filepath.Join] of a folder in clean form and a file name. *)
Definition filepathJoin (folder name : string) : string :=
  if bool_decide (folder = ""%string) then name
  else folder +:+ "/" +:+ name.

(** *** The rotating writer *)

Section WithDecoder.

Context `{EntryAPI}.

(** What a caller hands to [Write]: an entry by value or by pointer, a
    raw record, a slice of entries, or anything else. *)
Inductive Payload : Type :=
  | PEntry (e : Entry)
  | PEntryPtr (e : Entry)
  | PRow (r : row)
  | PEntries (es : list Entry)
  | POther.

(** The argument of [Write]: a [scrapemate.Result] around a payload, or
    the payload itself. *)
Inductive WriteData : Type :=
  | Result (data : Payload)
  | Plain (data : Payload).

(** [onWriteCalls] counts the calls made to the [OnWrite] hook, each
    with amount 1. *)
Record RotatingCsvWriter : Type := mkWriter {
  baseFileName : string;
  limit : Z;
  currentCount : Z;
  fileIndex : Z;
  currentFile : option string;
  OnWrite : bool;
  onWriteCalls : Z
}.

Definition NewRotatingCsvWriter (baseFileName : string) (limit : Z)
  : RotatingCsvWriter :=
  mkWriter baseFileName limit 0 1 None false 0.

Definition getHeaders (item : Payload) : list string :=
  match item with
  | PEntry e => CsvHeaders e
  | PEntryPtr e => CsvHeaders e
  | _ => []
  end.

Definition shardName (base : string) (index : Z) : string :=
  base +:+ "_" +:+ pretty index +:+ ".csv".

Definition rotate (w : RotatingCsvWriter) (fs : FS) (sampleData : Payload)
  : RotatingCsvWriter * FS * option string :=
  let filename := shardName (baseFileName w) (fileIndex w) in
  match Create fs filename with
  | None =>
      (w, fs, Some ("failed to create rotating file " +:+ filename))
  | Some fs1 =>
      let fs2 := writeBOM fs1 filename in
      let w' :=
        mkWriter (baseFileName w) (limit w) 0 (GoInt.add (fileIndex w) 1)
          (Some filename) (OnWrite w) (onWriteCalls w) in
      let headers :=
        match sampleData with
        | PEntries (e :: _) => getHeaders (PEntryPtr e)
        | _ => getHeaders sampleData
        end in
      if 0 <? Z.of_nat (length headers)
      then (w', writeHeader headers fs2 filename, None)
      else (w', fs2, None)
  end.

Definition recordOf (payload : Payload) : option row :=
  match payload with
  | PEntry e => Some (CsvRow e)
  | PEntryPtr e => Some (CsvRow e)
  | PRow r => Some r
  | _ => None
  end.

Definition writeOne (w : RotatingCsvWriter) (fs : FS) (payload : Payload)
  : RotatingCsvWriter * FS * option string :=
  let '(w1, fs1, err1) :=
    match currentFile w with
    | None => rotate w fs payload
    | Some _ => (w, fs, None)
    end in
  match err1 with
  | Some e => (w1, fs1, Some e)
  | None =>
      let '(w2, fs2, err2) :=
        if limit w1 <=? currentCount w1 then rotate w1 fs1 payload
        else (w1, fs1, None) in
      match err2 with
      | Some e => (w2, fs2, Some e)
      | None =>
          match recordOf payload with
          | None => (w2, fs2, Some "invalid data type for csv writer"%string)
          | Some record =>
              let fs3 :=
                match currentFile w2 with
                | Some path => writeRow record fs2 path
                | None => fs2
                end in
              (mkWriter (baseFileName w2) (limit w2)
                 (GoInt.add (currentCount w2) 1) (fileIndex w2)
                 (currentFile w2) (OnWrite w2)
                 (if OnWrite w2 then onWriteCalls w2 + 1 else onWriteCalls w2),
               fs3, None)
          end
      end
  end.

(** The loop of [Write] over a slice of entries. *)
Fixpoint writeEntries (w : RotatingCsvWriter) (fs : FS) (entries : list Entry)
  : RotatingCsvWriter * FS * option string :=
  match entries with
  | [] => (w, fs, None)
  | e :: rest =>
      match writeOne w fs (PEntryPtr e) with
      | (w', fs', None) => writeEntries w' fs' rest
      | failed => failed
      end
  end.

Definition Write (w : RotatingCsvWriter) (fs : FS) (data : WriteData)
  : RotatingCsvWriter * FS * option string :=
  let payload := match data with Result p => p | Plain p => p end in
  match payload with
  | PEntries entries => writeEntries w fs entries
  | _ => writeOne w fs payload
  end.

Definition Close (w : RotatingCsvWriter) : RotatingCsvWriter :=
  mkWriter (baseFileName w) (limit w) (currentCount w) (fileIndex w)
    None (OnWrite w) (onWriteCalls w).

(** [Run] over the results the channel delivers before it is closed or
    the context is done: it stops at the first failed [Write].  Its
    deferred flush and close of the open file leave the records written as
    they are. *)
Fixpoint Run (w : RotatingCsvWriter) (fs : FS) (results : list WriteData)
  : RotatingCsvWriter * FS * option string :=
  match results with
  | [] => (w, fs, None)
  | res :: rest =>
      match Write w fs res with
      | (w', fs', None) => Run w' fs' rest
      | failed => failed
      end
  end.

End WithDecoder.

(** *** The shard merger *)

(** The record with no field and the record with one empty field are
    written as an empty line, which the CSV reader skips. *)
Definition blankLine (r : row) : bool :=
  bool_decide (r = []) || bool_decide (r = [""%string]).

Definition sameFieldCount (rs : list row) : bool :=
  match rs with
  | [] => true
  | first :: rest =>
      forallb (fun r => (length r =? length first)%nat) rest
  end.

(** [readCSVWithBOM]: the file must exist, and every record must have
    as many fields as the first. *)
Definition readCSVWithBOM (fs : FS) (filePath : string) : result (list row) :=
  match files fs !! filePath with
  | None => Err "no such file or directory"
  | Some f =>
      let rs := filter (fun r => blankLine r = false) (records f) in
      if sameFieldCount rs then Ok rs
      else Err "record on line: wrong number of fields"
  end.

Definition slash : ascii := "/"%char.

Fixpoint hasSlash (s : string) : bool :=
  match s with
  | EmptyString => false
  | String a rest => Ascii.eqb a slash || hasSlash rest
  end.

Definition hasSuffix (s suffix : string) : bool :=
  String.prefix (String.rev suffix) (String.rev s).

(** Whether [path] matches the pattern [<dataFolder>/<jobID>_*.csv], for
    a folder and an identifier without pattern characters: the star
    stands for any text without a path separator. *)
Definition matchShard (dataFolder jobID path : string) : bool :=
  let pre := filepathJoin dataFolder (jobID +:+ "_") in
  String.prefix pre path
  && (let rest := dropString (String.length pre) path in
      hasSuffix rest ".csv" && negb (hasSlash rest)).

(** [filepath.Glob] for that pattern. *)
Definition Glob (fs : FS) (dataFolder jobID : string) : list string :=
  filter (fun p => matchShard dataFolder jobID p = true)
    (map_to_list (files fs)).*1.

(** [sort.Strings]: ascending in the byte-wise order of Go strings. *)
Definition sortStrings (l : list string) : list string :=
  merge_sort String.le l.

(** The state of the merge loop: the header written, if any, the data
    rows written, and [totalRows]. *)
Record Merged : Type := mkMerged {
  outHeader : option row;
  outRows : list row;
  totalRows : Z
}.

Definition mergeStep (fs : FS) (m : Merged) (path : string) : Merged :=
  match readCSVWithBOM fs path with
  | Err _ => m
  | Ok [] => m
  | Ok (first :: rest) =>
      mkMerged
        (match outHeader m with Some h => Some h | None => Some first end)
        (outRows m ++ rest)
        (foldl (fun n _ => GoInt.add n 1) (totalRows m) rest)
  end.

Definition mergeCSVFiles (fs : FS) (dataFolder jobID : string)
  : FS * Z * option string :=
  let matches := Glob fs dataFolder jobID in
  if (Z.of_nat (length matches) =? 0) then (fs, 0, None)
  else
    let matches := sortStrings matches in
    let outputPath := filepathJoin dataFolder (jobID +:+ ".csv") in
    match Create fs outputPath with
    | None => (fs, 0, Some "failed to create merged file"%string)
    | Some fs1 =>
        let fs2 := writeBOM fs1 outputPath in
        let m := foldl (mergeStep fs2) (mkMerged None [] 0) matches in
        let fs3 :=
          match outHeader m with
          | Some h => writeHeader h fs2 outputPath
          | None => fs2
          end in
        let fs4 := foldl (fun s r => writeRow r s outputPath) fs3 (outRows m) in
        (foldl Remove fs4 matches, totalRows m, None)
    end.

(** *** The scheduling loop's [scrapeJob] *)

Record Config : Type := mkConfig {
  DataFolder : string;
  Concurrency : Z;
  ExtraReviews : bool
}.

(** How the dispatch run ended, as [errors.Is] classifies it. *)
Inductive StartErr : Type :=
  | DeadlineExceeded
  | Canceled
  | OtherErr (msg : string).

(** What [scrapeJob] does to the world outside, in order. *)
Inductive Event : Type :=
  | EvUpdate (status : Web.RunStatus) (count : Z)
  | EvNewWriter (baseName : string) (limit : Z)
  | EvSetupMate
  | EvStart (allowedSeconds : Z) (seeds : nat)
  | EvCancel
  | EvWriterClose
  | EvMateClose
  | EvCountWait
  | EvMerge (count : Z).

Definition estimatedPerJob (fastMode : bool) : Z :=
  if negb fastMode then 45 else 15.

Definition minimumRequired (seedJobs : Z) (fastMode : bool)
    (depth cfgConcurrency : Z) : Z :=
  let concurrency := Z.max 1 cfgConcurrency in
  let m :=
    GoInt.add
      (GoInt.div
         (GoInt.mul (GoInt.mul seedJobs (estimatedPerJob fastMode))
            (Z.max 1 depth))
         concurrency)
      120 in
  if m <? 180 then 180 else m.

(** [int(d.Seconds())]: the whole seconds of a duration in nanoseconds.
    [Seconds] goes through [float64]; its rounding, which is exact for a
    duration of whole seconds, is not modelled. *)
Definition wholeSeconds (d : Z) : Z := Z.quot d 1000000000.

Definition allowedSeconds (seedJobs : Z) (fastMode : bool)
    (depth cfgConcurrency maxTime : Z) : Z :=
  let minimum := minimumRequired seedJobs fastMode depth cfgConcurrency in
  if 0 <? maxTime then
    let userSeconds := wholeSeconds maxTime in
    if userSeconds <? minimum then minimum else userSeconds
  else minimum.

Section WithServices.

Context `{EntryAPI}.

(** The collaborators outside the loop: whether the storage accepts an
    update of a run, whether the dispatch engine can be set up, and what
    a dispatch run under a deadline delivers to the writer and ends
    with. *)
Class Services : Type := {
  updateErr : Web.Job -> option string;
  setupMateErr : Web.Job -> option string;
  mateStart : Z -> list Runner.IJob -> list WriteData * option StartErr
}.

Context `{Services}.

(** [inflight] counts the asynchronous count updates started and not
    yet waited for. *)
Record World : Type := mkWorld {
  disk : FS;
  repo : gmap string Web.Job;
  store : Heap;
  inflight : Z;
  events : list Event
}.

Definition emit (w : World) (e : Event) : World :=
  mkWorld (disk w) (repo w) (store w) (inflight w) (events w ++ [e]).

Definition withDisk (w : World) (fs : FS) : World :=
  mkWorld fs (repo w) (store w) (inflight w) (events w).

Definition withStore (w : World) (h : Heap) : World :=
  mkWorld (disk w) (repo w) h (inflight w) (events w).

(** [svc.Update]: the stored run is replaced unless the storage fails. *)
Definition svcUpdate (w : World) (job : Web.Job) : World * option string :=
  let w := emit w (EvUpdate (Web.Status job) (Web.Count job)) in
  match updateErr job with
  | Some e => (w, Some e)
  | None =>
      (mkWorld (disk w) (<[Web.ID job := job]> (repo w)) (store w)
         (inflight w) (events w), None)
  end.

(** Modelled from the spec: [IncrementJobCount] of the missing storage
    adds to the stored count of the run. *)
Definition IncrementJobCount (db : gmap string Web.Job) (id : string)
    (amount : Z) : gmap string Web.Job :=
  alter (fun j => Web.withCount j (Web.Count j + amount)) id db.

(** [countWg.Wait]: every update started has been applied. *)
Definition countWait (w : World) (id : string) : World :=
  mkWorld (disk w) (IncrementJobCount (repo w) id (inflight w)) (store w)
    0 (events w ++ [EvCountWait]).

Inductive Ret : Type :=
  | Panicked
  | Returned (w : World) (job : Web.Job) (err : option string).

(** The deferred calls, run last-registered first when [scrapeJob]
    returns: the [cancel] of the dispatch context if one was made, then
    the closing of the writer and of the engine. *)
Definition deferred (cancel : bool) (w : World) : World :=
  let w := if cancel then emit w EvCancel else w in
  emit (emit w EvWriterClose) EvMateClose.

(** The common tail: close, wait, merge, record, update. *)
Definition finalize (cfg : Config) (cancel : bool) (w : World)
    (job : Web.Job) : Ret :=
  let w := emit w EvWriterClose in
  let w := countWait w (Web.ID job) in
  let '(fs, actualCount, mergeErr) :=
    mergeCSVFiles (disk w) (DataFolder cfg) (Web.ID job) in
  let w := emit (withDisk w fs) (EvMerge actualCount) in
  let job := Web.withCount job actualCount in
  let job := Web.withStatus job Web.StatusOK in
  let '(w, err) := svcUpdate w job in
  Returned (deferred cancel w) job err.

Definition radiusOf (d : Web.JobData) : float64 :=
  if Web.Radius d <=? 0 then ofInt 10000 else ofInt (Web.Radius d).

Definition coordsOf (d : Web.JobData) : string :=
  if bool_decide (Web.Lat d ≠ ""%string) && bool_decide (Web.Lon d ≠ ""%string)
  then Web.Lat d +:+ "," +:+ Web.Lon d
  else ""%string.

(** The writer of a run: 50000 rows per shard, every write starting an
    asynchronous count update. *)
Definition runWriter (baseName : string) : RotatingCsvWriter :=
  let nw := NewRotatingCsvWriter baseName 50000 in
  mkWriter (baseFileName nw) (limit nw) (currentCount nw)
    (fileIndex nw) (currentFile nw) true (onWriteCalls nw).

(** The deduper and the exit monitor of a run, newly allocated. *)
Definition newDeduper (h : Heap) : loc := fresh (dom (dedupH h)).
Definition newExiter (h : Heap) : loc := fresh (dom (exitH h)).

Definition runStore (h : Heap) : Heap :=
  mkHeap (paramsH h) (<[newDeduper h := ∅]> (dedupH h))
    (<[newExiter h := []]> (exitH h)).

(** The call of [runner.CreateSeedJobs] for a run. *)
Definition createSeeds (cfg : Config) (uuid : nat -> string) (h : Heap)
    (d : Web.JobData) : option (Heap * list Runner.IJob * option string) :=
  Runner.CreateSeedJobs uuid (runStore h) (Web.FastMode d) (Web.Lang d)
    (Join (Web.Keywords d) (String lf EmptyString)) (Web.Depth d)
    (Web.Email d) (coordsOf d) (Web.Zoom d) (radiusOf d)
    (Some (newDeduper h)) (Some (newExiter h))
    (ExtraReviews cfg) (Web.SearchDelay d).

(** [scrapeJob].  The exit monitor's own loop, which cancels the dispatch
    context at quiescence, runs concurrently and is part of how the
    dispatch run ends. *)
Definition scrapeJob (cfg : Config) (uuid : nat -> string)
    (w : World) (job : Web.Job) : Ret :=
  let job := Web.withStatus job Web.StatusWorking in
  let '(w, err) := svcUpdate w job in
  match err with
  | Some e => Returned w job (Some e)
  | None =>
  if (Z.of_nat (length (Web.Keywords (Web.Data job))) =? 0) then
    let job := Web.withStatus job Web.StatusFailed in
    let '(w, err) := svcUpdate w job in
    Returned w job err
  else
    let baseName := filepathJoin (DataFolder cfg) (Web.ID job) in
    let rotatingWriter := runWriter baseName in
    let w := emit w (EvNewWriter baseName 50000) in
    let w := emit w EvSetupMate in
    match setupMateErr job with
    | Some e =>
        let job := Web.withStatus job Web.StatusFailed in
        let w := emit w EvWriterClose in
        let '(w, _) := svcUpdate w job in
        Returned w job (Some e)
    | None =>
        let d := Web.Data job in
        let exitMonitor := newExiter (store w) in
        match createSeeds cfg uuid (store w) d with
        | None => Panicked
        | Some (h, _, Some e) =>
            let '(w, _) := svcUpdate (withStore w h) job in
            Returned (deferred false w) job (Some e)
        | Some (h, seedJobs, None) =>
            let w := withStore w h in
            if 0 <? Z.of_nat (length seedJobs) then
              let w :=
                withStore w
                  (notify (store w) exitMonitor
                     (SetSeedCount (Z.of_nat (length seedJobs)))) in
              let allowed :=
                allowedSeconds (Z.of_nat (length seedJobs)) (Web.FastMode d)
                  (Web.Depth d) (Concurrency cfg) (Web.MaxTime d) in
              let w := emit w (EvStart allowed (length seedJobs)) in
              let '(results, startErr) := mateStart allowed seedJobs in
              let '(rw, fs, _) := Run rotatingWriter (disk w) results in
              let w :=
                mkWorld fs (repo w) (store w) (onWriteCalls rw) (events w) in
              match startErr with
              | Some (OtherErr e) =>
                  let w := emit w EvCancel in
                  let job := Web.withStatus job Web.StatusFailed in
                  let '(w, _) := svcUpdate w job in
                  Returned (deferred true w) job (Some e)
              | _ => finalize cfg true (emit w EvCancel) job
              end
            else finalize cfg false w job
        end
    end
  end.

End WithServices.

End Webrunner.

(** ** The jobs of a query: what the package maintains *)

Module GmapsInv.

Import Gmaps.

Section WithDecoder.

Context `{EntryAPI}.

(** The jobs the package builds: page [k] of at most [maxPages <= 6],
    at offset [20 k], one priority step below its predecessor. *)
Record wfJob (j : SearchJob) : Prop := mkWf {
  wf_page : 0 <= pageNum j < maxPages j;
  wf_max : maxPages j <= maxPaginationPages;
  wf_offset : offset j = pageNum j * resultsPerPage;
  wf_prio : Priority (job j) = PriorityMedium + pageNum j
}.

(** The options of the package. *)
Inductive stdOption : SearchJobOptions -> Prop :=
  | std_monitor m : stdOption (WithSearchJobExitMonitor m)
  | std_delay d : stdOption (WithSearchJobDelay d)
  | std_deduper d : stdOption (WithSearchJobDeduper d)
  | std_pages n : stdOption (WithSearchJobMaxPages n).

(** A job under construction: page 0 at offset 0. *)
Record isSeed (j : SearchJob) : Prop := mkSeed {
  seed_page : pageNum j = 0;
  seed_offset : offset j = 0;
  seed_max : 1 <= maxPages j <= maxPaginationPages;
  seed_prio : Priority (job j) = PriorityMedium
}.

End WithDecoder.

End GmapsInv.

(** ** Writer and shards: what the package maintains *)

Module WebrunnerInv.

Import Gmaps Webrunner.

Section WithDecoder.

Context `{EntryAPI}.

(** The state a writer keeps between calls: the count is that of the data
    rows of the open shard, and no file has more data rows than the
    limit. *)
Record writerInv (w : RotatingCsvWriter) (fs : FS) : Prop := mkWriterInv {
  inv_count : 0 <= currentCount w <= limit w;
  inv_open : forall path,
    currentFile w = Some path ->
    exists f, files fs !! path = Some f
              /\ Z.of_nat (length (rows f)) = currentCount w;
  inv_cap : forall path f,
    files fs !! path = Some f -> Z.of_nat (length (rows f)) <= limit w
}.

(** The header a rotation writes for a sample payload. *)
Definition headersFor (sampleData : Payload) : option row :=
  let headers :=
    match sampleData with
    | PEntries (e :: _) => CsvHeaders e
    | PEntry e | PEntryPtr e => CsvHeaders e
    | _ => []
    end in
  if 0 <? Z.of_nat (length headers) then Some headers else None.

End WithDecoder.


Definition rowsOf (fs : FS) (path : string) : list row :=
  match files fs !! path with
  | Some f => rows f
  | None => []
  end.


(** The names of the shards 1 .. k of a writer. *)
Definition shardNames (base : string) (k : nat) : list string :=
  (fun i => shardName base (Z.of_nat i)) <$> seq 1 k.

End WebrunnerInv.

(** ** Instances of the interfaces, for running the code on examples *)

Module Fixture.

Import Gmaps GoStrings.

(** Decimal numbers as rationals.  [parseDecimal] reads the plain
    decimal literals of [strconv.ParseFloat]: an optional sign, digits,
    and an optional fraction. *)
Definition digitOf (a : ascii) : option Z :=
  let n := Z.of_nat (nat_of_ascii a) in
  if (48 <=? n) && (n <=? 57) then Some (n - 48) else None.

Fixpoint parseDigits (s : string) (acc : Z) (count : nat) : option (Z * nat) :=
  match s with
  | EmptyString => Some (acc, count)
  | String a rest =>
      match digitOf a with
      | Some d => parseDigits rest (10 * acc + d) (S count)
      | None => None
      end
  end.

Definition parseUnsigned (s : string) : option Q :=
  match Split s "."%char with
  | [i] =>
      match parseDigits i 0 0 with
      | Some (v, S _) => Some (inject_Z v)
      | _ => None
      end
  | [i; f] =>
      match parseDigits i 0 0, parseDigits f 0 0 with
      | Some (vi, ci), Some (vf, cf) =>
          if (ci + cf =? 0)%nat then None
          else Some (Qmake (vi * 10 ^ Z.of_nat cf + vf)
                       (Z.to_pos (10 ^ Z.of_nat cf)))
      | _, _ => None
      end
  | _ => None
  end.

Definition parseDecimal (s : string) : option Q :=
  match s with
  | String "-"%char rest => Qopp <$> parseUnsigned rest
  | String "+"%char rest => parseUnsigned rest
  | _ => parseUnsigned s
  end.

(** A rational with [k] decimals, rounded half away from zero. *)
Definition padLeft (k : nat) (s : string) : string :=
  String.concat "" (replicate (k - String.length s) "0"%string) +:+ s.

Definition fmtFixed (k : nat) (q : Q) : string :=
  let scale := 10 ^ Z.of_nat k in
  let n := (2 * Z.abs (Qnum q) * scale + Zpos (Qden q)) / (2 * Zpos (Qden q)) in
  (if Qnum q <? 0 then "-" else "")
  +:+ pretty (n / scale) +:+ "." +:+ padLeft k (pretty (n mod scale)).

#[export] Instance decimals : Float64 := {|
  float64 := Q;
  ofInt := inject_Z;
  feqb := Qeq_bool;
  fleb := Qle_bool;
  fltb := fun a b => negb (Qle_bool b a);
  ParseFloat := parseDecimal;
  fmt4 := fmtFixed 4;
  fmt1 := fmtFixed 1
|}.

(** A listing with the three fields a job reads. *)
Record Listing : Type := mkListing {
  listingCid : string;
  listingTitle : string;
  listingAddress : string
}.

Fixpoint splitLines (data : list byte) : list (list byte) :=
  match data with
  | [] => [[]]
  | b :: rest =>
      if Byte.eqb b newline then [] :: splitLines rest
      else
        match splitLines rest with
        | first :: others => (b :: first) :: others
        | [] => [[b]]
        end
  end.

(** A decoder of line-oriented bodies: one listing per non-empty line,
    whose text is its content identifier; a body starting with a zero
    byte does not decode. *)
Definition decodeLines (body : list byte) : result (list Listing) :=
  match body with
  | "000"%byte :: _ => Err "invalid character"
  | _ =>
      Ok ((fun l => mkListing (String.string_of_list_byte l) "" "")
            <$> filter (fun l => l <> []) (splitLines body))
  end.

#[export] Instance listings : EntryAPI := {|
  Entry := Listing;
  Cid := listingCid;
  Title := listingTitle;
  Address := listingAddress;
  CsvHeaders := fun _ => ["cid"; "title"; "address"]%string;
  CsvRow := fun e => [listingCid e; listingTitle e; listingAddress e];
  ParseSearchResults := decodeLines;
  filterAndSortEntriesWithinRadius := fun es _ _ _ => es
|}.

Definition emptyHeap : Heap := mkHeap ∅ ∅ ∅.

(** A response: the one-line prefix, then [n] lines [c0], [c1], ... *)
Definition lineOf (i : nat) : list byte :=
  String.list_byte_of_string ("c" +:+ pretty i) ++ [newline].

Definition bodyOf (n : nat) : list byte :=
  String.list_byte_of_string ")]}'" ++ [newline] ++ mjoin (lineOf <$> seq 0 n).

(** A seed job of three pages with deduper and monitor, and its store. *)
Definition coffeeParams : MapSearchParams :=
  mkMapSearchParams (mkMapLocation (40 # 1) (-73 # 1) (15 # 1) (10000 # 1))
    "coffee" 1920 450 "en".

Definition coffeeOpts : list SearchJobOptions :=
  [WithSearchJobDeduper 1%positive; WithSearchJobExitMonitor 1%positive;
   WithSearchJobMaxPages 3].

Definition coffeeSeed : option (Heap * SearchJob) :=
  NewSearchJob "id0" (setParams emptyHeap 1%positive coffeeParams) 1%positive
    coffeeOpts.

Definition coffeeHeap : Heap :=
  match coffeeSeed with Some (h, _) => h | None => emptyHeap end.

Definition coffeeJob : SearchJob :=
  match coffeeSeed with
  | Some (_, j) => j
  | None => mkSearchJob (mkJob "" "" "" ∅ 0 0) 1%positive None None 0 0 0 0
  end.

Definition doneEntries (o : outcome) : list Entry :=
  match o with Done es _ => es | _ => [] end.

Definition doneNext (o : outcome) : list SearchJob :=
  match o with Done _ next => next | _ => [] end.

Definition isDone (o : outcome) : bool :=
  match o with Done _ _ => true | _ => false end.

(** The first page of the query answered with a full page. *)
Definition coffeeRun : Heap * outcome :=
  Process coffeeJob "id1" coffeeHeap (bodyOf 20).

(** Four full pages offered to a query of three pages. *)
Definition coffeeResps : list (string * list byte) :=
  [("id1", bodyOf 20); ("id2", bodyOf 20); ("id3", bodyOf 20);
   ("id4", bodyOf 20)]%string.

(** The seed builder in direct-request mode without a global anchor, on
    a one-line query list. *)
Definition seedsOf (r : string)
  : option (Heap * list Runner.IJob * option string) :=
  Runner.CreateSeedJobs (fun n => "id" +:+ pretty n) emptyHeap true "en" r 1
    false "" 15 (10000 # 1) None None false 0.


(** Five listings written through a writer of two rows per shard. *)
Definition emptyFS : Webrunner.FS := Webrunner.mkFS ∅ ∅.

Definition fiveListings : list Listing :=
  (fun i => mkListing ("c" +:+ pretty i) "name" "street") <$> seq 0 5.

Definition smallWriter : Webrunner.RotatingCsvWriter :=
  Webrunner.NewRotatingCsvWriter "data/job" 2.

Definition fiveResults : list Webrunner.WriteData :=
  [Webrunner.Result (Webrunner.PEntries fiveListings)].

Definition fiveRows
  : Webrunner.RotatingCsvWriter * Webrunner.FS * option string :=
  Webrunner.Run smallWriter emptyFS fiveResults.

(** The numbers of data rows of the files, by path. *)
Definition rowCounts (fs : Webrunner.FS) : list (string * nat) :=
  (fun pf => (pf.1, length (Webrunner.rows pf.2)))
    <$> map_to_list (Webrunner.files fs).

(** Ten shards of one data row each, as a writer leaves them, and their
    merge. *)
Definition tenListings : list Listing :=
  (fun i => mkListing ("c" +:+ pretty i) "name" "street") <$> seq 1 10.

Definition tenShards : Webrunner.FS :=
  (Webrunner.Run (Webrunner.NewRotatingCsvWriter "data/job" 1) emptyFS
     [Webrunner.Result (Webrunner.PEntries tenListings)]).1.2.

Definition mergedTen : Webrunner.FS * Z * option string :=
  Webrunner.mergeCSVFiles tenShards "data" "job".

(** The header of a file and the first field of each of its data rows. *)
Definition outline (f : Webrunner.File) : option (list string) * list string :=
  (Webrunner.header f, (fun r => default ""%string (head r)) <$> Webrunner.rows f).

(** A storage that accepts every update and an engine whose run delivers
    three listings and ends at the deadline. *)
Definition threeListings : list Listing :=
  (fun i => mkListing ("c" +:+ pretty i) "name" "street") <$> seq 1 3.

#[export] Instance deadlineServices : Webrunner.Services := {|
  Webrunner.updateErr := fun _ => None;
  Webrunner.setupMateErr := fun _ => None;
  Webrunner.mateStart := fun _ _ =>
    ([Webrunner.Result (Webrunner.PEntries threeListings)],
     Some Webrunner.DeadlineExceeded)
|}.

Definition demoConfig : Webrunner.Config := Webrunner.mkConfig "data" 5 false.

Definition demoUUID (n : nat) : string := "id" +:+ pretty n.

Definition demoData (keywords : list string) : Web.JobData :=
  Web.mkJobData keywords "en" 15 "" "" true 0 1 false 0 0.

Definition emptyRun : Web.Job :=
  Web.mkJob "job" Web.StatusPending 0 (demoData []).

Definition coffeeRunJob : Web.Job :=
  Web.mkJob "job" Web.StatusPending 0 (demoData ["coffee#!geo#40.0,-73.0"]%string).

Definition emptyWorld : Webrunner.World :=
  Webrunner.mkWorld emptyFS ∅ emptyHeap 0 [].

Definition demoSeeds : option (Heap * list Runner.IJob * option string) :=
  Webrunner.createSeeds demoConfig demoUUID emptyHeap (Web.Data coffeeRunJob).

Definition demoSeedHeap : Heap :=
  match demoSeeds with Some (h, _, _) => h | None => emptyHeap end.

Definition demoSeedJobs : list Runner.IJob :=
  match demoSeeds with Some (_, jobs, _) => jobs | None => [] end.

(** Whether the seed builder returned at least one job and no error. *)
Definition seedsOk (out : option (Heap * list Runner.IJob * option string))
  : bool :=
  match out with
  | Some (_, _ :: _, None) => true
  | _ => false
  end.

End Fixture.

(** ** Package web: the service over the result files of the runs *)

Module WebService.

Import GoStrings Webrunner.

(** [strings.Contains]. *)
Fixpoint Contains (s substr : string) : bool :=
  String.prefix substr s
  || match s with
     | EmptyString => false
     | String _ rest => Contains rest substr
     end.

(** The test on the identifier that [Delete], [GetCSV] and [GetExcel]
    start with. *)
Definition invalidName (id : string) : bool :=
  Contains id "/" || Contains id (String "092"%char EmptyString)
  || Contains id "..".

(** [GetCSV]: the path of the merged file of a run if there is one, else
    of the first shard in the order of the names.  [None] is the panic of
    an index out of range. *)
Definition GetCSV (fs : FS) (dataFolder id : string)
  : option (result string) :=
  if invalidName id then Some (Err "invalid file name")
  else
    let datapath := filepathJoin dataFolder (id +:+ ".csv") in
    if bool_decide (is_Some (files fs !! datapath)) then Some (Ok datapath)
    else
      let matches := Glob fs dataFolder id in
      if (Z.of_nat (length matches) =? 0)
      then Some (Err ("csv file not found for job " +:+ id))
      else Ok <$> sortStrings matches !! 0%nat.




(** The positions, from [i] on, of the headers that are requested. *)
Fixpoint indicesFrom (fieldSet : gset string) (i : nat) (headers : row)
  : list nat :=
  match headers with
  | [] => []
  | h :: rest =>
      if decide (h ∈ fieldSet) then i :: indicesFrom fieldSet (S i) rest
      else indicesFrom fieldSet (S i) rest
  end.

(** The cells of a row at the given positions, those out of range left
    out. *)
Definition project (indices : list nat) (r : row) : row :=
  omap (fun idx => r !! idx) indices.

(** [filterRecords]: the columns whose header is one of the fields. *)
Definition filterRecords (records : list row) (fields : list string)
  : list row :=
  match records with
  | [] => records
  | headers :: _ =>
      let fieldSet : gset string := list_to_set (TrimSpace <$> fields) in
      let indices := indicesFrom fieldSet 0 headers in
      if (Z.of_nat (length indices) =? 0) then records
      else project indices <$> records
  end.

End WebService.

(** ** The pages of a run on the shared store *)

Module GmapsRun.

Import Gmaps.

Section WithDecoder.

Context `{EntryAPI}.

(** The pages of a run handed to [Process] one after the other, each a
    job, the identifier drawn for its continuation and the body of its
    response; the result is the store they leave and the entries of the
    pages that succeeded, in order. *)
Fixpoint processAll (h : Heap) (pages : list (SearchJob * string * list byte))
  : Heap * list Entry :=
  match pages with
  | [] => (h, [])
  | (j, newID, body) :: rest =>
      let '(h1, o) := Process j newID h body in
      let '(h2, es) := processAll h1 rest in
      (h2, match o with Done entries _ => entries ++ es | _ => es end)
  end.

(** The pages of one query processed in turn, each on the store the
    page before left: the store after the last page processed, and
    whether the query is finished, that is whether that page succeeded
    and emitted no job. *)
Fixpoint chainStore (j : SearchJob) (h : Heap)
    (resps : list (string * list byte)) : Heap * bool :=
  match resps with
  | [] => (h, false)
  | (newID, body) :: rest =>
      match Process j newID h body with
      | (h', Done _ (child :: _)) => chainStore child h' rest
      | (h', Done _ []) => (h', true)
      | (h', _) => (h', false)
      end
  end.

(** The places a monitor has been told of and not yet seen completed. *)
Definition outstanding (c : Counters) : Z :=
  placesFound c - placesCompleted c.

(** What the radius filter keeps of a decoded response. *)
Definition keptOf (p : MapSearchParams) (decoded : list Entry) : list Entry :=
  filterAndSortEntriesWithinRadius decoded
    (Lat (Location p)) (Lon (Location p)) (Radius (Location p)).

End WithDecoder.

End GmapsRun.

(** ** The seeds of a run: what the seed builder maintains *)

Module RunnerInv.

Import Gmaps GmapsInv GoStrings Runner.

Section WithDecoder.

Context `{EntryAPI}.

(** The lines of a query list that are not blank. *)
Definition queryLines (lines : list string) : list string :=
  filter (fun l => TrimSpace l <> ""%string) lines.

(** Whether the byte [c] occurs in [s]. *)
Fixpoint occurs (c : ascii) (s : string) : bool :=
  match s with
  | EmptyString => false
  | String a rest => Ascii.eqb a c || occurs c rest
  end.

(** A keyword that makes one line of the query list: it holds no line
    break and fits the scanner's buffer. *)
Definition oneLine (s : string) : Prop :=
  occurs lf s = false
  /\ occurs cr s = false
  /\ Z.of_nat (String.length s) < MaxScanTokenSize.

(** The rendered-page job of one line of the query list. *)
Definition browserSeed (langCode : string) (maxDepth : Z) (email : bool)
    (geoCoordinates : string) (zoom : Z) (opts : list GmapJobOption)
    (line : string) : IJob :=
  let '(query, id) := cutID (TrimSpace line) in
  let g := cutGeo query fzero fzero geoCoordinates in
  GmapIJob
    (mkGmapJob id langCode (qQuery g) maxDepth email (queryGeo g) zoom opts).

(** The pages of a direct-request seed built for a depth. *)
Definition seedPages (maxDepth : Z) : Z :=
  if decide (2 <= maxDepth <= maxPaginationPages) then maxDepth
  else maxPaginationPages.

(** The parameters a job of the run points to, if it is a search job. *)
Definition seedParams (ij : IJob) : option loc :=
  match ij with
  | SearchIJob j => Some (params j)
  | GmapIJob _ => None
  end.

(** A seed of direct-request mode in the store [h]. *)
Definition fastSeed (langCode : string) (zoom : Z) (radius : float64)
    (dedup exitMonitor : option loc) (searchDelay maxDepth : Z)
    (h : Heap) (ij : IJob) : Prop :=
  exists j p,
    ij = SearchIJob j
    /\ isSeed j
    /\ Deduper j = dedup
    /\ ExitMonitor j = exitMonitor
    /\ SearchDelay j = (if 0 <? searchDelay then searchDelay else 0)
    /\ maxPages j = seedPages maxDepth
    /\ paramsH h !! params j = Some p
    /\ ViewportW p = 600 /\ ViewportH p = 800
    /\ Hl p = langCode
    /\ ZoomLvl (Location p) = ofInt zoom
    /\ Radius (Location p) = radius.

(** What the scanning loop maintains in direct-request mode, from the
    store [h0] it started with. *)
Definition seedsInv (uuid : nat -> string) (langCode : string) (zoom : Z)
    (radius : float64) (dedup exitMonitor : option loc)
    (searchDelay maxDepth : Z) (h0 h : Heap) (jobs : list IJob) : Prop :=
  Forall (fastSeed langCode zoom radius dedup exitMonitor searchDelay
            maxDepth h) jobs
  /\ (forall k j, jobs !! k = Some (SearchIJob j) ->
        ID (job j) = uuid k /\ paramsH h0 !! params j = None)
  /\ NoDup (omap seedParams jobs)
  /\ (forall q v, paramsH h0 !! q = Some v -> paramsH h !! q = Some v)
  /\ dedupH h = dedupH h0
  /\ exitH h = exitH h0.

End WithDecoder.

End RunnerInv.

(** ** The shards of a writer: what is on disk after a series of writes *)

Module WriterInv.

Import Gmaps Webrunner WebrunnerInv.

Section WithDecoder.

Context `{EntryAPI}.

Definition payloadOf (data : WriteData) : Payload :=
  match data with
  | Result p => p
  | Plain p => p
  end.

(** The records a call of [Write] that succeeds adds to the shards. *)
Definition rowsWritten (data : WriteData) : list row :=
  match payloadOf data with
  | PEntries es => CsvRow <$> es
  | p => match recordOf p with Some r => [r] | None => [] end
  end.

(** A condition on the header of every shard a call of [Write] may
    open. *)
Definition headersOK (okHeader : option row -> Prop) (data : WriteData)
  : Prop :=
  match payloadOf data with
  | PEntries es => Forall (fun e => okHeader (headersFor (PEntryPtr e))) es
  | p => okHeader (headersFor p)
  end.

(** The writer [w] and the disk [fs] after rows were written from a new
    writer on the disk [fs0]: [shards] are the data rows of the shards
    1, 2, ... in order.  Every shard holds at least one row and at most
    the limit, every shard but the last is full, the last is the open
    one, and no other file has changed. *)
Definition shardsInv (okHeader : option row -> Prop) (base : string)
    (L : Z) (fs0 : FS) (shards : list (list row)) (w : RotatingCsvWriter)
    (fs : FS) : Prop :=
  baseFileName w = base
  /\ limit w = L
  /\ fileIndex w = Z.of_nat (length shards) + 1
  /\ (shards = [] -> currentFile w = None /\ currentCount w = 0)
  /\ (forall pre lastShard, shards = pre ++ [lastShard] ->
        currentFile w = Some (shardName base (Z.of_nat (S (length pre))))
        /\ currentCount w = Z.of_nat (length lastShard))
  /\ (forall k rs, shards !! k = Some rs ->
        exists hdr,
          okHeader hdr
          /\ files fs !! shardName base (Z.of_nat (S k))
             = Some (mkFile true hdr rs))
  /\ (forall k rs, shards !! k = Some rs ->
        1 <= Z.of_nat (length rs) <= L
        /\ ((S k < length shards)%nat -> Z.of_nat (length rs) = L))
  /\ (forall path,
        (forall k, (k < length shards)%nat ->
                   path <> shardName base (Z.of_nat (S k))) ->
        files fs !! path = files fs0 !! path)
  /\ denied fs = denied fs0
  /\ onWriteCalls w
     = (if OnWrite w then Z.of_nat (length (mjoin shards)) else 0).


End WithDecoder.

End WriterInv.

(** ** What the merger takes from the shards it finds *)

Module MergeInv.

Import Webrunner.

(** The data rows the merger takes from a file: the records after the
    first, and none when the file cannot be read or holds no record. *)
Definition dataRowsOf (fs : FS) (path : string) : list row :=
  match readCSVWithBOM fs path with
  | Ok (_ :: rest) => rest
  | _ => []
  end.

(** The header the merger writes: the first record of the first file
    that can be read and holds one. *)
Fixpoint firstHeaderOf (fs : FS) (paths : list string) : option row :=
  match paths with
  | [] => None
  | p :: rest =>
      match readCSVWithBOM fs p with
      | Ok (first :: _) => Some first
      | _ => firstHeaderOf fs rest
      end
  end.

End MergeInv.

(** ** Further examples to run the code on *)

Module Scenario.

Import Gmaps GmapsRun Fixture.

(** The same full page answered twice to the first job of the query. *)
Definition twicePages : list (SearchJob * string * list byte) :=
  [(coffeeJob, "id1"%string, bodyOf 20); (coffeeJob, "id2"%string, bodyOf 20)].

(** A response without the end of its first line. *)
Definition prefixOnly : list byte := String.list_byte_of_string ")]}'".

(** The seed builder in rendered-page mode on a list of three lines, one
    of them blank. *)
Definition browserList : string :=
  String.concat (String GoStrings.lf EmptyString)
    ["coffee #!# shop-1"; "   "; "tea#!geo#40.5,-73.25"]%string.

Definition browserSeeds : option (Heap * list Runner.IJob * option string) :=
  Runner.CreateSeedJobs demoUUID emptyHeap false "en" browserList 2 true
    "1.0,2.0" 30 (5 # 1) (Some 1%positive) None true 4.

(** A dispatch engine that cannot be set up. *)
Definition brokenEngine : Webrunner.Services := {|
  Webrunner.updateErr := fun _ => None;
  Webrunner.setupMateErr := fun _ => Some "no browser"%string;
  Webrunner.mateStart := fun _ _ => ([], None)
|}.

(** A direct-request run whose only keyword has no coordinates, and one
    whose only keyword does not fit the scanner's buffer. *)
Definition bakeryRun : Web.Job :=
  Web.mkJob "job" Web.StatusPending 0 (demoData ["bakery"]%string).

Definition longKeyword : string :=
  String.string_of_list_ascii (replicate (Z.to_nat 65536) "a"%char).

Definition longRun : Web.Job :=
  Web.mkJob "job" Web.StatusPending 0 (demoData [longKeyword]).

(** Whether the seed builder returned no job and no error. *)
Definition noSeeds (out : option (Heap * list Runner.IJob * option string))
  : bool :=
  match out with
  | Some (_, [], None) => true
  | _ => false
  end.

(** Three shards on disk, the second with a record of the wrong number
    of fields. *)
Definition mixedShards : Webrunner.FS :=
  Webrunner.mkFS
    (<["data/job_1.csv"%string :=
         Webrunner.mkFile true (Some ["cid"; "title"]%string)
           [["c1"; "first"]%string]]>
       (<["data/job_2.csv"%string :=
            Webrunner.mkFile true (Some ["cid"; "title"]%string)
              [["c2"]%string]]>
          (<["data/job_3.csv"%string :=
               Webrunner.mkFile true (Some ["cid"; "title"]%string)
                 [["c3"; "third"]%string]]> ∅)))
    ∅.


(** The merge of the three shards. *)
Definition mixedMerged : Webrunner.FS * Z * option string :=
  Webrunner.mergeCSVFiles mixedShards "data" "job".

(** The records of a result file, and two ways to ask for the same two
    of its columns. *)
Definition sheetHeader : list string := ["cid"; "title"; "address"]%string.

Definition sheetRows : list (list string) :=
  [["c1"; "n1"; "a1"]; ["c2"; "n2"; "a2"]]%string.

Definition someFields : list string := [" title "; "cid"; "nope"]%string.

Definition sameFields : list string :=
  ["nope"; "cid"; "title"; "cid  "]%string.







(** The keywords of a run, one of them blank and the last empty. *)
Definition keywordList : list string :=
  ["coffee"; "  "; "tea#!geo#40.5,-73.25"; ""]%string.

End Scenario.

(** * Properties *)

(** Case analysis on the integer tests of the code. *)
Ltac ztest :=
  match goal with
  | |- context [?a =? ?b] => destruct (Z.eqb_spec a b)
  | |- context [?a <=? ?b] => destruct (Z.leb_spec a b)
  | |- context [?a <? ?b] => destruct (Z.ltb_spec a b)
  end.

(** ** Facts about [int] arithmetic *)

Module GoIntFacts.

Import GoInt.

Lemma wrap_id z : in_range z -> wrap z = z.
Proof.
  unfold in_range, min_int, max_int, wrap. intros Hz.
  rewrite Z.mod_small; lia.
Qed.

Lemma wrap_in_range z : in_range (wrap z).
Proof.
  unfold in_range, min_int, max_int, wrap.
  pose proof (Z.mod_pos_bound (z + 2 ^ 63) (2 ^ 64) ltac:(lia)). lia.
Qed.

Lemma add_small a b : in_range (a + b) -> add a b = a + b.
Proof. apply wrap_id. Qed.

Lemma mul_small a b : in_range (a * b) -> mul a b = a * b.
Proof. apply wrap_id. Qed.

Lemma div_small a b : in_range (Z.quot a b) -> div a b = Z.quot a b.
Proof. apply wrap_id. Qed.

Lemma small_in_range z : -2 ^ 62 <= z <= 2 ^ 62 -> in_range z.
Proof. unfold in_range, min_int, max_int. lia. Qed.

End GoIntFacts.

(** ** The paginating search job *)

Module GmapsSpec.

Import Gmaps GmapsInv GoIntFacts.

(** *** The anti-hijacking prefix *)

Lemma IndexByte_ge data c : -1 <= IndexByte data c.
Proof.
  induction data as [|b rest IH]; simpl; [lia|].
  destruct (Byte.eqb b c); [lia|]. ztest; lia.
Qed.

Lemma IndexByte_absent data c : c ∉ data -> IndexByte data c = -1.
Proof.
  induction data as [|b rest IH]; simpl; intros Hc; [done|].
  apply not_elem_of_cons in Hc as [Hne Hc].
  destruct (Byte.eqb b c) eqn:E.
  - apply Byte.byte_dec_bl in E. congruence.
  - rewrite (IH Hc). reflexivity.
Qed.

Lemma IndexByte_first pre c rest :
  c ∉ pre -> IndexByte (pre ++ c :: rest) c = Z.of_nat (length pre).
Proof.
  induction pre as [|b pre IH]; cbn [IndexByte app length]; intros Hc.
  - by rewrite (Byte.byte_dec_lb (eq_refl c)).
  - apply not_elem_of_cons in Hc as [Hne Hc].
    destruct (Byte.eqb b c) eqn:E.
    + apply Byte.byte_dec_bl in E. congruence.
    + rewrite (IH Hc). ztest; lia.
Qed.

Lemma removeFirstLine_strips pre rest :
  newline ∉ pre -> removeFirstLine (pre ++ newline :: rest) = rest.
Proof.
  intros Hpre. unfold removeFirstLine.
  rewrite length_app, (IndexByte_first _ _ _ Hpre). simpl length.
  do 2 (ztest; [lia|]).
  replace (Z.to_nat (Z.of_nat (length pre) + 1)) with (length pre + 1)%nat by lia.
  rewrite <- drop_drop, drop_app_length. reflexivity.
Qed.

Lemma removeFirstLine_no_newline data :
  newline ∉ data -> removeFirstLine data = [].
Proof.
  intros Hd. unfold removeFirstLine.
  destruct data as [|b rest]; [reflexivity|].
  ztest; [simpl length in *; lia|].
  by rewrite (IndexByte_absent _ _ Hd).
Qed.

Section WithDecoder.

Context `{EntryAPI}.

Lemma WithSearchJobMaxPages_spec n j :
  maxPages (WithSearchJobMaxPages n j)
  = if decide (1 <= n <= maxPaginationPages) then n else maxPages j.
Proof.
  unfold WithSearchJobMaxPages, maxPaginationPages.
  do 2 ztest; simpl; case_decide; try reflexivity; lia.
Qed.

Lemma isSeed_wf j : isSeed j -> wfJob j.
Proof.
  intros [Hp Ho Hm Hpr]. constructor; rewrite ?Hp, ?Ho, ?Hpr; lia.
Qed.

Lemma stdOption_seed opt j : stdOption opt -> isSeed j -> isSeed (opt j).
Proof.
  intros Hopt [Hp Ho Hm Hpr]. destruct Hopt; try (by constructor).
  unfold WithSearchJobMaxPages.
  do 2 ztest; simpl; try (by constructor).
  constructor; simpl; try done. lia.
Qed.

Lemma stdOptions_seed opts j :
  Forall stdOption opts -> isSeed j ->
  isSeed (foldl (fun j opt => opt j) j opts).
Proof.
  intros Hopts. revert j.
  induction Hopts as [|opt opts Hopt _ IH]; intros j Hj; simpl; [done|].
  apply IH. by apply stdOption_seed.
Qed.

Lemma NewSearchJob_seed newID h p opts h' j :
  Forall stdOption opts ->
  NewSearchJob newID h p opts = Some (h', j) -> isSeed j.
Proof.
  intros Hopts. unfold NewSearchJob.
  set (j0 := mkSearchJob _ _ _ _ _ _ _ _).
  assert (Hj0 : isSeed j0) by (constructor; simpl; try done;
                                unfold maxPaginationPages; lia).
  pose proof (stdOptions_seed opts j0 Hopts Hj0) as [Hp Ho Hm Hpr].
  destruct (buildGoogleMapsParams _ _ _) as [[hb u]|]; [|done].
  intros [= <- <-]. by constructor.
Qed.

(** *** Arithmetic of a well-formed job does not wrap *)

Lemma wf_nextPage j : wfJob j -> GoInt.add (pageNum j) 1 = pageNum j + 1.
Proof.
  intros [Hp Hm _ _]. apply add_small, small_in_range.
  unfold maxPaginationPages in Hm. lia.
Qed.

Lemma wf_nextOffset j :
  wfJob j ->
  GoInt.mul (GoInt.add (pageNum j) 1) resultsPerPage
  = (pageNum j + 1) * resultsPerPage.
Proof.
  intros Hj. rewrite (wf_nextPage j Hj). destruct Hj as [Hp Hm _ _].
  apply mul_small, small_in_range.
  unfold maxPaginationPages, resultsPerPage in *. lia.
Qed.

Lemma wf_nextPrio j :
  wfJob j -> GoInt.add (Priority (job j)) 1 = Priority (job j) + 1.
Proof.
  intros [Hp Hm _ Hpr]. apply add_small, small_in_range.
  unfold maxPaginationPages, PriorityMedium in *. lia.
Qed.

Lemma wantsNextPage_spec j rawCount :
  wfJob j ->
  wantsNextPage j rawCount
  = bool_decide (resultsPerPage <= rawCount /\ pageNum j + 1 < maxPages j).
Proof.
  intros Hj. unfold wantsNextPage. rewrite (wf_nextPage j Hj).
  do 2 ztest; simpl; case_bool_decide; try reflexivity; lia.
Qed.

(** *** The store: what each step leaves alone *)

Lemma calls_notify h m e : calls (notify h m e) m = calls h m ++ [e].
Proof. unfold calls at 1. simpl. by rewrite lookup_insert_eq. Qed.

Lemma calls_notify_ne h m m' e : m <> m' -> calls (notify h m e) m' = calls h m'.
Proof. intros Hne. unfold calls. simpl. by rewrite lookup_insert_ne. Qed.

Lemma dedupEntries_exitH h d es h1 out :
  dedupEntries h d es = (h1, out) ->
  exitH h1 = exitH h /\ paramsH h1 = paramsH h.
Proof.
  unfold dedupEntries. destruct d as [l|]; [|by intros [= <- _]].
  destruct (dedupLoop _ _) as [s unique]. by intros [= <- _].
Qed.

Lemma buildGoogleMapsParams_exitH h p off hb u :
  buildGoogleMapsParams h p off = Some (hb, u) ->
  exitH hb = exitH h /\ dedupH hb = dedupH h
  /\ exists v, paramsH h !! p = Some v /\ paramsH hb = <[p := withViewport v]> (paramsH h).
Proof.
  unfold buildGoogleMapsParams. destruct (paramsH h !! p) as [v|]; [|done].
  intros [= <- _]. simpl. eauto.
Qed.

Lemma calls_exitH h h' m : exitH h' = exitH h -> calls h' m = calls h m.
Proof. unfold calls. by intros ->. Qed.

Lemma calls_report h m j n :
  calls (foldl (fun hh e => notifyOpt hh (Some m) e) h (report j n)) m
  = calls h m ++ report j n.
Proof.
  unfold report. simpl. rewrite !calls_notify, <- !app_assoc. reflexivity.
Qed.

(** *** What a successful [Process] did *)

Lemma Process_Done j newID h body h' entries next :
  Process j newID h body = (h', Done entries next) ->
  exists decoded p h1,
    removeFirstLine body <> []
    /\ ParseSearchResults (removeFirstLine body) = Ok decoded
    /\ paramsH h !! params j = Some p
    /\ dedupEntries h (Deduper j)
         (filterAndSortEntriesWithinRadius decoded
            (Lat (Location p)) (Lon (Location p)) (Radius (Location p)))
       = (h1, entries)
    /\ let finish := fun h2 =>
         foldl (fun hh e => notifyOpt hh (ExitMonitor j) e) h2
           (report j (Z.of_nat (length entries))) in
       if wantsNextPage j (Z.of_nat (length decoded)) then
         exists hb u,
           buildGoogleMapsParams h1 (params j)
             (GoInt.mul (GoInt.add (pageNum j) 1) resultsPerPage)
           = Some (hb, u)
           /\ next = [nextJobOf j newID u]
           /\ h' = finish (notifyOpt hb (ExitMonitor j) (IncrPlacesFound 1))
       else next = [] /\ h' = finish h1.
Proof.
  unfold Process.
  destruct (removeFirstLine body) as [|b0 body'] eqn:Ebody; [done|].
  ztest; [simpl length in *; lia|].
  destruct (ParseSearchResults _) as [decoded|msg] eqn:Eparse; [|done].
  destruct (paramsH h !! params j) as [p|] eqn:Ep; [|done].
  destruct (dedupEntries _ _ _) as [h1 es] eqn:Ededup.
  destruct (wantsNextPage j _) eqn:Ewant.
  - destruct (buildGoogleMapsParams _ _ _) as [[hb u]|] eqn:Eb; [|done].
    intros [= <- <- <-].
    exists decoded, p, h1. repeat split; try done. rewrite Ewant. eauto.
  - intros [= <- <- <-].
    exists decoded, p, h1. repeat split; try done. by rewrite Ewant.
Qed.

Lemma rawCountOf_decoded body decoded :
  removeFirstLine body <> [] ->
  ParseSearchResults (removeFirstLine body) = Ok decoded ->
  rawCountOf body = Z.of_nat (length decoded).
Proof.
  unfold rawCountOf. intros Hne ->.
  destruct (removeFirstLine body); [done|]. by ztest.
Qed.

(** A job whose parameters are allocated does not panic. *)
Lemma Process_no_panic j newID h body :
  is_Some (paramsH h !! params j) -> (Process j newID h body).2 <> Panic.
Proof.
  intros [p Hp]. unfold Process.
  ztest; [done|].
  destruct (ParseSearchResults _) as [decoded|msg]; [|done].
  rewrite Hp.
  destruct (dedupEntries _ _ _) as [h1 es] eqn:Ededup.
  apply dedupEntries_exitH in Ededup as [_ Hpar].
  destruct (wantsNextPage j _); [|done].
  unfold buildGoogleMapsParams. rewrite Hpar, Hp. done.
Qed.

Lemma notifyOpt_paramsH h m e : paramsH (notifyOpt h m e) = paramsH h.
Proof. by destruct m. Qed.

Lemma child_wf j newID u :
  wfJob j -> pageNum j + 1 < maxPages j -> wfJob (nextJobOf j newID u).
Proof.
  intros Hj Hlt. pose proof Hj as [Hp Hm Ho Hpr].
  constructor; simpl;
    rewrite ?(wf_nextOffset j Hj), ?(wf_nextPage j Hj), ?(wf_nextPrio j Hj);
    try done; lia.
Qed.

(** The job a successful page emits, if any. *)
Lemma Process_next_shape j newID h body h' entries next :
  wfJob j ->
  Process j newID h body = (h', Done entries next) ->
  next = []
  \/ exists u, next = [nextJobOf j newID u] /\ pageNum j + 1 < maxPages j.
Proof.
  intros Hj HP.
  apply Process_Done in HP as (decoded & p & h1 & _ & _ & _ & _ & Hnext).
  rewrite (wantsNextPage_spec j _ Hj) in Hnext.
  case_bool_decide as Hcond; simpl in Hnext.
  - destruct Hnext as (hb & u & _ & -> & _). right. exists u. by destruct Hcond.
  - left. by destruct Hnext.
Qed.

(** C3.  A successfully processed page [k] emits exactly one job iff
    the decoder returned at least 20 entries before any filter and
    [k+1 < maxPages]; that job is page [k+1] at offset [(k+1)*20], shares
    the parameters, deduper and exit monitor of its parent, whose query
    and location are untouched, and has priority parent+1, strictly
    lower than its parent's.  Otherwise no job is emitted. *)
Theorem process_pagination j newID h body h' entries next :
  wfJob j ->
  Process j newID h body = (h', Done entries next) ->
  if bool_decide (resultsPerPage <= rawCountOf body
                  /\ pageNum j + 1 < maxPages j)
  then exists child,
      next = [child]
      /\ offset child = (pageNum j + 1) * resultsPerPage
      /\ pageNum child = pageNum j + 1
      /\ params child = params j
      /\ Deduper child = Deduper j
      /\ ExitMonitor child = ExitMonitor j
      /\ maxPages child = maxPages j
      /\ Priority (job child) = Priority (job j) + 1
      /\ Priority (job j) < Priority (job child)
      /\ Query <$> paramsH h' !! params child = Query <$> paramsH h !! params j
      /\ Location <$> paramsH h' !! params child
         = Location <$> paramsH h !! params j
      /\ wfJob child
  else next = [].
Proof.
  intros Hj HP.
  apply Process_Done in HP
    as (decoded & p & h1 & Hbody & Hparse & Hp & Hdedup & Hnext).
  rewrite (rawCountOf_decoded _ _ Hbody Hparse).
  rewrite (wantsNextPage_spec j _ Hj) in Hnext.
  case_bool_decide as Hcond; simpl in Hnext.
  - destruct Hnext as (hb & u & Hb & -> & ->). destruct Hcond as [_ Hlt].
    exists (nextJobOf j newID u).
    apply dedupEntries_exitH in Hdedup as [_ Hpar1].
    apply buildGoogleMapsParams_exitH in Hb as (_ & _ & v & Hv & Hparb).
    rewrite Hpar1 in Hv, Hparb.
    assert (v = p) as -> by congruence.
    simpl. rewrite (wf_nextOffset j Hj), (wf_nextPage j Hj), (wf_nextPrio j Hj).
    rewrite !notifyOpt_paramsH, Hparb, lookup_insert_eq, Hp. simpl.
    repeat split; try done; try lia.
    all: by apply (child_wf j newID u Hj Hlt).
  - by destruct Hnext as [-> _].
Qed.

Lemma countersOf_app l l' :
  countersOf (l ++ l') = foldl applyCall (countersOf l) l'.
Proof. unfold countersOf. by rewrite foldl_app. Qed.

(** C4.  A successful [Process] of a job with an exit monitor makes
    these calls on it, in this order: when a job is emitted, one
    places-found increment of 1; then seeds-completed +1 for page 0 or
    places-completed +1 for a later page; then places-found and
    places-completed each by the number of entries returned.  The
    counters move accordingly. *)
Theorem process_reports j newID h body h' entries next m :
  ExitMonitor j = Some m ->
  Process j newID h body = (h', Done entries next) ->
  let n := Z.of_nat (length entries) in
  let spawned := match next with [] => 0 | _ => 1 end in
  calls h' m
  = calls h m
    ++ (match next with [] => [] | _ => [IncrPlacesFound 1] end)
    ++ [ (if pageNum j =? 0 then IncrSeedCompleted 1
          else IncrPlacesCompleted 1);
         IncrPlacesFound n;
         IncrPlacesCompleted n ]
  /\ seedsCompleted (countersOf (calls h' m))
     = seedsCompleted (countersOf (calls h m))
       + (if pageNum j =? 0 then 1 else 0)
  /\ placesFound (countersOf (calls h' m))
     = placesFound (countersOf (calls h m)) + spawned + n
  /\ placesCompleted (countersOf (calls h' m))
     = placesCompleted (countersOf (calls h m))
       + (if pageNum j =? 0 then 0 else 1) + n
  /\ seedsTotal (countersOf (calls h' m))
     = seedsTotal (countersOf (calls h m)).
Proof.
  intros Hm HP n spawned.
  apply Process_Done in HP
    as (decoded & p & h1 & Hbody & Hparse & Hp & Hdedup & Hnext).
  apply dedupEntries_exitH in Hdedup as [Hex1 _].
  assert (Hcalls :
    calls h' m
    = calls h m
      ++ (match next with [] => [] | _ => [IncrPlacesFound 1] end)
      ++ report j n).
  { rewrite Hm in Hnext. destruct (wantsNextPage j _).
    - destruct Hnext as (hb & u & Hb & -> & ->).
      apply buildGoogleMapsParams_exitH in Hb as (Hexb & _).
      rewrite calls_report. simpl notifyOpt. rewrite calls_notify.
      rewrite (calls_exitH h (hb) m) by congruence.
      by rewrite <- app_assoc.
    - destruct Hnext as [-> ->].
      rewrite calls_report, (calls_exitH h h1 m) by done. done. }
  split; [exact Hcalls|].
  rewrite Hcalls, !countersOf_app. unfold report, spawned.
  destruct next as [|c cs]; destruct (pageNum j =? 0); simpl;
    repeat split; lia.
Qed.

(** C8.  [removeFirstLine] drops everything up to and including the
    first newline (the whole body when there is none), and a body whose
    remainder is empty makes [Process] fail with an error: no entries,
    no job, and nothing admitted to the deduper or reported to the
    monitor. *)
Theorem process_empty_body :
  (forall pre rest,
      newline ∉ pre -> removeFirstLine (pre ++ newline :: rest) = rest)
  /\ (forall data, newline ∉ data -> removeFirstLine data = [])
  /\ (forall j newID h body,
         removeFirstLine body = [] ->
         Process j newID h body = (h, Failed "empty response body")).
Proof.
  split; [exact removeFirstLine_strips|].
  split; [exact removeFirstLine_no_newline|].
  intros j newID h body Hempty. unfold Process. by rewrite Hempty.
Qed.

(** *** The chain of pages of one query *)




End WithDecoder.

(** *** The theorems at work on a three-page query *)

Import Fixture.

Lemma coffeeJob_wf : wfJob coffeeJob.
Proof.
  apply isSeed_wf.
  constructor; vm_compute; first [reflexivity | split; discriminate].
Qed.

Lemma isDone_eta (r : Heap * outcome) :
  isDone r.2 = true -> r = (r.1, Done (doneEntries r.2) (doneNext r.2)).
Proof. by destruct r as [h [| |es next]]. Qed.

Lemma coffeeRun_done :
  Process coffeeJob "id1" coffeeHeap (bodyOf 20)
  = (coffeeRun.1, Done (doneEntries coffeeRun.2) (doneNext coffeeRun.2)).
Proof. apply (isDone_eta coffeeRun). vm_compute. reflexivity. Qed.

Lemma process_pagination_witness :
  exists child,
    doneNext coffeeRun.2 = [child]
    /\ offset child = 20 /\ pageNum child = 1
    /\ Priority (job child) = 2 /\ params child = params coffeeJob.
Proof.
  pose proof (process_pagination coffeeJob "id1" coffeeHeap (bodyOf 20)
                _ _ _ coffeeJob_wf coffeeRun_done) as Hthm.
  rewrite bool_decide_eq_true_2 in Hthm by (vm_compute; split; congruence).
  destruct Hthm as (child & Hn & Ho & Hp & Hpar & _ & _ & _ & Hpr & _).
  exists child. repeat split; assumption.
Defined.

Lemma process_reports_witness :
  calls coffeeRun.1 1%positive
  = [IncrPlacesFound 1; IncrSeedCompleted 1;
     IncrPlacesFound 20; IncrPlacesCompleted 20]
  /\ placesFound (countersOf (calls coffeeRun.1 1%positive)) = 21.
Proof.
  pose proof (process_reports coffeeJob "id1" coffeeHeap (bodyOf 20)
                _ _ _ 1%positive eq_refl coffeeRun_done)
    as (Hcalls & _ & Hfound & _).
  split; [exact Hcalls | exact Hfound].
Defined.

Lemma process_empty_body_witness :
  removeFirstLine (bodyOf 1) = lineOf 0
  /\ Process coffeeJob "id1" coffeeHeap (String.list_byte_of_string ")]}'")
     = (coffeeHeap, Failed "empty response body").
Proof.
  destruct (@process_empty_body decimals listings) as (Hstrip & Hnone & Hfail).
  split.
  - apply (Hstrip (String.list_byte_of_string ")]}'") (lineOf 0)).
    apply (bool_decide_unpack _). vm_compute. exact I.
  - apply Hfail, Hnone.
    apply (bool_decide_unpack _). vm_compute. exact I.
Defined.



End GmapsSpec.

(** ** The seed builder *)

Module RunnerSpec.

Import Gmaps GmapsInv GoStrings Runner GmapsSpec.

Section WithDecoder.

Context `{EntryAPI}.

Lemma stdOption_params opt (j : SearchJob) :
  stdOption opt -> params (opt j) = params j.
Proof.
  intros Hopt. destruct Hopt; try reflexivity.
  unfold WithSearchJobMaxPages. by destruct (_ && _).
Qed.

Lemma stdOptions_params opts (j : SearchJob) :
  Forall stdOption opts -> params (foldl (fun j opt => opt j) j opts) = params j.
Proof.
  intros Hopts. revert j.
  induction Hopts as [|opt opts Hopt _ IH]; intros j; simpl; [done|].
  by rewrite IH, stdOption_params.
Qed.

Lemma searchOptions_std dedup exitMonitor searchDelay maxDepth :
  Forall stdOption (searchOptions dedup exitMonitor searchDelay maxDepth).
Proof.
  unfold searchOptions.
  repeat apply Forall_app_2;
    repeat match goal with
           | |- context [match ?x with _ => _ end] => destruct x
           end;
    repeat constructor.
Qed.

(** A job built on parameters just allocated. *)
Lemma NewSearchJob_allocated newID h p v opts :
  Forall stdOption opts ->
  exists j,
    NewSearchJob newID (setParams h p v) p opts
    = Some (setParams (setParams h p v) p (withViewport v), j)
    /\ params j = p /\ isSeed j.
Proof.
  intros Hopts.
  destruct (NewSearchJob newID (setParams h p v) p opts) as [[h' j]|] eqn:HN.
  - pose proof (NewSearchJob_seed _ _ _ _ _ _ Hopts HN) as Hseed.
    revert HN. unfold NewSearchJob, buildGoogleMapsParams. simpl paramsH.
    rewrite lookup_insert_eq. intros [= <- <-].
    eexists. split; [reflexivity|]. split; [|done].
    simpl. by rewrite stdOptions_params.
  - revert HN. unfold NewSearchJob, buildGoogleMapsParams. simpl paramsH.
    by rewrite lookup_insert_eq.
Qed.


Lemma cutGeo_plain query lat lon geo :
  Cut query "#!geo#" = None ->
  cutGeo query lat lon geo = mkQueryGeo query lat lon geo false.
Proof. unfold cutGeo. by intros ->. Qed.


(** What the loop body does with a non-empty query in direct-request
    mode. *)
Lemma seedJob_fast langCode maxDepth email geo zoom radius lat lon dedup
    exitMonitor extraReviews searchDelay newID h line :
  TrimSpace line <> ""%string ->
  let g := cutGeo (cutID (TrimSpace line)).1 lat lon geo in
  if hasPerQueryGeo g || negb (isZeroCoord lat lon)
  then exists h' j p,
      seedJob true langCode maxDepth email geo zoom radius lat lon dedup
        exitMonitor extraReviews searchDelay newID h line
      = Emit h' (SearchIJob j)
      /\ paramsH h' !! params j = Some p
      /\ Lat (Location p) = queryLat g
      /\ Lon (Location p) = queryLon g
      /\ Query p = qQuery g
  else seedJob true langCode maxDepth email geo zoom radius lat lon dedup
         exitMonitor extraReviews searchDelay newID h line
       = Skip.
Proof.
  intros Hq g. unfold seedJob.
  rewrite bool_decide_eq_false_2 by done.
  destruct (cutID (TrimSpace line)) as [query id] eqn:Ecut.
  simpl in g. fold g.
  destruct (hasPerQueryGeo g) eqn:Egeo; simpl.
  - set (v := mkMapSearchParams _ _ _ _ _).
    destruct (NewSearchJob_allocated newID h (fresh (dom (paramsH h))) v
                (searchOptions dedup exitMonitor searchDelay maxDepth)
                (searchOptions_std _ _ _ _)) as (j & -> & Hp & _).
    eexists _, j, (withViewport v). split; [reflexivity|].
    rewrite Hp. simpl. by rewrite lookup_insert_eq.
  - destruct (isZeroCoord lat lon) eqn:Ezero; simpl; [reflexivity|].
    set (v := mkMapSearchParams _ _ _ _ _).
    destruct (NewSearchJob_allocated newID h (fresh (dom (paramsH h))) v
                (searchOptions dedup exitMonitor searchDelay maxDepth)
                (searchOptions_std _ _ _ _)) as (j & -> & Hp & _).
    eexists _, j, (withViewport v). split; [reflexivity|].
    rewrite Hp. simpl. by rewrite lookup_insert_eq.
Qed.




End WithDecoder.

(** *** The seed builder on examples *)

Import Fixture.



End RunnerSpec.

(** ** Writer, merger and scheduling loop *)

Module WebrunnerSpec.

Import Gmaps GoStrings Webrunner WebrunnerInv GoIntFacts.

(** *** The run deadline *)




(** *** The rotating writer *)

Section Writer.

Context `{EntryAPI}.

Lemma rotate_ok w fs sampleData w' fs' :
  rotate w fs sampleData = (w', fs', None) ->
  let name := shardName (baseFileName w) (fileIndex w) in
  w' = mkWriter (baseFileName w) (limit w) 0 (GoInt.add (fileIndex w) 1)
         (Some name) (OnWrite w) (onWriteCalls w)
  /\ fs' = mkFS (<[name := mkFile true (headersFor sampleData) []]> (files fs))
             (denied fs).
Proof.
  unfold rotate, Create, headersFor.
  destruct (decide _) as [|Hok]; [done|].
  unfold writeHeader, writeBOM, onFile. simpl.
  rewrite !alter_insert_eq. simpl.
  destruct sampleData as [e|e|r|[|e es]|]; simpl; repeat ztest;
    intros [= <- <-]; rewrite ?alter_insert_eq; done.
Qed.






Lemma Close_inv w fs : writerInv w fs -> writerInv (Close w) fs.
Proof. intros [Hc Ho Hcap]. by constructor. Qed.




Lemma writeOne_appends w fs payload record path :
  currentFile w = Some path ->
  currentCount w < limit w ->
  recordOf payload = Some record ->
  writeOne w fs payload
  = (mkWriter (baseFileName w) (limit w) (GoInt.add (currentCount w) 1)
       (fileIndex w) (Some path) (OnWrite w)
       (if OnWrite w then onWriteCalls w + 1 else onWriteCalls w),
     writeRow record fs path, None).
Proof.
  intros Hpath Hlt Hrec. unfold writeOne. rewrite Hpath, Hrec.
  destruct (Z.leb_spec (limit w) (currentCount w)); [lia|]. by rewrite Hpath.
Qed.


End Writer.

(** *** The shard merger *)

Lemma filter_all {A} (P : A -> Prop) `{forall x, Decision (P x)} (l : list A) :
  Forall P l -> filter P l = l.
Proof.
  induction 1 as [|x l Hx _ IH]; [done|].
  rewrite filter_cons. by rewrite decide_True, IH.
Qed.


Lemma count_rows (rs : list row) (n : Z) :
  0 <= n -> n + Z.of_nat (length rs) <= GoInt.max_int ->
  foldl (fun k _ => GoInt.add k 1) n rs = n + Z.of_nat (length rs).
Proof.
  revert n. induction rs as [|r rs IH]; intros n Hn Hmax; simpl; [lia|].
  simpl length in Hmax.
  rewrite add_small
    by (unfold GoInt.in_range, GoInt.min_int, GoInt.max_int in *; lia).
  rewrite IH; lia.
Qed.


Lemma writeRows_lookup out rs : forall fs path,
  files (foldl (fun s r => writeRow r s out) fs rs) !! path
  = if decide (path = out)
    then (fun f => mkFile (bom f) (header f) (rows f ++ rs)) <$> files fs !! out
    else files fs !! path.
Proof.
  induction rs as [|r rs IH]; intros fs path; simpl.
  - case_decide; [subst|done].
    destruct (files fs !! out) as [[b h l]|]; simpl; by rewrite ?app_nil_r.
  - rewrite IH. unfold writeRow, onFile. simpl.
    case_decide; [subst|].
    + rewrite lookup_alter_eq.
      destruct (files fs !! out) as [f|]; simpl; [|done].
      by rewrite <- app_assoc.
    + by rewrite lookup_alter_ne.
Qed.

Lemma removeAll_lookup paths : forall fs path,
  files (foldl Remove fs paths) !! path
  = if decide (path ∈ paths) then None else files fs !! path.
Proof.
  induction paths as [|p paths IH]; intros fs path; cbn [foldl].
  - case_decide as Hin; [by apply elem_of_nil in Hin|done].
  - rewrite IH. unfold Remove. cbn [files].
    destruct (decide (path ∈ paths)) as [Hin|Hnin].
    + rewrite decide_True; [done|]. by apply list_elem_of_further.
    + destruct (decide (path = p)) as [->|Hne].
      * rewrite lookup_delete_eq. rewrite decide_True; [done|].
        apply list_elem_of_here.
      * rewrite lookup_delete_ne by done.
        rewrite decide_False; [done|].
        intros Hin. apply elem_of_cons in Hin as [?|?]; done.
Qed.

Lemma prefix_app a x y :
  String.prefix (a +:+ x) (a +:+ y) = String.prefix x y.
Proof.
  induction a as [|c a IH]; simpl; [done|].
  by destruct (Ascii.ascii_dec c c).
Qed.

(** The merged file is not one of the shards. *)
Lemma matchShard_output dataFolder jobID :
  matchShard dataFolder jobID (filepathJoin dataFolder (jobID +:+ ".csv"))
  = false.
Proof.
  unfold matchShard, filepathJoin.
  case_bool_decide.
  - rewrite prefix_app. reflexivity.
  - rewrite !prefix_app. reflexivity.
Qed.

Lemma elem_of_Glob fs dataFolder jobID path :
  path ∈ Glob fs dataFolder jobID
  <-> is_Some (files fs !! path) /\ matchShard dataFolder jobID path = true.
Proof.
  unfold Glob. rewrite list_elem_of_filter, list_elem_of_fmap. split.
  - intros [Hm ([p f] & -> & Hin)]. apply elem_of_map_to_list in Hin.
    split; [by eexists|done].
  - intros [[f Hf] Hm]. split; [done|].
    exists (path, f). split; [done|]. by apply elem_of_map_to_list.
Qed.

Lemma elem_of_sortStrings l x : x ∈ sortStrings l <-> x ∈ l.
Proof. unfold sortStrings. by rewrite merge_sort_Permutation. Qed.



(** *** Name order and index order

    The names of the shards 1 .. k are in ascending string order as long as
    every index has one digit. *)


Lemma length_app_string s t :
  String.length (s +:+ t) = (String.length s + String.length t)%nat.
Proof.
  induction s as [|c s IH]; [done|].
  change (S (String.length (s +:+ t)) = S (String.length s + String.length t)).
  by rewrite IH.
Qed.

Lemma app_inj_r t s1 : forall s2, s1 +:+ t = s2 +:+ t -> s1 = s2.
Proof.
  induction s1 as [|c s1 IH]; intros [|c2 s2] Heq.
  - done.
  - apply (f_equal String.length) in Heq.
    rewrite !length_app_string in Heq. simpl in Heq. lia.
  - apply (f_equal String.length) in Heq.
    rewrite !length_app_string in Heq. simpl in Heq. lia.
  - change (String c (s1 +:+ t) = String c2 (s2 +:+ t)) in Heq.
    injection Heq as -> Heq. f_equal. by apply IH.
Qed.

Lemma shardName_inj base i j : shardName base i = shardName base j -> i = j.
Proof.
  unfold shardName. intros Heq.
  apply (inj (String.app base)), (inj (String.app "_")) in Heq.
  apply app_inj_r in Heq. by apply (inj pretty) in Heq.
Qed.






(** Without any shard the merger returns 0 and no error, and touches no
    file. *)
Lemma merge_no_shard fs dataFolder jobID :
  Glob fs dataFolder jobID = [] ->
  mergeCSVFiles fs dataFolder jobID = (fs, 0, None).
Proof. unfold mergeCSVFiles. by intros ->. Qed.

(** *** The scheduling loop *)

Section Loop.

Context `{Services}.

(** C10.  A run without keywords is marked working and then failed, and
    [scrapeJob] returns: no writer is made, the files are untouched and the
    merger is not run.  (When the storage refuses the first update,
    [scrapeJob] returns that error with the run still marked working.) *)
Theorem empty_run_fails cfg uuid w job :
  Web.Keywords (Web.Data job) = [] ->
  exists w' job' err,
    scrapeJob cfg uuid w job = Returned w' job' err
    /\ disk w' = disk w /\ store w' = store w /\ inflight w' = inflight w
    /\ match updateErr (Web.withStatus job Web.StatusWorking) with
       | None =>
           job' = Web.withStatus job Web.StatusFailed
           /\ events w'
              = events w ++ [EvUpdate Web.StatusWorking (Web.Count job);
                             EvUpdate Web.StatusFailed (Web.Count job)]
           /\ err = updateErr (Web.withStatus job Web.StatusFailed)
           /\ (err = None -> repo w' !! Web.ID job = Some job')
       | Some e =>
           job' = Web.withStatus job Web.StatusWorking
           /\ events w' = events w ++ [EvUpdate Web.StatusWorking (Web.Count job)]
           /\ err = Some e
       end.
Proof.
  intros Hkw. unfold scrapeJob, svcUpdate. simpl.
  destruct (updateErr (Web.withStatus job Web.StatusWorking)) as [e|] eqn:Eupd.
  - eexists _, _, _. split; [reflexivity|]. simpl. by repeat split.
  - rewrite Hkw. simpl.
    change (Web.withStatus (Web.withStatus job Web.StatusWorking)
              Web.StatusFailed)
      with (Web.withStatus job Web.StatusFailed).
    destruct (updateErr (Web.withStatus job Web.StatusFailed)) as [e|] eqn:Efail.
    + eexists _, _, _. split; [reflexivity|]. simpl.
      repeat split; try done. by rewrite <- app_assoc.
    + eexists _, _, _. split; [reflexivity|]. simpl.
      repeat split; try done; [by rewrite <- app_assoc|].
      intros _. by rewrite lookup_insert_eq.
Qed.

(** The common tail of a run: what [finalize] does. *)
Lemma finalize_spec cfg cancel w0 job0 :
  let merged := mergeCSVFiles (disk w0) (DataFolder cfg) (Web.ID job0) in
  let final := Web.withStatus (Web.withCount job0 merged.1.2) Web.StatusOK in
  exists w',
    finalize cfg cancel w0 job0 = Returned w' final (updateErr final)
    /\ events w'
       = events w0
         ++ [EvWriterClose; EvCountWait; EvMerge merged.1.2;
             EvUpdate Web.StatusOK merged.1.2]
         ++ (if cancel then [EvCancel] else [])
         ++ [EvWriterClose; EvMateClose]
    /\ inflight w' = 0
    /\ disk w' = merged.1.1
    /\ (updateErr final = None -> repo w' !! Web.ID job0 = Some final).
Proof.
  intros merged final. subst final merged.
  unfold finalize, countWait. simpl.
  destruct (mergeCSVFiles (disk w0) (DataFolder cfg) (Web.ID job0))
    as [[mfs n] mergeErr].
  simpl. unfold svcUpdate. simpl.
  destruct (updateErr _) as [e|] eqn:Efin; destruct cancel; simpl;
    (eexists; split; [reflexivity|]); simpl; rewrite <- !app_assoc; simpl;
    repeat split; try done; intros _; by rewrite lookup_insert_eq.
Qed.

(** C7.  Once the dispatch run has started, how it ended decides the
    status.  With no error, a deadline-exceeded or a cancellation error,
    [scrapeJob] closes the writer, waits for the count updates in flight,
    merges the shards, records the merged row count and marks the run ok.
    With any other error it marks the run failed and returns the error
    without merging. *)
Theorem deadline_is_not_failure cfg uuid w job h seedJobs results startErr :
  updateErr (Web.withStatus job Web.StatusWorking) = None ->
  Web.Keywords (Web.Data job) <> [] ->
  setupMateErr (Web.withStatus job Web.StatusWorking) = None ->
  createSeeds cfg uuid (store w) (Web.Data job) = Some (h, seedJobs, None) ->
  seedJobs <> [] ->
  let allowed :=
    allowedSeconds (Z.of_nat (length seedJobs)) (Web.FastMode (Web.Data job))
      (Web.Depth (Web.Data job)) (Concurrency cfg)
      (Web.MaxTime (Web.Data job)) in
  mateStart allowed seedJobs = (results, startErr) ->
  let baseName := filepathJoin (DataFolder cfg) (Web.ID job) in
  let ran := Run (runWriter baseName) (disk w) results in
  let merged := mergeCSVFiles ran.1.2 (DataFolder cfg) (Web.ID job) in
  let actualCount := merged.1.2 in
  let started :=
    events w ++ [EvUpdate Web.StatusWorking (Web.Count job);
                 EvNewWriter baseName 50000; EvSetupMate;
                 EvStart allowed (length seedJobs); EvCancel] in
  match startErr with
  | Some (OtherErr e) =>
      exists w',
        scrapeJob cfg uuid w job
        = Returned w' (Web.withStatus job Web.StatusFailed) (Some e)
        /\ events w'
           = started ++ [EvUpdate Web.StatusFailed (Web.Count job);
                         EvCancel; EvWriterClose; EvMateClose]
  | _ =>
      let final :=
        Web.withStatus (Web.withCount job actualCount) Web.StatusOK in
      exists w',
        scrapeJob cfg uuid w job = Returned w' final (updateErr final)
        /\ events w'
           = started ++ [EvWriterClose; EvCountWait; EvMerge actualCount;
                         EvUpdate Web.StatusOK actualCount;
                         EvCancel; EvWriterClose; EvMateClose]
        /\ inflight w' = 0
        /\ disk w' = merged.1.1
        /\ (updateErr final = None -> repo w' !! Web.ID job = Some final)
  end.
Proof.
  intros Hupd Hkw Hsetup Hseeds Hne allowed Hstart baseName ran merged
    actualCount started.
  assert (Hlen : (Z.of_nat (length (Web.Keywords (Web.Data job))) =? 0) = false).
  { destruct (Web.Keywords (Web.Data job)); [done|]. simpl length.
    apply Z.eqb_neq. lia. }
  assert (Hpos : (0 <? Z.of_nat (length seedJobs)) = true).
  { destruct seedJobs; [done|]. simpl length. apply Z.ltb_lt. lia. }
  subst started actualCount merged ran.
  destruct startErr as [[| |e]|].
  all: unfold scrapeJob; unfold svcUpdate at 1; rewrite Hupd; simpl.
  all: rewrite Hlen, Hsetup; simpl; rewrite Hseeds; simpl; rewrite Hpos.
  all: fold allowed; rewrite Hstart; fold baseName.
  all: destruct (Run (runWriter baseName) (disk w) results)
         as [[rw fs] runErr]; simpl.
  1, 2, 4:
    match goal with
    | |- exists w', finalize ?c ?b ?w0 ?j0 = _ /\ _ =>
        destruct (finalize_spec c b w0 j0) as (w' & Hret & Hev & Hin & Hdisk & Hrepo)
    end;
    exists w'; simpl in *;
    (split; [exact Hret|]); (split; [|by repeat split]);
    rewrite Hev, <- !app_assoc; reflexivity.
  unfold svcUpdate. simpl.
  change (Web.withStatus (Web.withStatus job Web.StatusWorking)
            Web.StatusFailed)
    with (Web.withStatus job Web.StatusFailed).
  destruct (updateErr (Web.withStatus job Web.StatusFailed));
    (eexists; split; [reflexivity|]); simpl; by rewrite <- !app_assoc.
Qed.

End Loop.

(** *** Writer, merger and loop on examples *)

Import Fixture.

Lemma empty_run_fails_witness :
  exists w',
    scrapeJob demoConfig demoUUID emptyWorld emptyRun
    = Returned w' (Web.withStatus emptyRun Web.StatusFailed) None
    /\ events w' = [EvUpdate Web.StatusWorking 0; EvUpdate Web.StatusFailed 0]
    /\ disk w' = emptyFS.
Proof.
  destruct (empty_run_fails demoConfig demoUUID emptyWorld emptyRun eq_refl)
    as (w' & job' & err & Hret & Hdisk & _ & _ & Hcase).
  cbn in Hcase. destruct Hcase as (-> & Hev & -> & _).
  exists w'. split; [exact Hret|]. split; [exact Hev|exact Hdisk].
Defined.

Lemma demoSeeds_ok :
  createSeeds demoConfig demoUUID (store emptyWorld) (Web.Data coffeeRunJob)
  = Some (demoSeedHeap, demoSeedJobs, None)
  /\ demoSeedJobs <> [].
Proof.
  assert (Hok : seedsOk demoSeeds = true) by (vm_compute; reflexivity).
  unfold demoSeedHeap, demoSeedJobs.
  change (createSeeds demoConfig demoUUID (store emptyWorld)
            (Web.Data coffeeRunJob)) with demoSeeds.
  destruct demoSeeds as [[[h [|j jobs]] [e|]]|]; try discriminate. done.
Qed.

Lemma deadline_is_not_failure_witness :
  exists w' final,
    scrapeJob demoConfig demoUUID emptyWorld coffeeRunJob
    = Returned w' final None
    /\ Web.Status final = Web.StatusOK
    /\ Web.Count final = 3
    /\ inflight w' = 0.
Proof.
  destruct demoSeeds_ok as [Hseeds Hne].
  pose proof (deadline_is_not_failure demoConfig demoUUID emptyWorld
                coffeeRunJob demoSeedHeap demoSeedJobs
                [Result (PEntries threeListings)] (Some DeadlineExceeded)
                eq_refl ltac:(discriminate) eq_refl Hseeds Hne eq_refl)
    as Hthm.
  cbv beta iota zeta in Hthm.
  destruct Hthm as (w' & Hret & _ & Hin & _).
  eexists w', _. split; [exact Hret|].
  split; [reflexivity|]. split; [|exact Hin].
  vm_compute. reflexivity.
Defined.



(** C1, at ten shards.  The shards [job_1.csv] .. [job_10.csv] hold one
    data row each, [c1] .. [c10].  The merger returns the count 10, writes
    one header and removes the shards, but the data rows come out in the
    order of the file names as strings: shard 10 before shard 2. *)
Theorem merge_ten_shards_order :
  outline <$> files tenShards !! "data/job_2.csv"%string
  = Some (Some ["cid"; "title"; "address"], ["c2"])%string
  /\ outline <$> files tenShards !! "data/job_10.csv"%string
     = Some (Some ["cid"; "title"; "address"], ["c10"])%string
  /\ mergedTen.1.2 = 10
  /\ mergedTen.2 = None
  /\ outline <$> files mergedTen.1.1 !! "data/job.csv"%string
     = Some (Some ["cid"; "title"; "address"],
             ["c1"; "c10"; "c2"; "c3"; "c4"; "c5"; "c6"; "c7"; "c8"; "c9"])%string
  /\ rowCounts mergedTen.1.1 = [("data/job.csv"%string, 10%nat)].
Proof. vm_compute. repeat split; reflexivity. Qed.

End WebrunnerSpec.

(** ** Deduplication, failure and the pages of a query *)

Module GmapsRunSpec.

Import Gmaps GmapsInv GoIntFacts GmapsSpec GmapsRun.

Section WithDecoder.

Context `{EntryAPI}.

(** The deduplication loop keeps the first entry of every key that is not
    empty and was not seen, and records the keys it met. *)
Lemma dedupLoop_spec es : forall s s' out,
  dedupLoop s es = (s', out) ->
  out `sublist_of` es
  /\ NoDup (dedupKey <$> out)
  /\ (forall e, e ∈ out -> dedupKey e <> ""%string /\ dedupKey e ∉ s)
  /\ (forall k, k ∈ s' <-> k ∈ s \/ (k <> ""%string /\ k ∈ dedupKey <$> es))
  /\ (forall e, e ∈ es -> dedupKey e <> ""%string -> dedupKey e ∉ s ->
        dedupKey e ∈ dedupKey <$> out).
Proof.
  induction es as [|e es IH]; intros s s' out Hloop; simpl in Hloop.
  - injection Hloop as <- <-.
    split; [done|]. split; [constructor|].
    split; [intros e He; by apply elem_of_nil in He|].
    split; [|intros e He; by apply elem_of_nil in He].
    intros k. rewrite fmap_nil. split; [by left|]. intros [?|[_ Hk]]; [done|by apply elem_of_nil in Hk].
  - destruct (decide (dedupKey e = ""%string)) as [Hk|Hk].
    + destruct (IH _ _ _ Hloop) as (Hsub & Hnd & Hnew & Hs & Hall).
      split; [by apply sublist_cons|]. split; [done|]. split; [done|].
      split.
      * intros k. rewrite Hs, fmap_cons, elem_of_cons.
        intuition congruence.
      * intros e' He' Hne Hfresh.
        apply elem_of_cons in He' as [->|He']; [done|]. by apply Hall.
    + unfold AddIfNotExists in Hloop.
      destruct (decide (dedupKey e ∈ s)) as [Hin|Hnin].
      * destruct (dedupLoop s es) as [s2 unique] eqn:Erest.
        injection Hloop as <- <-.
        destruct (IH _ _ _ Erest) as (Hsub & Hnd & Hnew & Hs & Hall).
        split; [by apply sublist_cons|]. split; [done|]. split; [done|].
        split.
        -- intros k. rewrite Hs, fmap_cons, elem_of_cons.
           intuition (subst; auto).
        -- intros e' He' Hne Hfresh.
           apply elem_of_cons in He' as [->|He']; [done|]. by apply Hall.
      * destruct (dedupLoop ({[dedupKey e]} ∪ s) es) as [s2 unique] eqn:Erest.
        injection Hloop as <- <-.
        destruct (IH _ _ _ Erest) as (Hsub & Hnd & Hnew & Hs & Hall).
        split; [by apply sublist_skip|].
        split.
        { rewrite fmap_cons. apply NoDup_cons. split; [|done].
          intros Hdup. apply list_elem_of_fmap in Hdup as (e' & Heq & He').
          destruct (Hnew e' He') as [_ Hfresh]. rewrite <- Heq in Hfresh.
          apply Hfresh, elem_of_union_l, elem_of_singleton. reflexivity. }
        split.
        { intros e' He'. apply elem_of_cons in He' as [->|He']; [done|].
          destruct (Hnew e' He') as [Hne Hfresh]. split; [done|]. intros Hc. apply Hfresh, elem_of_union_r, Hc. }
        split.
        -- intros k.
           rewrite Hs, fmap_cons, elem_of_cons, elem_of_union,
             elem_of_singleton.
           intuition (subst; auto).
        -- intros e' He' Hne Hfresh. rewrite fmap_cons.
           destruct (decide (dedupKey e' = dedupKey e)) as [->|Hdiff];
             [by apply list_elem_of_here|].
           apply list_elem_of_further.
           apply elem_of_cons in He' as [->|He']; [done|].
           apply Hall; [done..|]. rewrite elem_of_union, elem_of_singleton.
           by intros [?|?].
Qed.

Lemma notifyOpt_dedupH h m e : dedupH (notifyOpt h m e) = dedupH h.
Proof. by destruct m. Qed.

Lemma notifyAll_frame m (l : list ExitCall) : forall h,
  dedupH (foldl (fun hh e => notifyOpt hh m e) h l) = dedupH h
  /\ paramsH (foldl (fun hh e => notifyOpt hh m e) h l) = paramsH h.
Proof.
  induction l as [|e l IH]; intros h; [done|]. simpl.
  destruct (IH (notifyOpt h m e)) as [-> ->].
  by rewrite notifyOpt_dedupH, notifyOpt_paramsH.
Qed.

(** A page that does not succeed leaves the store as it was. *)
Lemma Process_not_done j newID h body h' o :
  Process j newID h body = (h', o) ->
  (forall es next, o <> Done es next) -> h' = h.
Proof.
  unfold Process. ztest; [by intros [= <- _]|].
  destruct (ParseSearchResults _) as [decoded|msg]; [|by intros [= <- _]].
  destruct (paramsH h !! params j) as [p|] eqn:Ep; [|by intros [= <- _]].
  destruct (dedupEntries _ _ _) as [h1 es] eqn:Ededup.
  apply dedupEntries_exitH in Ededup as [_ Hpar].
  destruct (wantsNextPage j _).
  - unfold buildGoogleMapsParams. rewrite Hpar, Ep.
    intros [= _ <-] Hno. exfalso. eapply Hno. reflexivity.
  - intros [= _ <-] Hno. exfalso. eapply Hno. reflexivity.
Qed.

Lemma Process_empty j newID h body :
  removeFirstLine body = [] ->
  Process j newID h body = (h, Failed "empty response body").
Proof. unfold Process. by intros ->. Qed.

Lemma Process_undecoded j newID h body e :
  removeFirstLine body <> [] ->
  ParseSearchResults (removeFirstLine body) = Err e ->
  Process j newID h body
  = (h, Failed ("failed to parse search results: " +:+ e)).
Proof.
  unfold Process. intros Hne ->.
  destruct (removeFirstLine body); [done|]. by ztest.
Qed.

(** The store a page that succeeded leaves: the deduper's keys are those
    of the deduplication, and the parameters are touched by the request
    builder only. *)
Lemma Process_store j newID h body h' entries next :
  Process j newID h body = (h', Done entries next) ->
  exists decoded p h1,
    ParseSearchResults (removeFirstLine body) = Ok decoded
    /\ paramsH h !! params j = Some p
    /\ dedupEntries h (Deduper j) (keptOf p decoded) = (h1, entries)
    /\ dedupH h' = dedupH h1
    /\ (paramsH h' = paramsH h
        \/ paramsH h' = <[params j := withViewport p]> (paramsH h)).
Proof.
  intros Hrun.
  apply Process_Done in Hrun
    as (decoded & p & h1 & _ & Hparse & Hp & Hdedup & Hfin).
  exists decoded, p, h1. repeat (split; [done|]).
  pose proof (dedupEntries_exitH _ _ _ _ _ Hdedup) as [_ Hpar].
  cbv zeta in Hfin. destruct (wantsNextPage j _).
  - destruct Hfin as (hb & u & Hb & _ & ->).
    apply buildGoogleMapsParams_exitH in Hb as (_ & Hbd & v & Hv & Hbp).
    rewrite !(proj1 (notifyAll_frame _ _ _)), !(proj2 (notifyAll_frame _ _ _)).
    rewrite notifyOpt_dedupH, notifyOpt_paramsH. split; [done|].
    right. rewrite Hpar in Hv, Hbp. by simplify_eq.
  - destruct Hfin as [_ ->].
    rewrite !(proj1 (notifyAll_frame _ _ _)), !(proj2 (notifyAll_frame _ _ _)).
    auto.
Qed.

Lemma seen_setSeen h d s d' :
  seen (setSeen h d s) d' = if decide (d' = d) then s else seen h d'.
Proof.
  unfold seen. simpl. destruct (decide (d' = d)) as [->|Hne].
  - by rewrite lookup_insert_eq.
  - by rewrite lookup_insert_ne.
Qed.

Lemma seen_dedupH h h' d : dedupH h' = dedupH h -> seen h' d = seen h d.
Proof. unfold seen. by intros ->. Qed.

(** The keys a deduper has seen are never forgotten. *)
Lemma Process_seen_mono j newID h body d :
  seen h d ⊆ seen (Process j newID h body).1 d.
Proof.
  destruct (Process j newID h body) as [h' o] eqn:Erun. simpl.
  destruct o as [|msg|entries next].
  - by rewrite (Process_not_done _ _ _ _ _ _ Erun).
  - by rewrite (Process_not_done _ _ _ _ _ _ Erun).
  - apply Process_store in Erun
      as (decoded & p & h1 & _ & _ & Hdedup & Hh' & _).
    rewrite (seen_dedupH _ _ _ Hh').
    unfold dedupEntries in Hdedup. destruct (Deduper j) as [d0|].
    + destruct (dedupLoop _ _) as [s out] eqn:Eloop.
      injection Hdedup as <- _. rewrite seen_setSeen.
      destruct (decide (d = d0)) as [->|_]; [|done].
      apply dedupLoop_spec in Eloop as (_ & _ & _ & Hs & _).
      intros k Hk. apply Hs. by left.
    + by injection Hdedup as <- _.
Qed.

(** A page run through a deduper returns entries of distinct keys that
    the deduper had not seen and has seen now. *)
Lemma Process_keys j newID h body h' entries next d :
  Deduper j = Some d ->
  Process j newID h body = (h', Done entries next) ->
  NoDup (dedupKey <$> entries)
  /\ (forall e, e ∈ entries ->
        dedupKey e <> ""%string
        /\ (dedupKey e ∉ seen h d) /\ dedupKey e ∈ seen h' d).
Proof.
  intros Hd Hrun.
  apply Process_store in Hrun as (decoded & p & h1 & _ & _ & Hdedup & Hh' & _).
  rewrite Hd in Hdedup. unfold dedupEntries in Hdedup.
  destruct (dedupLoop _ _) as [s out] eqn:Eloop.
  injection Hdedup as <- <-.
  apply dedupLoop_spec in Eloop as (Hsub & Hnd & Hnew & Hs & _).
  split; [done|]. intros e He. destruct (Hnew e He) as [Hne Hfresh].
  repeat (split; [done|]).
  rewrite (seen_dedupH _ _ _ Hh'), seen_setSeen, decide_True by done.
  apply Hs. right. split; [done|].
  apply list_elem_of_fmap. exists e. split; [done|].
  by eapply elem_of_sublist.
Qed.


(** X2.  Over the pages of a run that share a deduper, no key is returned
    twice: the entries returned have pairwise distinct keys, none empty,
    none seen before the run, and the deduper forgets nothing. *)
Theorem run_no_duplicates pages : forall h h' es d,
  Forall (fun page => Deduper page.1.1 = Some d) pages ->
  processAll h pages = (h', es) ->
  NoDup (dedupKey <$> es)
  /\ (forall e, e ∈ es -> dedupKey e <> ""%string /\ dedupKey e ∉ seen h d)
  /\ seen h d ⊆ seen h' d.
Proof.
  induction pages as [|[[j newID] body] rest IH]; intros h h' es d Hd Hrun;
    simpl in Hrun.
  - injection Hrun as <- <-. split; [constructor|]. split; [|done].
    intros e He. by apply elem_of_nil in He.
  - apply Forall_cons in Hd as [Hj Hrest]. simpl in Hj.
    pose proof (Process_seen_mono j newID h body d) as Hmono.
    destruct (Process j newID h body) as [h1 o] eqn:Epage.
    destruct (processAll h1 rest) as [h2 es'] eqn:Erest.
    injection Hrun as <- <-. simpl in Hmono.
    destruct (IH _ _ _ _ Hrest Erest) as (Hnd & Hnew & Hsub).
    assert (Hold : forall e, e ∈ es' ->
                     dedupKey e <> ""%string /\ dedupKey e ∉ seen h d).
    { intros e He. destruct (Hnew e He) as [Hne Hfresh].
      split; [done|]. intros Hin. by apply Hfresh, Hmono. }
    assert (Hgrow : seen h d ⊆ seen h2 d) by (by etrans).
    destruct o as [|msg|entries next]; [done..|].
    destruct (Process_keys _ _ _ _ _ _ _ _ Hj Epage) as [Hnd1 Hkeys].
    split; [|split; [|done]].
    + rewrite fmap_app. apply NoDup_app. split; [done|]. split; [|done].
      intros k Hk Hk'.
      apply list_elem_of_fmap in Hk as (e & -> & He).
      apply list_elem_of_fmap in Hk' as (e' & Heq & He').
      destruct (Hkeys e He) as (_ & _ & Hseen).
      destruct (Hnew e' He') as [_ Hfresh]. rewrite <- Heq in Hfresh. done.
    + intros e He. apply elem_of_app in He as [He|He]; [|by apply Hold].
      destruct (Hkeys e He) as (? & ? & _). done.
Qed.

(** X3.  A page that fails leaves the store as it was, and fails for one of
    two reasons: nothing is left after the first line, or the remainder
    does not decode. *)
Theorem failed_page_changes_nothing j newID h body h' msg :
  Process j newID h body = (h', Failed msg) ->
  h' = h
  /\ (removeFirstLine body = [] /\ msg = "empty response body"%string
      \/ exists e,
           removeFirstLine body <> []
           /\ ParseSearchResults (removeFirstLine body) = Err e
           /\ msg = ("failed to parse search results: " +:+ e)%string).
Proof.
  intros Hrun. split; [by apply (Process_not_done _ _ _ _ _ _ Hrun)|].
  destruct (removeFirstLine body) as [|b0 rest] eqn:Ebody.
  - rewrite (Process_empty _ _ _ _ Ebody) in Hrun. left. by simplify_eq.
  - right. destruct (ParseSearchResults (removeFirstLine body)) as [decoded|e] eqn:Eparse.
    + exfalso. revert Hrun. unfold Process. rewrite Ebody in *. rewrite Eparse.
      ztest; [simpl length in *; lia|].
      destruct (paramsH h !! params j); [|done].
      destruct (dedupEntries _ _ _) as [h1 es].
      destruct (wantsNextPage j _); [|done].
      by destruct (buildGoogleMapsParams _ _ _) as [[hb u]|].
    + exists e. rewrite Ebody in Eparse. split; [done|]. split; [done|].
      rewrite (Process_undecoded _ _ _ _ e) in Hrun; [by simplify_eq|..];
        by rewrite Ebody.
Qed.

Lemma notifyOpt_exitH h m0 e m :
  m0 <> Some m -> exitH (notifyOpt h m0 e) !! m = exitH h !! m.
Proof.
  destruct m0 as [l|]; [|done]. intros Hne. simpl.
  apply lookup_insert_ne. congruence.
Qed.

Lemma notifyAll_exitH m0 m (l : list ExitCall) : forall h,
  m0 <> Some m ->
  exitH (foldl (fun hh e => notifyOpt hh m0 e) h l) !! m = exitH h !! m.
Proof.
  induction l as [|e l IH]; intros h Hne; [done|]. simpl.
  by rewrite IH, notifyOpt_exitH.
Qed.

Lemma withViewport_idemp v : withViewport (withViewport v) = withViewport v.
Proof. done. Qed.

(** X4.  [Process] touches what its job points to and nothing else: the
    parameters of other queries, the keys of other dedupers and the logs of
    other monitors stay; of its own parameters only the viewport can
    change. *)
Theorem process_frame j newID h body h' o :
  Process j newID h body = (h', o) ->
  (forall q, q <> params j -> paramsH h' !! q = paramsH h !! q)
  /\ withViewport <$> paramsH h' !! params j
     = withViewport <$> paramsH h !! params j
  /\ (forall d, Deduper j <> Some d -> dedupH h' !! d = dedupH h !! d)
  /\ (forall m, ExitMonitor j <> Some m -> exitH h' !! m = exitH h !! m).
Proof.
  intros Hrun. destruct o as [|msg|entries next];
    try (rewrite (Process_not_done _ _ _ _ _ _ Hrun); done).
  pose proof (Process_store _ _ _ _ _ _ _ Hrun)
    as (decoded & p & h1 & _ & Hp & Hdedup & Hh' & Hpar).
  split; [|split; [|split]].
  - intros q Hq. destruct Hpar as [->| ->]; [done|].
    by rewrite lookup_insert_ne.
  - destruct Hpar as [->| ->]; [done|].
    by rewrite lookup_insert_eq, Hp.
  - intros d Hd. rewrite Hh'. unfold dedupEntries in Hdedup.
    destruct (Deduper j) as [d0|]; [|by injection Hdedup as <- _].
    destruct (dedupLoop _ _) as [s out]. injection Hdedup as <- _. simpl.
    apply lookup_insert_ne. congruence.
  - intros m Hm.
    apply Process_Done in Hrun as (? & ? & h1' & _ & _ & _ & Hd' & Hfin).
    apply dedupEntries_exitH in Hd' as [Hex _].
    cbv zeta in Hfin. destruct (wantsNextPage j _).
    + destruct Hfin as (hb & u & Hb & _ & ->).
      apply buildGoogleMapsParams_exitH in Hb as (Hbe & _).
      by rewrite notifyAll_exitH, notifyOpt_exitH, Hbe, Hex.
    + destruct Hfin as [_ ->]. by rewrite notifyAll_exitH, Hex.
Qed.

(** X5.  Along the pages of a query, the job of the [i]-th page after [j] is
    page [pageNum j + i] at offset [(pageNum j + i) * resultsPerPage], its
    priority number that of [j] plus [i]; it shares the parameters, the deduper, the monitor and the
    page limit of [j], and is processed on the [i]-th response. *)
Theorem chain_page_numbers resps : forall j h i ji b,
  wfJob j ->
  chain j h resps !! i = Some (ji, b) ->
  pageNum ji = pageNum j + Z.of_nat i
  /\ offset ji = (pageNum j + Z.of_nat i) * resultsPerPage
  /\ Priority (job ji) = Priority (job j) + Z.of_nat i
  /\ params ji = params j
  /\ Deduper ji = Deduper j
  /\ ExitMonitor ji = ExitMonitor j
  /\ maxPages ji = maxPages j
  /\ resps.*2 !! i = Some b.
Proof.
  induction resps as [|[newID body] rest IH]; intros j h i ji b Hj Hi;
    [done|].
  destruct i as [|i].
  - assert ((j, body) = (ji, b)) as [= <- <-].
    { simpl in Hi.
      destruct (Process j newID h body) as [h' [| |? [|? ?]]];
        simpl in Hi; congruence. }
    destruct Hj as [_ _ Ho _]. rewrite Ho.
    repeat split; try done; simpl; lia.
  - simpl in Hi. destruct (Process j newID h body) as [h' o] eqn:Erun.
    destruct o as [| |entries [|child more]]; simpl in Hi; try done.
    destruct (Process_next_shape _ _ _ _ _ _ _ Hj Erun)
      as [|(u & [= -> ->] & Hlt)]; [done|].
    destruct (IH _ _ _ _ _ (child_wf j newID u Hj Hlt) Hi)
      as (Hp & Ho & Hpr & Hpar & Hd & Hm & Hmax & Hb).
    simpl in Hp, Ho, Hpr, Hpar, Hd, Hm, Hmax.
    rewrite (wf_nextPage j Hj) in Hp, Ho.
    rewrite (wf_nextPrio j Hj) in Hpr.
    repeat split; try done; try lia.
Qed.

(** *** The counters of the exit monitor along a query *)

Lemma Process_calls j newID h body h' entries next m :
  ExitMonitor j = Some m ->
  Process j newID h body = (h', Done entries next) ->
  calls h' m
  = calls h m
    ++ (match next with [] => [] | _ => [IncrPlacesFound 1] end)
    ++ report j (Z.of_nat (length entries)).
Proof.
  intros Hm HP.
  apply Process_Done in HP
    as (decoded & p & h1 & Hbody & Hparse & Hp & Hdedup & Hnext).
  apply dedupEntries_exitH in Hdedup as [Hex1 _].
  rewrite Hm in Hnext. cbv zeta in Hnext. destruct (wantsNextPage j _).
  - destruct Hnext as (hb & u & Hb & -> & ->).
    apply buildGoogleMapsParams_exitH in Hb as (Hexb & _).
    rewrite calls_report. simpl notifyOpt. rewrite calls_notify.
    rewrite (calls_exitH h hb m) by congruence.
    by rewrite <- app_assoc.
  - destruct Hnext as [-> ->].
    by rewrite calls_report, (calls_exitH h h1 m).
Qed.

(** One page: the seed or the place it stands for is completed, the
    entries it returns are found and completed, and the job it emits is
    found. *)
Lemma Process_counters j newID h body h' entries next m :
  ExitMonitor j = Some m ->
  Process j newID h body = (h', Done entries next) ->
  let c := countersOf (calls h m) in
  let c' := countersOf (calls h' m) in
  seedsTotal c' = seedsTotal c
  /\ seedsCompleted c'
     = seedsCompleted c + (if pageNum j =? 0 then 1 else 0)
  /\ outstanding c'
     = outstanding c + (match next with [] => 0 | _ => 1 end)
       - (if pageNum j =? 0 then 0 else 1).
Proof.
  intros Hm HP c c'. subst c c'.
  rewrite (Process_calls _ _ _ _ _ _ _ _ Hm HP), !countersOf_app.
  unfold report, outstanding.
  destruct next as [|child more]; destruct (pageNum j =? 0); simpl;
    repeat split; lia.
Qed.

(** X6.  Along the pages of a query the counters balance when, and only
    when, the query is finished: the seed is then completed and no place
    is left outstanding on its account.  While a continuation is pending,
    or after one failed, one place stays outstanding. *)
Theorem chain_counters resps : forall j h h' finished m,
  wfJob j ->
  ExitMonitor j = Some m ->
  chainStore j h resps = (h', finished) ->
  let c := countersOf (calls h m) in
  let c' := countersOf (calls h' m) in
  let first := if pageNum j =? 0 then 1 else 0 in
  seedsTotal c' = seedsTotal c
  /\ if finished
     then seedsCompleted c' = seedsCompleted c + first
          /\ outstanding c' = outstanding c - (1 - first)
     else calls h' m = calls h m
          \/ (seedsCompleted c' = seedsCompleted c + first
              /\ outstanding c' = outstanding c + first).
Proof.
  induction resps as [|[newID body] rest IH];
    intros j h h' finished m Hj Hm Hrun; simpl in Hrun.
  - injection Hrun as <- <-. cbv zeta. split; [done|]. by left.
  - destruct (Process j newID h body) as [h1 o] eqn:Epage.
    destruct o as [|msg|entries next].
    + injection Hrun as <- <-.
      rewrite (Process_not_done _ _ _ _ _ _ Epage) by done.
      cbv zeta. split; [done|]. by left.
    + injection Hrun as <- <-.
      rewrite (Process_not_done _ _ _ _ _ _ Epage) by done.
      cbv zeta. split; [done|]. by left.
    + pose proof (Process_counters _ _ _ _ _ _ _ _ Hm Epage)
        as (Htot & Hseed & Hout).
      destruct next as [|child more].
      * injection Hrun as <- <-. cbv zeta. split; [done|].
        split; [done|]. rewrite Hout. destruct (pageNum j =? 0); lia.
      * destruct (Process_next_shape _ _ _ _ _ _ _ Hj Epage)
          as [|(u & [= -> ->] & Hlt)]; [done|].
        pose proof (child_wf j newID u Hj Hlt) as Hchild.
        destruct (IH _ _ _ _ m Hchild Hm Hrun) as [Htot' Hrest].
        assert (Hpage : (pageNum (nextJobOf j newID u) =? 0) = false).
        { simpl. rewrite (wf_nextPage j Hj). destruct Hj as [[? _] _ _ _].
          apply Z.eqb_neq. lia. }
        rewrite Hpage in Hrest. cbv zeta.
        split; [by rewrite Htot', Htot|].
        destruct finished.
        -- destruct Hrest as [Hs Ho]. rewrite Hs, Ho, Hseed, Hout.
           destruct (pageNum j =? 0); lia.
        -- right. destruct Hrest as [Hsame|[Hs Ho]].
           ++ rewrite Hsame, Hseed, Hout. destruct (pageNum j =? 0); lia.
           ++ rewrite Hs, Ho, Hseed, Hout. destruct (pageNum j =? 0); lia.
Qed.

End WithDecoder.

End GmapsRunSpec.

(** *** The theorems at work on the three-page query *)

Module GmapsRunExamples.

Import Gmaps GmapsInv GmapsSpec GmapsRun GmapsRunSpec Fixture Scenario.


Lemma run_no_duplicates_witness :
  NoDup (dedupKey <$> (processAll coffeeHeap twicePages).2)
  /\ length (processAll coffeeHeap twicePages).2 = 20%nat.
Proof.
  split; [|vm_compute; reflexivity].
  assert (Hd : Forall (fun page : SearchJob * string * list byte =>
                         Deduper page.1.1 = Some 1%positive) twicePages)
    by (repeat constructor).
  exact (proj1 (run_no_duplicates twicePages coffeeHeap _ _ 1%positive Hd
                  (surjective_pairing _))).
Defined.

Lemma failed_page_changes_nothing_witness :
  Process coffeeJob "id1" coffeeHeap prefixOnly
  = (coffeeHeap, Failed "empty response body").
Proof.
  assert (Hrun : Process coffeeJob "id1" coffeeHeap prefixOnly
                 = (coffeeHeap, Failed "empty response body"))
    by (apply Process_empty; vm_compute; reflexivity).
  destruct (failed_page_changes_nothing _ _ _ _ _ _ Hrun) as [_ _].
  exact Hrun.
Defined.

Lemma process_frame_witness :
  exitH coffeeRun.1 !! 2%positive = None
  /\ dedupH coffeeRun.1 !! 2%positive = None.
Proof.
  destruct (process_frame coffeeJob "id1" coffeeHeap (bodyOf 20) _ _
              coffeeRun_done) as (_ & _ & Hd & Hm).
  split; [by rewrite Hm|by rewrite Hd].
Defined.

Lemma chain_page_numbers_witness :
  exists ji b,
    chain coffeeJob coffeeHeap coffeeResps !! 2%nat = Some (ji, b)
    /\ pageNum ji = 2 /\ offset ji = 40 /\ Priority (job ji) = 3.
Proof.
  assert (Hsome : bool_decide
            (is_Some (chain coffeeJob coffeeHeap coffeeResps !! 2%nat)) = true)
    by (vm_compute; reflexivity).
  apply bool_decide_eq_true_1 in Hsome as [[ji b] Hi].
  destruct (chain_page_numbers _ _ _ _ _ _ coffeeJob_wf Hi)
    as (Hp & Ho & Hpr & _).
  exists ji, b. split; [exact Hi|].
  split; [exact Hp|]. split; [exact Ho|exact Hpr].
Defined.

Lemma chain_counters_witness :
  seedsCompleted
    (countersOf (calls (chainStore coffeeJob coffeeHeap coffeeResps).1
                   1%positive)) = 1
  /\ outstanding
       (countersOf (calls (chainStore coffeeJob coffeeHeap coffeeResps).1
                      1%positive)) = 0.
Proof.
  assert (Hfin : (chainStore coffeeJob coffeeHeap coffeeResps).2 = true)
    by (vm_compute; reflexivity).
  assert (Hrun : chainStore coffeeJob coffeeHeap coffeeResps
                 = ((chainStore coffeeJob coffeeHeap coffeeResps).1, true)).
  { destruct (chainStore coffeeJob coffeeHeap coffeeResps) as [h b].
    simpl in *. by rewrite Hfin. }
  destruct (chain_counters coffeeResps coffeeJob coffeeHeap _ true 1%positive
              coffeeJob_wf eq_refl Hrun) as (_ & Hseed & Hout).
  split; [exact Hseed|exact Hout].
Defined.

End GmapsRunExamples.

(** ** The seeds of a run *)

Module SeedSpec.

Import Gmaps GmapsInv GoStrings Runner RunnerInv GmapsSpec RunnerSpec.

Section WithDecoder.

Context `{EntryAPI}.

(** *** Rendered-page mode *)

Lemma seedJob_blank fastmode langCode maxDepth email geo zoom radius lat lon
    dedup exitMonitor extraReviews searchDelay newID h line :
  TrimSpace line = ""%string ->
  seedJob fastmode langCode maxDepth email geo zoom radius lat lon dedup
    exitMonitor extraReviews searchDelay newID h line
  = Skip.
Proof. intros Hq. unfold seedJob. by rewrite bool_decide_eq_true_2. Qed.

Lemma seedJob_browser langCode maxDepth email geo zoom radius dedup
    exitMonitor extraReviews searchDelay newID h line :
  TrimSpace line <> ""%string ->
  seedJob false langCode maxDepth email geo zoom radius fzero fzero dedup
    exitMonitor extraReviews searchDelay newID h line
  = Emit h (browserSeed langCode maxDepth email geo zoom
              (gmapOptions dedup exitMonitor extraReviews searchDelay) line).
Proof.
  intros Hq. unfold seedJob, browserSeed.
  rewrite bool_decide_eq_false_2 by done.
  by destruct (cutID (TrimSpace line)).
Qed.

Lemma seedLoop_browser uuid langCode maxDepth email geo zoom radius dedup
    exitMonitor extraReviews searchDelay lines : forall h jobs,
  seedLoop
    (seedJob false langCode maxDepth email geo zoom radius fzero fzero dedup
       exitMonitor extraReviews searchDelay) uuid h jobs lines
  = Some (h, jobs ++ (browserSeed langCode maxDepth email geo zoom
                        (gmapOptions dedup exitMonitor extraReviews
                           searchDelay)
                        <$> queryLines lines)).
Proof.
  induction lines as [|line lines IH]; intros h jobs; simpl.
  - by rewrite app_nil_r.
  - unfold queryLines. rewrite filter_cons. fold (queryLines lines).
    destruct (decide (TrimSpace line <> ""%string)) as [Hq|Hq].
    + rewrite seedJob_browser by done.
      by rewrite IH, fmap_cons, <- app_assoc.
    + rewrite seedJob_blank by (by destruct (decide (TrimSpace line = ""%string))).
      apply IH.
Qed.

(** X7.  In rendered-page mode every line that is not blank yields its job, in
    order, with the depth, zoom and coordinates as given, and the store is
    not touched. *)
Theorem browser_seeds uuid h langCode r maxDepth email geo zoom radius dedup
    exitMonitor extraReviews searchDelay :
  CreateSeedJobs uuid h false langCode r maxDepth email geo zoom radius
    dedup exitMonitor extraReviews searchDelay
  = Some (h,
          browserSeed langCode maxDepth email geo zoom
            (gmapOptions dedup exitMonitor extraReviews searchDelay)
          <$> queryLines (scanAll (scanLines r)).1,
          (scanAll (scanLines r)).2).
Proof.
  unfold CreateSeedJobs.
  destruct (scanAll (scanLines r)) as [lines err]. simpl.
  by rewrite seedLoop_browser.
Qed.

(** *** Direct-request mode *)

Lemma stdOption_job opt (j : SearchJob) : stdOption opt -> job (opt j) = job j.
Proof.
  intros Hopt. destruct Hopt; try reflexivity.
  unfold WithSearchJobMaxPages. by destruct (_ && _).
Qed.

Lemma stdOptions_job opts (j : SearchJob) :
  Forall stdOption opts -> job (foldl (fun j opt => opt j) j opts) = job j.
Proof.
  intros Hopts. revert j.
  induction Hopts as [|opt opts Hopt _ IH]; intros j; simpl; [done|].
  by rewrite IH, stdOption_job.
Qed.

Lemma WithSearchJobMaxPages_fields n (j : SearchJob) :
  Deduper (WithSearchJobMaxPages n j) = Deduper j
  /\ ExitMonitor (WithSearchJobMaxPages n j) = ExitMonitor j
  /\ SearchDelay (WithSearchJobMaxPages n j) = SearchDelay j.
Proof. unfold WithSearchJobMaxPages. by destruct (_ && _). Qed.

(** The options the seed builder passes, applied to a new job. *)
Lemma searchOptions_fields dedup exitMonitor searchDelay maxDepth
    (j0 : SearchJob) :
  Deduper j0 = None -> ExitMonitor j0 = None -> SearchDelay j0 = 0 ->
  maxPages j0 = maxPaginationPages ->
  let j := foldl (fun j opt => opt j) j0
             (searchOptions dedup exitMonitor searchDelay maxDepth) in
  Deduper j = dedup
  /\ ExitMonitor j = exitMonitor
  /\ SearchDelay j = (if 0 <? searchDelay then searchDelay else 0)
  /\ maxPages j = seedPages maxDepth.
Proof.
  intros Hd Hm Hs Hp. unfold searchOptions. rewrite !foldl_app.
  set (j1 := foldl _ j0 _).
  assert (H1 : Deduper j1 = dedup /\ ExitMonitor j1 = None
               /\ SearchDelay j1 = 0 /\ maxPages j1 = maxPaginationPages)
    by (subst j1; by destruct dedup).
  set (j2 := foldl _ j1 _).
  assert (H2 : Deduper j2 = dedup /\ ExitMonitor j2 = exitMonitor
               /\ SearchDelay j2 = 0 /\ maxPages j2 = maxPaginationPages)
    by (destruct H1 as (? & ? & ? & ?); subst j2; by destruct exitMonitor).
  set (j3 := foldl _ j2 _).
  assert (H3 : Deduper j3 = dedup /\ ExitMonitor j3 = exitMonitor
               /\ SearchDelay j3 = (if 0 <? searchDelay then searchDelay else 0)
               /\ maxPages j3 = maxPaginationPages)
    by (destruct H2 as (? & ? & ? & ?); subst j3;
        by destruct (0 <? searchDelay)).
  clearbody j3. clear j1 j2 H1 H2.
  destruct H3 as (Hd3 & Hm3 & Hs3 & Hp3).
  unfold seedPages. destruct (Z.ltb_spec 1 maxDepth) as [Hlt|Hge]; simpl.
  - destruct (WithSearchJobMaxPages_fields maxDepth j3) as (-> & -> & ->).
    rewrite WithSearchJobMaxPages_spec, Hp3.
    repeat (split; [done|]).
    repeat destruct (decide _); try done; lia.
  - repeat (split; [done|]). rewrite Hp3. destruct (decide _); [lia|done].
Qed.

(** The job direct-request mode builds for a line, and the store it
    leaves. *)
Lemma seedJob_fast_emit langCode maxDepth email geo zoom radius lat lon dedup
    exitMonitor extraReviews searchDelay newID h line h' ij :
  seedJob true langCode maxDepth email geo zoom radius lat lon dedup
    exitMonitor extraReviews searchDelay newID h line
  = Emit h' ij ->
  let p := fresh (dom (paramsH h)) in
  exists j v,
    ij = SearchIJob j
    /\ params j = p
    /\ ID (job j) = newID
    /\ paramsH h' = <[p := withViewport v]> (paramsH h)
    /\ dedupH h' = dedupH h /\ exitH h' = exitH h
    /\ Hl v = langCode
    /\ ZoomLvl (Location v) = ofInt zoom
    /\ Radius (Location v) = radius
    /\ fastSeed langCode zoom radius dedup exitMonitor searchDelay maxDepth
         h' ij.
Proof.
  intros Hrun p. revert Hrun. unfold seedJob.
  destruct (bool_decide (TrimSpace line = ""%string)); [done|].
  destruct (cutID (TrimSpace line)) as [query id].
  destruct (_ && _); [done|]. simpl negb. cbv iota.
  set (v := mkMapSearchParams _ _ _ _ _). fold p.
  pose proof (searchOptions_std dedup exitMonitor searchDelay maxDepth)
    as Hstd.
  destruct (NewSearchJob newID (setParams h p v) p _) as [[h1 j]|] eqn:HN;
    [|done].
  intros [= <- <-].
  pose proof (NewSearchJob_seed _ _ _ _ _ _ Hstd HN) as Hseed.
  revert HN. unfold NewSearchJob, buildGoogleMapsParams. simpl paramsH.
  rewrite lookup_insert_eq. intros [= <- <-].
  set (j0 := mkSearchJob _ _ _ _ _ _ _ _) in *.
  destruct (searchOptions_fields dedup exitMonitor searchDelay maxDepth j0
              eq_refl eq_refl eq_refl eq_refl) as (Hd & Hm & Hs & Hp).
  assert (Hpar : params (foldl (fun j opt => opt j) j0
                           (searchOptions dedup exitMonitor searchDelay
                              maxDepth)) = p)
    by (by rewrite stdOptions_params).
  assert (Hjob : job (foldl (fun j opt => opt j) j0
                        (searchOptions dedup exitMonitor searchDelay
                           maxDepth)) = job j0)
    by (by rewrite stdOptions_job).
  eexists _, v. split; [reflexivity|]. split; [done|].
  split; [by simpl; rewrite Hjob|].
  split; [by simpl; rewrite insert_insert_eq|].
  repeat (split; [done|]).
  eexists _, (withViewport v). split; [reflexivity|].
  split; [done|]. repeat (split; [done|]).
  split; [|done]. simpl. rewrite Hpar. by rewrite lookup_insert_eq.
Qed.

Lemma seedJob_fast_no_crash langCode maxDepth email geo zoom radius lat lon
    dedup exitMonitor extraReviews searchDelay newID h line :
  seedJob true langCode maxDepth email geo zoom radius lat lon dedup
    exitMonitor extraReviews searchDelay newID h line
  <> Crash.
Proof.
  destruct (decide (TrimSpace line = ""%string)) as [Hq|Hq].
  - by rewrite seedJob_blank.
  - pose proof (seedJob_fast langCode maxDepth email geo zoom radius lat lon
                  dedup exitMonitor extraReviews searchDelay newID h line Hq)
      as Hfast.
    cbv zeta in Hfast. destruct (_ || _).
    + destruct Hfast as (h' & j & p & -> & _). done.
    + by rewrite Hfast.
Qed.

Lemma fastSeed_mono langCode zoom radius dedup exitMonitor searchDelay
    maxDepth h h' ij :
  (forall q v, paramsH h !! q = Some v -> paramsH h' !! q = Some v) ->
  fastSeed langCode zoom radius dedup exitMonitor searchDelay maxDepth h ij ->
  fastSeed langCode zoom radius dedup exitMonitor searchDelay maxDepth h' ij.
Proof.
  intros Hmono (j & p & -> & Hseed & Hd & Hm & Hs & Hmax & Hp & Hrest).
  exists j, p. repeat (split; [done|]). split; [by apply Hmono|done].
Qed.

Lemma queryLines_cons_length line lines :
  (length (queryLines lines) <= length (queryLines (line :: lines)))%nat
  /\ (TrimSpace line <> ""%string ->
      length (queryLines (line :: lines)) = S (length (queryLines lines))).
Proof.
  unfold queryLines. rewrite filter_cons.
  destruct (decide (TrimSpace line <> ""%string)); simpl; split; (lia || done).
Qed.

(** The scanning loop of direct-request mode. *)
Lemma seedLoop_fast uuid langCode maxDepth email geo zoom radius lat lon
    dedup exitMonitor extraReviews searchDelay h0 lines : forall h jobs,
  seedsInv uuid langCode zoom radius dedup exitMonitor searchDelay maxDepth
    h0 h jobs ->
  exists h' jobs',
    seedLoop
      (seedJob true langCode maxDepth email geo zoom radius lat lon dedup
         exitMonitor extraReviews searchDelay) uuid h jobs lines
    = Some (h', jobs')
    /\ seedsInv uuid langCode zoom radius dedup exitMonitor searchDelay
         maxDepth h0 h' jobs'
    /\ (length jobs' <= length jobs + length (queryLines lines))%nat.
Proof.
  induction lines as [|line lines IH]; intros h jobs Hinv; simpl.
  - exists h, jobs. split; [done|]. split; [done|lia].
  - destruct (queryLines_cons_length line lines) as [Hle Hcons].
    destruct (seedJob true langCode maxDepth email geo zoom radius lat lon
                dedup exitMonitor extraReviews searchDelay
                (uuid (length jobs)) h line) as [|h1 ij|] eqn:Estep.
    + destruct (IH h jobs Hinv) as (h' & jobs' & -> & Hinv' & Hlen).
      exists h', jobs'. split; [done|]. split; [done|lia].
    + assert (Hq : TrimSpace line <> ""%string).
      { intros Hq. by rewrite seedJob_blank in Estep. }
      apply seedJob_fast_emit in Estep. cbv zeta in Estep.
      destruct Estep as (j & v & -> & Hpar & Hid & Hh1 & Hd1 & He1 & _ & _ & _
                         & Hnew).
      destruct Hinv as (Hall & Hids & Hnd & Hframe & Hd & He).
      pose proof (is_fresh (dom (paramsH h))) as Hfresh.
      apply not_elem_of_dom in Hfresh.
      assert (Hmono : forall q w,
                 paramsH h !! q = Some w -> paramsH h1 !! q = Some w).
      { intros q w Hq'. rewrite Hh1, lookup_insert_ne; [done|].
        intros <-. by rewrite Hfresh in Hq'. }
      destruct (IH h1 (jobs ++ [SearchIJob j])) as (h' & jobs' & -> & Hinv' & Hlen).
      { split; [|split; [|split; [|split; [|split]]]].
        - apply Forall_app. split; [|by apply Forall_singleton].
          eapply Forall_impl; [exact Hall|]. intros ij. by apply fastSeed_mono.
        - intros k j' Hk. apply lookup_app_Some in Hk as [Hk|[Hge Hk]].
          + by apply Hids.
          + apply list_lookup_singleton_Some in Hk as [Hk0 [= <-]].
            assert (k = length jobs) as -> by lia.
            split; [done|]. rewrite Hpar.
            destruct (paramsH h0 !! fresh (dom (paramsH h))) as [w|] eqn:E0;
              [|done].
            apply Hframe in E0. by rewrite Hfresh in E0.
        - rewrite omap_app. apply NoDup_app. split; [done|].
          split; [|simpl; apply NoDup_singleton].
          intros q Hq' Hq''. simpl in Hq''.
          apply list_elem_of_singleton in Hq'' as ->.
          apply list_elem_of_omap in Hq' as (ij & Hij & Hsp).
          rewrite Forall_forall in Hall.
          destruct (Hall ij Hij) as (j' & p' & -> & _ & _ & _ & _ & _ & Hp' & _).
          simpl in Hsp. injection Hsp as Hsp. rewrite Hsp, Hpar in Hp'.
          by rewrite Hfresh in Hp'.
        - intros q w Hq'. by apply Hmono, Hframe.
        - by rewrite Hd1.
        - by rewrite He1. }
      exists h', jobs'. split; [done|]. split; [done|].
      rewrite length_app in Hlen. simpl in Hlen. rewrite (Hcons Hq). lia.
    + by destruct (seedJob_fast_no_crash _ _ _ _ _ _ _ _ _ _ _ _ _ _ _ Estep).
Qed.

Lemma normZoom_range zoom : 1 <= normZoom zoom <= 21.
Proof. unfold normZoom. repeat ztest; simpl; lia. Qed.

(** X8.  In direct-request mode every job is a page-0 search job wired to the
    run's deduper and monitor, with its own parameters. *)
Theorem fast_seeds uuid h langCode r maxDepth email geo zoom radius dedup
    exitMonitor extraReviews searchDelay h' jobs err :
  CreateSeedJobs uuid h true langCode r maxDepth email geo zoom radius
    dedup exitMonitor extraReviews searchDelay
  = Some (h', jobs, err) ->
  Forall (fastSeed langCode (normZoom zoom) (normRadius radius) dedup
            exitMonitor searchDelay maxDepth h') jobs
  /\ (forall k j, jobs !! k = Some (SearchIJob j) ->
        ID (job j) = uuid k /\ paramsH h !! params j = None)
  /\ NoDup (omap seedParams jobs)
  /\ 1 <= normZoom zoom <= 21.
Proof.
  unfold CreateSeedJobs.
  destruct (globalAnchor geo) as [lat lon].
  destruct (scanAll (scanLines r)) as [lines e].
  destruct (seedLoop_fast uuid langCode maxDepth email geo (normZoom zoom)
              (normRadius radius) lat lon dedup exitMonitor extraReviews
              searchDelay h lines h [])
    as (h1 & jobs1 & -> & (Hall & Hids & Hnd & _) & _).
  { split; [constructor|]. split; [done|]. split; [constructor|done]. }
  intros [= <- <- _]. repeat (split; [done|]). apply normZoom_range.
Qed.

(** X9.  The seed builder always returns: at most one job per line that is
    not blank, the scanner's error, and a store in which only new
    parameters were allocated. *)
Theorem seeds_total uuid h fastmode langCode r maxDepth email geo zoom radius
    dedup exitMonitor extraReviews searchDelay :
  exists h' jobs,
    CreateSeedJobs uuid h fastmode langCode r maxDepth email geo zoom radius
      dedup exitMonitor extraReviews searchDelay
    = Some (h', jobs, (scanAll (scanLines r)).2)
    /\ (length jobs <= length (queryLines (scanAll (scanLines r)).1))%nat
    /\ (forall q v, paramsH h !! q = Some v -> paramsH h' !! q = Some v)
    /\ dedupH h' = dedupH h
    /\ exitH h' = exitH h.
Proof.
  destruct fastmode.
  - unfold CreateSeedJobs.
    destruct (globalAnchor geo) as [lat lon].
    destruct (scanAll (scanLines r)) as [lines e].
    destruct (seedLoop_fast uuid langCode maxDepth email geo (normZoom zoom)
                (normRadius radius) lat lon dedup exitMonitor extraReviews
                searchDelay h lines h [])
      as (h1 & jobs1 & -> & (_ & _ & _ & Hframe & Hd & He) & Hlen).
    { split; [constructor|]. split; [done|]. split; [constructor|done]. }
    exists h1, jobs1. by repeat (split; [done|]).
  - unfold CreateSeedJobs.
    destruct (scanAll (scanLines r)) as [lines e]. simpl.
    rewrite seedLoop_browser, app_nil_l. eexists _, _.
    split; [reflexivity|].
    rewrite length_fmap. by repeat (split; [done|]).
Qed.

(** The seed builder returns, with the scanner's error. *)
Lemma CreateSeedJobs_some uuid h fastmode langCode r maxDepth email geo zoom
    radius dedup exitMonitor extraReviews searchDelay :
  exists h' jobs,
    CreateSeedJobs uuid h fastmode langCode r maxDepth email geo zoom radius
      dedup exitMonitor extraReviews searchDelay
    = Some (h', jobs, (scanAll (scanLines r)).2).
Proof.
  unfold CreateSeedJobs. destruct fastmode.
  - destruct (globalAnchor geo) as [lat lon].
    destruct (scanAll (scanLines r)) as [lines e].
    destruct (seedLoop_fast uuid langCode maxDepth email geo (normZoom zoom)
                (normRadius radius) lat lon dedup exitMonitor extraReviews
                searchDelay h lines h [])
      as (h1 & jobs1 & -> & _).
    { split; [constructor|]. split; [done|]. split; [constructor|done]. }
    by exists h1, jobs1.
  - destruct (scanAll (scanLines r)) as [lines e]. simpl.
    rewrite seedLoop_browser. by eexists _, _.
Qed.

End WithDecoder.

End SeedSpec.

(** ** From the keywords of a run to the lines the seed builder scans *)

Module KeywordSpec.

Import Gmaps GmapsInv GoStrings Runner RunnerInv SeedSpec.

Lemma Split_cons a rest sep :
  Split (String a rest) sep
  = if Ascii.eqb a sep then EmptyString :: Split rest sep
    else match Split rest sep with
         | first :: others => String a first :: others
         | [] => [String a EmptyString]
         end.
Proof. reflexivity. Qed.

Lemma occurs_cons c a s :
  occurs c (String a s) = Ascii.eqb a c || occurs c s.
Proof. reflexivity. Qed.

Lemma Split_free s sep : occurs sep s = false -> Split s sep = [s].
Proof.
  induction s as [|a s IH]; [done|]. rewrite occurs_cons, Split_cons.
  intros [Ha Hs]%orb_false_elim. by rewrite Ha, IH.
Qed.

Lemma Split_sep s t sep :
  occurs sep s = false ->
  Split (s +:+ String sep t) sep = s :: Split t sep.
Proof.
  induction s as [|a s IH].
  - intros _. change (Split (String sep t) sep = EmptyString :: Split t sep).
    by rewrite Split_cons, Ascii.eqb_refl.
  - rewrite occurs_cons. intros [Ha Hs]%orb_false_elim.
    change (String a s +:+ String sep t)
      with (String a (s +:+ String sep t)).
    by rewrite Split_cons, Ha, IH.
Qed.

(** Joining and splitting on a byte that no element holds gives the
    elements back. *)
Lemma Split_Join kws sep :
  kws <> [] ->
  Forall (fun k => occurs sep k = false) kws ->
  Split (Join kws (String sep EmptyString)) sep = kws.
Proof.
  induction kws as [|k kws IH]; [done|]. intros _ Hall.
  apply Forall_cons in Hall as [Hk Hall].
  destruct kws as [|k' kws]; [by apply Split_free|].
  change (Join (k :: k' :: kws) (String sep EmptyString))
    with (k +:+ String sep (Join (k' :: kws) (String sep EmptyString))).
  by rewrite Split_sep, IH.
Qed.

Lemma occurs_rev_app c s : forall t,
  occurs c (String.rev_app s t) = occurs c s || occurs c t.
Proof.
  induction s as [|a s IH]; intros t; [done|].
  change (String.rev_app (String a s) t) with (String.rev_app s (String a t)).
  rewrite IH, !occurs_cons.
  by destruct (Ascii.eqb a c), (occurs c s), (occurs c t).
Qed.

Lemma dropCR_free s : occurs cr s = false -> dropCR s = s.
Proof.
  intros Hs. unfold dropCR.
  destruct (String.rev s) as [|a rest] eqn:Erev; [done|].
  destruct (Ascii.eqb a cr) eqn:Ea; [|done].
  apply Ascii.eqb_eq in Ea as ->.
  assert (Hocc : occurs cr (String.rev s) = true)
    by (by rewrite Erev, occurs_cons, Ascii.eqb_refl).
  unfold String.rev in Hocc. rewrite occurs_rev_app, Hs in Hocc. done.
Qed.

Lemma scanAll_short lines :
  Forall (fun l => Z.of_nat (String.length l) < MaxScanTokenSize) lines ->
  scanAll lines = (lines, None).
Proof.
  induction 1 as [|l lines Hl _ IH]; [done|]. simpl.
  destruct (Z.leb_spec MaxScanTokenSize (Z.of_nat (String.length l)));
    [lia|].
  by rewrite IH.
Qed.

Section WithDecoder.

Context `{EntryAPI}.

(** X10.  The keywords of a run, joined by line feeds as [scrapeJob] does and
    scanned as [CreateSeedJobs] does, come back as they were, but for an
    empty last keyword: a keyword without line break that fits the
    scanner's buffer is one line.  In rendered-page mode the jobs are
    then those of the keywords that are not blank, one each, in order. *)
Theorem keywords_round_trip kws :
  Forall oneLine kws ->
  let text := Join kws (String lf EmptyString) in
  (exists lines,
      scanAll (scanLines text) = (lines, None)
      /\ (lines = kws \/ lines ++ [EmptyString] = kws)
      /\ queryLines lines = queryLines kws)
  /\ (forall uuid h langCode maxDepth email geo zoom radius dedup
             exitMonitor extraReviews searchDelay,
         CreateSeedJobs uuid h false langCode text maxDepth email geo zoom
           radius dedup exitMonitor extraReviews searchDelay
         = Some (h,
                 browserSeed langCode maxDepth email geo zoom
                   (gmapOptions dedup exitMonitor extraReviews searchDelay)
                 <$> queryLines kws,
                 None)).
Proof.
  intros Hall text.
  assert (Hlines : exists lines,
             scanAll (scanLines text) = (lines, None)
             /\ (lines = kws \/ lines ++ [EmptyString] = kws)
             /\ queryLines lines = queryLines kws).
  { assert (Hscan : forall lines,
               (lines = kws \/ lines ++ [EmptyString] = kws) ->
               scanAll (dropCR <$> lines) = (lines, None)).
    { intros lines Hsub.
      assert (Hsome : Forall oneLine lines).
      { destruct Hsub as [->| <-]; [done|].
        by apply Forall_app in Hall as [? _]. }
      replace (dropCR <$> lines) with lines.
      - apply scanAll_short. eapply Forall_impl; [exact Hsome|].
        by intros l (_ & _ & ?).
      - symmetry. rewrite <- (list_fmap_id lines) at 2.
        apply Forall_fmap_ext. eapply Forall_impl; [exact Hsome|].
        intros l (_ & Hcr & _). by apply dropCR_free. }
    destruct (decide (kws = [])) as [Hnil|Hne].
    { exists []. subst text. rewrite Hnil.
      split; [reflexivity|]. split; [by left|done]. }
    assert (Hsplit : Split text lf = kws).
    { apply Split_Join; [done|].
      eapply Forall_impl; [exact Hall|]. by intros l (? & _). }
    unfold scanLines. rewrite Hsplit.
    destruct (reverse kws) as [|x others] eqn:Erev.
    { exists kws. split; [by apply Hscan; left|]. split; [by left|done]. }
    assert (Hkws : kws = reverse others ++ [x])
      by (by rewrite <- (reverse_involutive kws), Erev, reverse_cons).
    destruct x as [|a x].
    - exists (reverse others).
      split; [apply Hscan; right; by rewrite Hkws|].
      split; [right; by rewrite Hkws|].
      rewrite Hkws. unfold queryLines. by rewrite filter_app, app_nil_r.
    - exists kws. split; [by apply Hscan; left|]. split; [by left|done]. }
  split; [exact Hlines|].
  intros uuid h langCode maxDepth email geo zoom radius dedup exitMonitor
    extraReviews searchDelay.
  destruct Hlines as (lines & Hscan & _ & Hq).
  unfold CreateSeedJobs. rewrite Hscan. simpl.
  by rewrite seedLoop_browser, app_nil_l, Hq.
Qed.

End WithDecoder.

End KeywordSpec.

(** *** The seed builder at work *)

Module SeedExamples.

Import Gmaps GmapsInv GoStrings Runner RunnerInv SeedSpec KeywordSpec.
Import Fixture Scenario.

Lemma browser_seeds_witness :
  exists jobs,
    browserSeeds = Some (emptyHeap, jobs, None)
    /\ gmapQuery <$> omap (fun ij => match ij with
                                     | GmapIJob g => Some g
                                     | SearchIJob _ => None
                                     end) jobs
       = ["coffee"; "tea"]%string.
Proof.
  pose proof (browser_seeds demoUUID emptyHeap "en" browserList 2 true
                "1.0,2.0" 30 (5 # 1)%Q (Some 1%positive) None true 4) as Hrun.
  assert (Herr : (scanAll (scanLines browserList)).2 = None)
    by (vm_compute; reflexivity).
  rewrite Herr in Hrun.
  eexists. split; [exact Hrun|]. vm_compute. reflexivity.
Defined.

Lemma fast_seeds_witness :
  NoDup (omap seedParams demoSeedJobs)
  /\ Forall (fastSeed "en" 15 (10000 # 1)%Q (Some (Webrunner.newDeduper emptyHeap))
               (Some (Webrunner.newExiter emptyHeap)) 0 1 demoSeedHeap)
       demoSeedJobs.
Proof.
  destruct (fast_seeds _ _ _ _ _ _ _ _ _ _ _ _ _ _ _ _
              (proj1 WebrunnerSpec.demoSeeds_ok)) as (Hall & _ & Hnd & _).
  split; [exact Hnd|exact Hall].
Defined.

Lemma seeds_total_witness :
  exists h' jobs,
    seedsOf "bakery" = Some (h', jobs, None) /\ (length jobs <= 1)%nat.
Proof.
  destruct (seeds_total (fun n => "id" +:+ pretty n) emptyHeap true "en"
              "bakery" 1 false "" 15 (10000 # 1)%Q None None false 0)
    as (h' & jobs & Hrun & Hlen & _).
  exists h', jobs. split; [exact Hrun|exact Hlen].
Defined.

Lemma keywords_round_trip_witness :
  exists a b,
    CreateSeedJobs demoUUID emptyHeap false "en"
      (Join keywordList (String lf EmptyString)) 1 false "" 15 (10000 # 1)%Q
      None None false 0
    = Some (emptyHeap, [GmapIJob a; GmapIJob b], None)
    /\ gmapQuery a = "coffee"%string /\ gmapQuery b = "tea"%string.
Proof.
  assert (Hall : Forall oneLine keywordList).
  { repeat constructor; by vm_compute. }
  destruct (keywords_round_trip keywordList Hall) as [_ Hjobs].
  eexists _, _. split; [apply Hjobs|]. split; vm_compute; reflexivity.
Defined.

End SeedExamples.

(** ** The scheduling loop: every way a run ends *)

Module LoopSpec.

Import Gmaps GoStrings Webrunner WebrunnerInv GoIntFacts WebrunnerSpec.


Section Loop.

Context `{Services}.

Lemma createSeeds_some cfg uuid h d :
  exists h' jobs,
    createSeeds cfg uuid h d
    = Some (h', jobs,
            (scanAll (scanLines (Join (Web.Keywords d)
                                   (String lf EmptyString)))).2).
Proof. unfold createSeeds. apply SeedSpec.CreateSeedJobs_some. Qed.

Lemma keywords_test (kw : list string) :
  kw <> [] -> (Z.of_nat (length kw) =? 0) = false.
Proof. destruct kw; [done|]. intros _. simpl length. apply Z.eqb_neq. lia. Qed.

(** X12.  Every run returns: with the run it was given, never pending; and
    when it returns no error the run is stored as returned, finished [ok],
    or [failed] for want of keywords. *)
Theorem scrapeJob_outcome cfg uuid w job :
  exists w' job' err,
    scrapeJob cfg uuid w job = Returned w' job' err
    /\ Web.ID job' = Web.ID job
    /\ Web.Data job' = Web.Data job
    /\ Web.Status job' <> Web.StatusPending
    /\ (err = None ->
        repo w' !! Web.ID job = Some job'
        /\ (Web.Status job' = Web.StatusOK
            \/ (Web.Status job' = Web.StatusFailed
                /\ Web.Keywords (Web.Data job) = [])))
    /\ (exists evs,
          events w'
          = events w ++ EvUpdate Web.StatusWorking (Web.Count job) :: evs).
Proof.
  unfold scrapeJob. unfold svcUpdate at 1. simpl.
  destruct (updateErr (Web.withStatus job Web.StatusWorking)) as [e|] eqn:Eupd.
  { eexists _, _, _. split; [reflexivity|]. simpl.
    repeat split; try done. by exists []. }
  destruct (Web.Keywords (Web.Data job)) as [|kw kws] eqn:Ekw.
  { simpl. unfold svcUpdate. simpl.
    change (Web.withStatus (Web.withStatus job Web.StatusWorking)
              Web.StatusFailed)
      with (Web.withStatus job Web.StatusFailed).
    destruct (updateErr (Web.withStatus job Web.StatusFailed))
      as [e|] eqn:Efail;
      (eexists _, _, _; split; [reflexivity|]); simpl;
      (repeat split; try done);
      try (eexists; rewrite <- app_assoc; reflexivity).
    - by rewrite lookup_insert_eq.
    - by right. }
  rewrite keywords_test by done.
  destruct (setupMateErr _) as [e|] eqn:Esetup.
  { unfold svcUpdate. simpl.
    change (Web.withStatus (Web.withStatus job Web.StatusWorking)
              Web.StatusFailed)
      with (Web.withStatus job Web.StatusFailed).
    destruct (updateErr (Web.withStatus job Web.StatusFailed));
      (eexists _, _, _; split; [reflexivity|]); simpl;
      (repeat split; try done);
      eexists; rewrite <- !app_assoc; reflexivity. }
  simpl.
  destruct (createSeeds_some cfg uuid (store w) (Web.Data job))
    as (h & seedJobs & Hseeds).
  rewrite Ekw in Hseeds. rewrite Hseeds.
  destruct (scanAll _).2 as [e|].
  { unfold svcUpdate. simpl. rewrite Eupd.
    eexists _, _, _. split; [reflexivity|]. simpl.
    repeat split; try done.
    eexists; rewrite <- !app_assoc; reflexivity. }
  assert (Hfin : forall cancel w0 evs,
             events w0
             = events w ++ EvUpdate Web.StatusWorking (Web.Count job) :: evs ->
             exists w' job' err,
               finalize cfg cancel w0 (Web.withStatus job Web.StatusWorking)
               = Returned w' job' err
               /\ Web.ID job' = Web.ID job
               /\ Web.Data job' = Web.Data job
               /\ Web.Status job' <> Web.StatusPending
               /\ (err = None ->
                   repo w' !! Web.ID job = Some job'
                   /\ (Web.Status job' = Web.StatusOK
                       \/ (Web.Status job' = Web.StatusFailed
                           /\ kw :: kws = [])))
               /\ (exists evs',
                     events w'
                     = events w
                       ++ EvUpdate Web.StatusWorking (Web.Count job) :: evs')).
  { intros cancel w0 evs Hev.
    destruct (finalize_spec cfg cancel w0
                (Web.withStatus job Web.StatusWorking))
      as (w' & Hret & Hev' & _ & _ & Hrepo).
    eexists _, _, _. split; [exact Hret|]. simpl.
    repeat split; try done.
    - by apply Hrepo.
    - by left.
    - rewrite Hev', Hev, <- app_assoc. simpl. by eexists. }
  destruct seedJobs as [|ij seedJobs]; simpl.
  { eapply Hfin. simpl. rewrite <- !app_assoc. reflexivity. }
  destruct (mateStart _ _) as [results startErr].
  destruct (Run _ _ _) as [[rw fs] runErr]. simpl.
  destruct startErr as [[| |e]|].
  1, 2, 4: eapply Hfin; simpl; rewrite <- !app_assoc; reflexivity.
  unfold svcUpdate. simpl.
  change (Web.withStatus (Web.withStatus job Web.StatusWorking)
            Web.StatusFailed)
    with (Web.withStatus job Web.StatusFailed).
  destruct (updateErr (Web.withStatus job Web.StatusFailed));
    (eexists _, _, _; split; [reflexivity|]); simpl;
    (repeat split; try done);
    eexists; rewrite <- !app_assoc; reflexivity.
Qed.

(** X13.  When the dispatch engine cannot be set up the run is marked failed,
    the writer is closed and the error is returned: no seed is built, no
    file is written and nothing is merged. *)
Theorem setup_failure cfg uuid w job e :
  updateErr (Web.withStatus job Web.StatusWorking) = None ->
  Web.Keywords (Web.Data job) <> [] ->
  setupMateErr (Web.withStatus job Web.StatusWorking) = Some e ->
  exists w',
    scrapeJob cfg uuid w job
    = Returned w' (Web.withStatus job Web.StatusFailed) (Some e)
    /\ events w'
       = events w
         ++ [EvUpdate Web.StatusWorking (Web.Count job);
             EvNewWriter (filepathJoin (DataFolder cfg) (Web.ID job)) 50000;
             EvSetupMate; EvWriterClose;
             EvUpdate Web.StatusFailed (Web.Count job)]
    /\ disk w' = disk w /\ store w' = store w /\ inflight w' = inflight w
    /\ (updateErr (Web.withStatus job Web.StatusFailed) = None ->
        repo w' !! Web.ID job = Some (Web.withStatus job Web.StatusFailed)).
Proof.
  intros Hupd Hkw Hsetup.
  unfold scrapeJob. unfold svcUpdate at 1. rewrite Hupd. simpl.
  rewrite keywords_test, Hsetup by done.
  unfold svcUpdate. simpl.
  change (Web.withStatus (Web.withStatus job Web.StatusWorking)
            Web.StatusFailed)
    with (Web.withStatus job Web.StatusFailed).
  destruct (updateErr (Web.withStatus job Web.StatusFailed)) eqn:Efail;
    (eexists; split; [reflexivity|]); simpl; rewrite <- !app_assoc;
    repeat split; try done.
  intros _. by rewrite lookup_insert_eq.
Qed.

(** X14.  When the scanner gives up on the keywords the error is returned with
    the run still marked working: the engine is not started and nothing is
    merged. *)
Theorem seed_error_leaves_working cfg uuid w job e :
  updateErr (Web.withStatus job Web.StatusWorking) = None ->
  Web.Keywords (Web.Data job) <> [] ->
  setupMateErr (Web.withStatus job Web.StatusWorking) = None ->
  (scanAll (scanLines (Join (Web.Keywords (Web.Data job))
                         (String lf EmptyString)))).2 = Some e ->
  exists w',
    scrapeJob cfg uuid w job
    = Returned w' (Web.withStatus job Web.StatusWorking) (Some e)
    /\ events w'
       = events w
         ++ [EvUpdate Web.StatusWorking (Web.Count job);
             EvNewWriter (filepathJoin (DataFolder cfg) (Web.ID job)) 50000;
             EvSetupMate;
             EvUpdate Web.StatusWorking (Web.Count job);
             EvWriterClose; EvMateClose]
    /\ disk w' = disk w
    /\ repo w' !! Web.ID job = Some (Web.withStatus job Web.StatusWorking).
Proof.
  intros Hupd Hkw Hsetup Hscan.
  unfold scrapeJob. unfold svcUpdate at 1. rewrite Hupd. simpl.
  rewrite keywords_test, Hsetup by done. simpl.
  destruct (createSeeds_some cfg uuid (store w) (Web.Data job))
    as (h & seedJobs & Hseeds).
  rewrite Hscan in Hseeds. rewrite Hseeds.
  unfold svcUpdate. simpl. rewrite Hupd.
  eexists. split; [reflexivity|]. simpl. rewrite <- !app_assoc.
  repeat split; try done. by rewrite lookup_insert_eq.
Qed.

(** X15.  When no keyword yields a seed the engine is not started: the run
    goes straight to the merge and is marked ok with the merged count,
    which is zero when no shard of the run is on disk. *)
Theorem no_seed_run cfg uuid w job h :
  updateErr (Web.withStatus job Web.StatusWorking) = None ->
  Web.Keywords (Web.Data job) <> [] ->
  setupMateErr (Web.withStatus job Web.StatusWorking) = None ->
  createSeeds cfg uuid (store w) (Web.Data job) = Some (h, [], None) ->
  let merged := mergeCSVFiles (disk w) (DataFolder cfg) (Web.ID job) in
  let final := Web.withStatus (Web.withCount job merged.1.2) Web.StatusOK in
  exists w',
    scrapeJob cfg uuid w job = Returned w' final (updateErr final)
    /\ events w'
       = events w
         ++ [EvUpdate Web.StatusWorking (Web.Count job);
             EvNewWriter (filepathJoin (DataFolder cfg) (Web.ID job)) 50000;
             EvSetupMate; EvWriterClose; EvCountWait; EvMerge merged.1.2;
             EvUpdate Web.StatusOK merged.1.2; EvWriterClose; EvMateClose]
    /\ disk w' = merged.1.1
    /\ (Glob (disk w) (DataFolder cfg) (Web.ID job) = [] ->
        Web.Count final = 0 /\ disk w' = disk w).
Proof.
  intros Hupd Hkw Hsetup Hseeds merged final.
  unfold scrapeJob. unfold svcUpdate at 1. rewrite Hupd. simpl.
  rewrite keywords_test, Hsetup by done. simpl. rewrite Hseeds. simpl.
  match goal with
  | |- exists w', finalize ?c ?b ?w0 ?j0 = _ /\ _ =>
      destruct (finalize_spec c b w0 j0) as (w' & Hret & Hev & _ & Hdisk & _)
  end.
  simpl in Hret, Hev, Hdisk.
  exists w'. split; [exact Hret|].
  split; [by rewrite Hev, <- !app_assoc|].
  split; [exact Hdisk|].
  intros Hnone. subst final merged. rewrite Hdisk.
  by rewrite (merge_no_shard _ _ _ Hnone).
Qed.

End Loop.

End LoopSpec.

(** *** The ways a run ends, on examples *)

Module LoopExamples.

Import Gmaps GoStrings Webrunner WebrunnerInv WebrunnerSpec LoopSpec.
Import Fixture Scenario.


Lemma scrapeJob_outcome_witness :
  exists w' job' err,
    scrapeJob demoConfig demoUUID emptyWorld coffeeRunJob
    = Returned w' job' err
    /\ Web.ID job' = "job"%string
    /\ Web.Status job' <> Web.StatusPending.
Proof.
  destruct (scrapeJob_outcome demoConfig demoUUID emptyWorld coffeeRunJob)
    as (w' & job' & err & Hret & Hid & _ & Hst & _).
  exists w', job', err. split; [exact Hret|]. split; [exact Hid|exact Hst].
Defined.

Lemma setup_failure_witness :
  exists w',
    @scrapeJob decimals listings brokenEngine demoConfig demoUUID emptyWorld
      coffeeRunJob
    = Returned w' (Web.withStatus coffeeRunJob Web.StatusFailed)
        (Some "no browser"%string)
    /\ disk w' = emptyFS.
Proof.
  destruct (@setup_failure decimals listings brokenEngine demoConfig demoUUID
              emptyWorld coffeeRunJob "no browser" eq_refl
              ltac:(discriminate) eq_refl)
    as (w' & Hret & _ & Hdisk & _).
  exists w'. split; [exact Hret|exact Hdisk].
Defined.

Lemma seed_error_leaves_working_witness :
  exists w',
    scrapeJob demoConfig demoUUID emptyWorld longRun
    = Returned w' (Web.withStatus longRun Web.StatusWorking)
        (Some "bufio.Scanner: token too long"%string)
    /\ disk w' = emptyFS.
Proof.
  assert (Hscan : (scanAll (scanLines (Join (Web.Keywords (Web.Data longRun))
                                         (String lf EmptyString)))).2
                  = Some "bufio.Scanner: token too long"%string)
    by (vm_compute; reflexivity).
  destruct (@seed_error_leaves_working decimals listings deadlineServices
              demoConfig demoUUID emptyWorld longRun _ eq_refl ltac:(discriminate) eq_refl Hscan)
    as (w' & Hret & _ & Hdisk & _).
  exists w'. split; [exact Hret|exact Hdisk].
Defined.

Lemma bakery_no_seeds :
  exists h,
    createSeeds demoConfig demoUUID (store emptyWorld) (Web.Data bakeryRun)
    = Some (h, [], None).
Proof.
  assert (Hno : noSeeds (createSeeds demoConfig demoUUID (store emptyWorld)
                           (Web.Data bakeryRun)) = true)
    by (vm_compute; reflexivity).
  destruct (createSeeds _ _ _ _) as [[[h [|j jobs]] [e|]]|];
    try discriminate.
  by exists h.
Qed.

Lemma no_seed_run_witness :
  exists w' final,
    scrapeJob demoConfig demoUUID emptyWorld bakeryRun
    = Returned w' final None
    /\ Web.Status final = Web.StatusOK
    /\ Web.Count final = 0
    /\ disk w' = emptyFS.
Proof.
  destruct bakery_no_seeds as [h Hseeds].
  destruct (@no_seed_run decimals listings deadlineServices demoConfig
              demoUUID emptyWorld bakeryRun h eq_refl
              ltac:(discriminate) eq_refl Hseeds)
    as (w' & Hret & _ & _ & Hnone).
  destruct (Hnone eq_refl) as [Hcount Hdisk].
  eexists w', _. split; [exact Hret|].
  split; [reflexivity|]. split; [exact Hcount|exact Hdisk].
Defined.

End LoopExamples.

(** ** The merger on any shards *)

Module MergeSpec.

Import Gmaps GoStrings Webrunner WebrunnerInv MergeInv GoIntFacts WebrunnerSpec.

Lemma readCSVWithBOM_ext fs fs' path :
  files fs' !! path = files fs !! path ->
  readCSVWithBOM fs' path = readCSVWithBOM fs path.
Proof. unfold readCSVWithBOM. by intros ->. Qed.

Lemma dataRowsOf_ext fs fs' paths :
  (forall p, p ∈ paths -> files fs' !! p = files fs !! p) ->
  dataRowsOf fs' <$> paths = dataRowsOf fs <$> paths
  /\ firstHeaderOf fs' paths = firstHeaderOf fs paths.
Proof.
  induction paths as [|p paths IH]; intros Hsame; [done|].
  destruct IH as [IHrows IHhdr].
  { intros q Hq. by apply Hsame, list_elem_of_further. }
  assert (Hp : readCSVWithBOM fs' p = readCSVWithBOM fs p)
    by (apply readCSVWithBOM_ext, Hsame, list_elem_of_here).
  split.
  - rewrite !fmap_cons, IHrows. unfold dataRowsOf at 1 3. by rewrite Hp.
  - simpl. by rewrite Hp, IHhdr.
Qed.

(** The merge loop: the first header met is kept, the data rows are
    appended file by file, and counted; a file that cannot be read adds
    nothing. *)
Lemma mergeLoop_any fs paths : forall m,
  0 <= totalRows m ->
  totalRows m + Z.of_nat (length (mjoin (dataRowsOf fs <$> paths)))
  <= GoInt.max_int ->
  foldl (mergeStep fs) m paths
  = mkMerged
      (match outHeader m with
       | Some h => Some h
       | None => firstHeaderOf fs paths
       end)
      (outRows m ++ mjoin (dataRowsOf fs <$> paths))
      (totalRows m + Z.of_nat (length (mjoin (dataRowsOf fs <$> paths)))).
Proof.
  induction paths as [|p paths IH]; intros m Hpos Hmax.
  - simpl. rewrite app_nil_r, Z.add_0_r. by destruct m as [[h|] rs n].
  - assert (Hjoin : mjoin (dataRowsOf fs <$> p :: paths)
                    = dataRowsOf fs p ++ mjoin (dataRowsOf fs <$> paths))
      by (by rewrite fmap_cons).
    rewrite Hjoin in Hmax |- *. clear Hjoin. rewrite length_app in Hmax.
    cbn [foldl firstHeaderOf]. unfold mergeStep at 2.
    destruct (readCSVWithBOM fs p) as [[|first rest]|msg] eqn:Eread.
    + assert (Hd : dataRowsOf fs p = [])
        by (unfold dataRowsOf; by rewrite Eread).
      rewrite Hd in Hmax |- *. simpl length in Hmax.
      rewrite IH by lia. by rewrite app_nil_l.
    + assert (Hd : dataRowsOf fs p = rest)
        by (unfold dataRowsOf; by rewrite Eread).
      rewrite Hd in Hmax |- *. rewrite count_rows by lia.
      rewrite IH; [|cbn [totalRows]; lia|cbn [totalRows]; lia].
      cbn [outHeader outRows totalRows]. rewrite length_app, <- app_assoc.
      f_equal; [|lia]. by destruct (outHeader m).
    + assert (Hd : dataRowsOf fs p = [])
        by (unfold dataRowsOf; by rewrite Eread).
      rewrite Hd in Hmax |- *. simpl length in Hmax.
      rewrite IH by lia. by rewrite app_nil_l.
Qed.

(** X16.  The merger on whatever shards it finds.  With the output file
    created, the merged file holds the first header read and the data rows
    of the readable shards in the order of their names; their number is
    returned; every shard found is removed, readable or not; no other file
    changes; and no shard is left, so that merging again changes nothing
    and returns 0.  When the output file cannot be created the shards are
    left as they are. *)
Theorem merge_any_shards fs dataFolder jobID :
  let shards := sortStrings (Glob fs dataFolder jobID) in
  let out := filepathJoin dataFolder (jobID +:+ ".csv") in
  let allRows := mjoin (dataRowsOf fs <$> shards) in
  shards <> [] ->
  Z.of_nat (length allRows) <= GoInt.max_int ->
  if decide (out ∈ denied fs)
  then mergeCSVFiles fs dataFolder jobID
       = (fs, 0, Some "failed to create merged file"%string)
  else exists fs',
    mergeCSVFiles fs dataFolder jobID = (fs', Z.of_nat (length allRows), None)
    /\ files fs' !! out
       = Some (mkFile true (firstHeaderOf fs shards) allRows)
    /\ (forall p, p ∈ shards -> files fs' !! p = None)
    /\ (forall p, p ∉ shards -> p <> out -> files fs' !! p = files fs !! p)
    /\ Glob fs' dataFolder jobID = []
    /\ mergeCSVFiles fs' dataFolder jobID = (fs', 0, None).
Proof.
  intros shards out allRows Hne Hmax.
  assert (Eshards : shards = sortStrings (Glob fs dataFolder jobID))
    by reflexivity.
  assert (Eout : out = filepathJoin dataFolder (jobID +:+ ".csv"))
    by reflexivity.
  assert (Erows : allRows = mjoin (dataRowsOf fs <$> shards)) by reflexivity.
  clearbody allRows out shards.
  assert (Hmem : forall p, p ∈ shards <->
                   is_Some (files fs !! p)
                   /\ matchShard dataFolder jobID p = true)
    by (intros p; by rewrite Eshards, elem_of_sortStrings, elem_of_Glob).
  assert (Hout : out ∉ shards).
  { intros [_ Hm]%Hmem. by rewrite Eout, matchShard_output in Hm. }
  assert (Hglob : Z.of_nat (length (Glob fs dataFolder jobID)) <> 0).
  { intros Hz. apply Hne. rewrite Eshards.
    destruct (Glob fs dataFolder jobID); [done|]. simpl length in Hz. lia. }
  destruct (decide (out ∈ denied fs)) as [Hden|Hcreate].
  { unfold mergeCSVFiles.
    destruct (Z.eqb_spec (Z.of_nat (length (Glob fs dataFolder jobID))) 0);
      [done|].
    rewrite <- Eout. unfold Create. by rewrite decide_True. }
  unfold mergeCSVFiles at 1.
  destruct (Z.eqb_spec (Z.of_nat (length (Glob fs dataFolder jobID))) 0);
    [done|].
  rewrite <- Eshards, <- Eout. unfold Create. rewrite decide_False by done.
  set (fs2 := writeBOM _ out).
  assert (Hfs2 : forall p, p <> out -> files fs2 !! p = files fs !! p).
  { intros p Hp. unfold fs2, writeBOM, onFile. simpl.
    by rewrite lookup_alter_ne, lookup_insert_ne. }
  assert (Hfs2out : files fs2 !! out = Some (mkFile true None [])).
  { unfold fs2, writeBOM, onFile. simpl.
    by rewrite lookup_alter_eq, lookup_insert_eq. }
  clearbody fs2.
  assert (Hsame : forall p, p ∈ shards -> files fs2 !! p = files fs !! p).
  { intros p Hp. apply Hfs2. by intros ->. }
  destruct (dataRowsOf_ext fs fs2 shards Hsame) as [Hrows2 Hhdr2].
  rewrite (mergeLoop_any fs2 shards (mkMerged None [] 0)).
  2: { cbn [totalRows]. lia. }
  2: { cbn [totalRows]. rewrite Hrows2, <- Erows. lia. }
  cbn [outHeader outRows totalRows app].
  rewrite Hrows2, Hhdr2, <- Erows, Z.add_0_l.
  set (fs3 := match firstHeaderOf fs shards with
              | Some h => writeHeader h fs2 out
              | None => fs2
              end).
  assert (Hfs3 : forall p, p <> out -> files fs3 !! p = files fs !! p).
  { intros p Hp. unfold fs3. destruct (firstHeaderOf fs shards).
    - unfold writeHeader, onFile. cbn [files].
      rewrite lookup_alter_ne by done. by apply Hfs2.
    - by apply Hfs2. }
  assert (Hfs3out : files fs3 !! out
                    = Some (mkFile true (firstHeaderOf fs shards) [])).
  { unfold fs3. destruct (firstHeaderOf fs shards).
    - unfold writeHeader, onFile. cbn [files].
      by rewrite lookup_alter_eq, Hfs2out.
    - done. }
  clearbody fs3.
  set (fs' := foldl Remove _ shards).
  assert (Hfile : files fs' !! out
                  = Some (mkFile true (firstHeaderOf fs shards) allRows)).
  { unfold fs'. rewrite removeAll_lookup, decide_False by done.
    by rewrite writeRows_lookup, decide_True, Hfs3out. }
  assert (Hgone : forall p, p ∈ shards -> files fs' !! p = None).
  { intros p Hp. unfold fs'. by rewrite removeAll_lookup, decide_True. }
  assert (Hkept : forall p, p ∉ shards -> p <> out ->
                    files fs' !! p = files fs !! p).
  { intros p Hp Hpo. unfold fs'.
    rewrite removeAll_lookup, decide_False by done.
    rewrite writeRows_lookup, decide_False by done. by apply Hfs3. }
  clearbody fs'.
  assert (Hnone : Glob fs' dataFolder jobID = []).
  { destruct (Glob fs' dataFolder jobID) as [|p l] eqn:EG; [done|].
    assert (Hp : p ∈ Glob fs' dataFolder jobID)
      by (rewrite EG; apply list_elem_of_here).
    apply elem_of_Glob in Hp as [Hsome Hmatch].
    destruct (decide (p ∈ shards)) as [Hin|Hnin].
    - rewrite (Hgone p Hin) in Hsome. by destruct Hsome.
    - assert (Hpo : p <> out).
      { intros ->. by rewrite Eout, matchShard_output in Hmatch. }
      rewrite (Hkept p Hnin Hpo) in Hsome.
      destruct Hnin. by apply Hmem. }
  exists fs'. repeat (split; [done|]).
  by apply merge_no_shard.
Qed.

End MergeSpec.

(** ** The rotating writer: the rows written are the rows on disk *)

Module WriterSpec.

Import Gmaps GoStrings Webrunner WebrunnerInv WriterInv GoIntFacts.
Import WebrunnerSpec.

Section Writer.

Context `{EntryAPI}.

(** A write that opens a new shard. *)
Lemma writeOne_new_shard w fs payload r w' fs' :
  1 <= limit w ->
  recordOf payload = Some r ->
  currentFile w = None \/ limit w <= currentCount w ->
  writeOne w fs payload = (w', fs', None) ->
  let name := shardName (baseFileName w) (fileIndex w) in
  w' = mkWriter (baseFileName w) (limit w) 1 (GoInt.add (fileIndex w) 1)
         (Some name) (OnWrite w)
         (if OnWrite w then onWriteCalls w + 1 else onWriteCalls w)
  /\ fs' = mkFS (<[name := mkFile true (headersFor payload) [r]]> (files fs))
             (denied fs).
Proof.
  intros Hlim Hrec Hcase. unfold writeOne. rewrite Hrec.
  destruct (currentFile w) as [path|] eqn:Ecur.
  - destruct Hcase as [|Hfull]; [done|].
    destruct (Z.leb_spec (limit w) (currentCount w)); [|lia].
    destruct (rotate w fs payload) as [[w2 fs2] [e|]] eqn:Erot; [done|].
    apply rotate_ok in Erot as [-> ->]. simpl.
    intros [= <- <-]. unfold writeRow, onFile. simpl.
    by rewrite alter_insert_eq.
  - destruct (rotate w fs payload) as [[w1 fs1] [e|]] eqn:Erot; [done|].
    apply rotate_ok in Erot as [-> ->]. simpl.
    destruct (Z.leb_spec (limit w) 0); [lia|].
    intros [= <- <-]. unfold writeRow, onFile. simpl.
    by rewrite alter_insert_eq.
Qed.

(** A write that fails writes no record. *)
Lemma writeOne_unrecordable w fs payload :
  recordOf payload = None -> (writeOne w fs payload).2 <> None.
Proof.
  intros Hrec. unfold writeOne. rewrite Hrec.
  destruct (match currentFile w with Some _ => _ | None => _ end)
    as [[w1 fs1] [e|]]; [done|].
  by destruct (if limit w1 <=? currentCount w1 then _ else _)
    as [[w2 fs2] [e|]].
Qed.

Lemma shards_cases {A} (l : list A) :
  l = [] \/ exists pre x, l = pre ++ [x].
Proof.
  induction l as [|x pre _] using rev_ind; [by left|]. right. by eexists _, _.
Qed.

Lemma shardName_ne base i j : i <> j -> shardName base i <> shardName base j.
Proof. intros Hne Heq. by apply shardName_inj in Heq. Qed.

Lemma shards_nonempty_length (shards : list (list row)) :
  (forall k rs, shards !! k = Some rs -> 1 <= Z.of_nat (length rs)) ->
  (length shards <= length (mjoin shards))%nat.
Proof.
  induction shards as [|s shards IH]; intros Hlen; [done|].
  change (mjoin (s :: shards)) with (s ++ mjoin shards).
  rewrite length_app. simpl length.
  pose proof (Hlen 0%nat s eq_refl).
  assert (length shards <= length (mjoin shards))%nat
    by (apply IH; intros k rs Hk; by apply (Hlen (S k))).
  lia.
Qed.

Lemma join_snoc {A} (ls : list (list A)) (l : list A) :
  mjoin (ls ++ [l]) = mjoin ls ++ l.
Proof. rewrite join_app. simpl. by rewrite app_nil_r. Qed.

(** One record written: the shards after it. *)
Lemma writeOne_shards okHeader base L fs0 shards w fs payload r w' fs' :
  1 <= L <= GoInt.max_int ->
  Z.of_nat (length shards) + 2 <= GoInt.max_int ->
  shardsInv okHeader base L fs0 shards w fs ->
  recordOf payload = Some r ->
  okHeader (headersFor payload) ->
  writeOne w fs payload = (w', fs', None) ->
  exists shards',
    shardsInv okHeader base L fs0 shards' w' fs'
    /\ mjoin shards' = mjoin shards ++ [r].
Proof.
  intros HL Hidx (Hb & Hl & Hi & Hnil & Hsnoc & Hfiles & Hlen & Hframe & Hden
                  & Hcalls) Hrec Hok Hrun.
  assert (Hnew : forall n : nat,
             Z.of_nat n + 2 <= GoInt.max_int ->
             GoInt.add (Z.of_nat n + 1) 1 = Z.of_nat (S n) + 1).
  { intros n Hn. rewrite add_small; [lia|].
    unfold GoInt.in_range, GoInt.min_int, GoInt.max_int in *. lia. }
  destruct (shards_cases shards) as [->|(pre & lastS & ->)].
  - (* the first record opens shard 1 *)
    destruct (Hnil eq_refl) as [Hcur Hcnt].
    apply (writeOne_new_shard w fs payload r) in Hrun;
      [|lia|done|by left].
    destruct Hrun as [-> ->]. rewrite Hb, Hl, Hi in *. simpl length in *.
    exists [[r]]. split; [|done].
    split; [done|]. split; [done|].
    split; [exact (Hnew 0%nat Hidx)|].
    split; [done|].
    split.
    { intros pre lastS Heq. change [[r]] with ([] ++ [[r]]) in Heq.
      apply app_inj_tail in Heq as [<- <-]. done. }
    split.
    { intros k rs Hk. apply list_lookup_singleton_Some in Hk as [-> <-].
      exists (headersFor payload). split; [done|]. simpl.
      by rewrite lookup_insert_eq. }
    split.
    { intros k rs Hk. apply list_lookup_singleton_Some in Hk as [-> <-].
      simpl. split; [lia|]. lia. }
    split.
    { intros path Hpath. simpl.
      rewrite lookup_insert_ne; [by apply Hframe; simpl; lia|].
      intros Heq. by apply (Hpath 0%nat); [simpl; lia|]. }
    split; [done|].
    simpl. rewrite Hcalls. by destruct (OnWrite w).
  - destruct (Hsnoc pre lastS eq_refl) as [Hcur Hcnt].
    rewrite length_app in Hi, Hidx. simpl length in Hi, Hidx.
    assert (Hlast : 1 <= Z.of_nat (length lastS) <= L).
    { apply (Hlen (length pre) lastS).
      by rewrite lookup_app_r, Nat.sub_diag by lia. }
    destruct (Z.ltb_spec (currentCount w) (limit w)) as [Hroom|Hfull].
    + (* the record goes to the open shard *)
      rewrite (writeOne_appends w fs payload r _ Hcur Hroom Hrec) in Hrun.
      injection Hrun as <- <-.
      exists (pre ++ [lastS ++ [r]]).
      split; [|by rewrite !join_snoc, app_assoc].
      split; [done|]. split; [done|].
      split; [by rewrite length_app|].
      split; [by intros Heq%app_eq_nil; destruct Heq|].
      split.
      { intros pre' lastS' Heq. apply app_inj_tail in Heq as [<- <-].
        simpl. split; [done|]. rewrite length_app. simpl length.
        rewrite add_small; [lia|].
        unfold GoInt.in_range, GoInt.min_int, GoInt.max_int in *. lia. }
      split.
      { intros k rs Hk. apply lookup_snoc_Some in Hk as [[Hlt Hk]|[-> <-]].
        - destruct (Hfiles k rs) as (hdr & Hh & Hf);
            [by apply lookup_app_l_Some|].
          exists hdr. split; [done|]. unfold writeRow, onFile. simpl.
          rewrite lookup_alter_ne; [done|].
          apply shardName_ne. lia.
        - destruct (Hfiles (length pre) lastS) as (hdr & Hh & Hf);
            [by rewrite lookup_app_r, Nat.sub_diag by lia|].
          exists hdr. split; [done|]. unfold writeRow, onFile. simpl.
          by rewrite lookup_alter_eq, Hf. }
      split.
      { intros k rs Hk. rewrite length_app. simpl length.
        apply lookup_snoc_Some in Hk as [[Hlt Hk]|[-> <-]].
        - destruct (Hlen k rs) as [Hrange Hfullk];
            [by apply lookup_app_l_Some|].
          split; [done|]. intros _. apply Hfullk.
          rewrite length_app. simpl. lia.
        - rewrite length_app. simpl length. split; [lia|]. lia. }
      split.
      { intros path Hpath. unfold writeRow, onFile. simpl.
        rewrite lookup_alter_ne.
        - apply Hframe. intros k Hk. apply Hpath.
          rewrite length_app in *. simpl in *. lia.
        - intros Heq. apply (Hpath (length pre)); [|done].
          rewrite length_app. simpl. lia. }
      split; [done|].
      simpl. rewrite Hcalls, !join_snoc, !length_app. simpl length.
      destruct (OnWrite w); lia.
    + (* the open shard is full: the record opens the next one *)
      apply (writeOne_new_shard w fs payload r) in Hrun;
        [|lia|done|by right].
      destruct Hrun as [-> ->]. rewrite Hb, Hl, Hi in *.
      assert (Hfullk : Z.of_nat (length lastS) = L) by lia.
      exists ((pre ++ [lastS]) ++ [[r]]).
      split; [|by rewrite join_snoc].
      split; [done|]. split; [done|].
      split.
      { simpl. rewrite !length_app. simpl length.
        replace (Z.of_nat (length pre + 1)) with (Z.of_nat (S (length pre)))
          by lia.
        rewrite Hnew by lia. lia. }
      split; [by intros Heq%app_eq_nil; destruct Heq|].
      split.
      { intros pre' lastS' Heq. apply app_inj_tail in Heq as [<- <-].
        simpl. rewrite length_app. simpl length. split; [|done].
        do 2 f_equal. lia. }
      split.
      { intros k rs Hk. apply lookup_snoc_Some in Hk as [[Hlt Hk]|[-> <-]].
        - destruct (Hfiles k rs Hk) as (hdr & Hh & Hf).
          exists hdr. split; [done|]. simpl.
          rewrite lookup_insert_ne; [done|].
          apply shardName_ne. rewrite length_app in Hlt. simpl in Hlt. lia.
        - exists (headersFor payload). split; [done|]. simpl.
          rewrite length_app. simpl length.
          replace (Z.of_nat (S (length pre + 1)))
            with (Z.of_nat (length pre + 1) + 1) by lia.
          by rewrite lookup_insert_eq. }
      split.
      { intros k rs Hk. rewrite !length_app. simpl length.
        apply lookup_snoc_Some in Hk as [[Hlt Hk]|[-> <-]].
        - destruct (Hlen k rs Hk) as [Hrange Hfull'].
          split; [done|]. intros _.
          rewrite length_app in Hlt, Hfull'. simpl length in Hlt, Hfull'.
          destruct (decide (k = length pre)) as [->|Hne].
          + rewrite lookup_app_r, Nat.sub_diag in Hk by lia.
            injection Hk as <-. done.
          + apply Hfull'. lia.
        - simpl. split; [lia|]. rewrite length_app. simpl. lia. }
      split.
      { intros path Hpath. simpl. rewrite lookup_insert_ne.
        - apply Hframe. intros k Hk. apply Hpath.
          rewrite !length_app in *. simpl in *. lia.
        - intros Heq. apply (Hpath (length pre + 1)%nat).
          + rewrite !length_app. simpl. lia.
          + rewrite <- Heq. f_equal. lia. }
      split; [done|].
      simpl. rewrite Hcalls, !join_snoc, !length_app. simpl length.
      destruct (OnWrite w); lia.
Qed.

Lemma shardsInv_length okHeader base L fs0 shards w fs :
  shardsInv okHeader base L fs0 shards w fs ->
  (length shards <= length (mjoin shards))%nat.
Proof.
  intros (_ & _ & _ & _ & _ & _ & Hlen & _).
  apply shards_nonempty_length. intros k rs Hk.
  by destruct (Hlen k rs Hk) as [[? _] _].
Qed.

Lemma writeEntries_shards okHeader base L fs0 es : forall shards w fs w' fs',
  1 <= L <= GoInt.max_int ->
  Z.of_nat (length (mjoin shards) + length es) + 2 <= GoInt.max_int ->
  shardsInv okHeader base L fs0 shards w fs ->
  Forall (fun e => okHeader (headersFor (PEntryPtr e))) es ->
  writeEntries w fs es = (w', fs', None) ->
  exists shards',
    shardsInv okHeader base L fs0 shards' w' fs'
    /\ mjoin shards' = mjoin shards ++ (CsvRow <$> es).
Proof.
  induction es as [|e es IH]; intros shards w fs w' fs' HL Hmax Hinv Hok Hrun.
  - injection Hrun as <- <-. exists shards. by rewrite app_nil_r.
  - apply Forall_cons in Hok as [Hoke Hok]. cbn [writeEntries] in Hrun.
    destruct (writeOne w fs (PEntryPtr e)) as [[w1 fs1] [err|]] eqn:Eone;
      [done|].
    pose proof (shardsInv_length _ _ _ _ _ _ _ Hinv) as Hcount.
    simpl length in Hmax.
    destruct (writeOne_shards okHeader base L fs0 shards w fs (PEntryPtr e)
                (CsvRow e) w1 fs1 HL ltac:(lia) Hinv eq_refl Hoke Eone)
      as (shards1 & Hinv1 & Hjoin1).
    destruct (IH shards1 w1 fs1 w' fs' HL) as (shards' & Hinv' & Hjoin');
      [|done..|].
    { rewrite Hjoin1, length_app. simpl length. lia. }
    exists shards'. split; [done|].
    by rewrite Hjoin', Hjoin1, fmap_cons, <- app_assoc.
Qed.

Lemma Write_shards okHeader base L fs0 shards w fs data w' fs' :
  1 <= L <= GoInt.max_int ->
  Z.of_nat (length (mjoin shards) + length (rowsWritten data)) + 2
  <= GoInt.max_int ->
  shardsInv okHeader base L fs0 shards w fs ->
  headersOK okHeader data ->
  Write w fs data = (w', fs', None) ->
  exists shards',
    shardsInv okHeader base L fs0 shards' w' fs'
    /\ mjoin shards' = mjoin shards ++ rowsWritten data.
Proof.
  intros HL Hmax Hinv Hok Hrun.
  pose proof (shardsInv_length _ _ _ _ _ _ _ Hinv) as Hcount.
  unfold Write in Hrun. unfold rowsWritten in *. unfold headersOK in Hok.
  fold (payloadOf data) in Hrun.
  destruct (payloadOf data) as [e|e|r|es|] eqn:Epay.
  - apply (writeOne_shards okHeader base L fs0 shards w fs (PEntry e)
             (CsvRow e) w' fs' HL);
      [simpl in Hmax; lia|done|reflexivity|done|done].
  - apply (writeOne_shards okHeader base L fs0 shards w fs (PEntryPtr e)
             (CsvRow e) w' fs' HL);
      [simpl in Hmax; lia|done|reflexivity|done|done].
  - apply (writeOne_shards okHeader base L fs0 shards w fs (PRow r) r w' fs'
             HL);
      [simpl in Hmax; lia|done|reflexivity|done|done].
  - eapply writeEntries_shards; try done.
    by rewrite length_fmap in Hmax.
  - by destruct (writeOne_unrecordable w fs POther eq_refl); rewrite Hrun.
Qed.

Lemma Run_shards okHeader base L fs0 results : forall shards w fs w' fs',
  1 <= L <= GoInt.max_int ->
  Z.of_nat (length (mjoin shards)
            + length (mjoin (rowsWritten <$> results))) + 2
  <= GoInt.max_int ->
  shardsInv okHeader base L fs0 shards w fs ->
  Forall (headersOK okHeader) results ->
  Run w fs results = (w', fs', None) ->
  exists shards',
    shardsInv okHeader base L fs0 shards' w' fs'
    /\ mjoin shards' = mjoin shards ++ mjoin (rowsWritten <$> results).
Proof.
  induction results as [|data results IH];
    intros shards w fs w' fs' HL Hmax Hinv Hok Hrun.
  - injection Hrun as <- <-. exists shards. by rewrite app_nil_r.
  - apply Forall_cons in Hok as [Hokd Hok]. cbn [Run] in Hrun.
    destruct (Write w fs data) as [[w1 fs1] [err|]] eqn:Eone; [done|].
    assert (Hjoin : mjoin (rowsWritten <$> data :: results)
                    = rowsWritten data ++ mjoin (rowsWritten <$> results))
      by (by rewrite fmap_cons).
    rewrite Hjoin in Hmax |- *. rewrite length_app in Hmax.
    destruct (Write_shards okHeader base L fs0 shards w fs data w1 fs1 HL
                ltac:(lia) Hinv Hokd Eone)
      as (shards1 & Hinv1 & Hjoin1).
    destruct (IH shards1 w1 fs1 w' fs' HL) as (shards' & Hinv' & Hjoin');
      [|done..|].
    { rewrite Hjoin1, length_app. lia. }
    exists shards'. split; [done|].
    by rewrite Hjoin', Hjoin1, <- app_assoc.
Qed.

(** A new writer on any disk. *)
Lemma fresh_shardsInv okHeader w fs :
  currentFile w = None -> currentCount w = 0 -> fileIndex w = 1 ->
  onWriteCalls w = 0 ->
  shardsInv okHeader (baseFileName w) (limit w) fs [] w fs.
Proof.
  intros Hcur Hcnt Hidx Hcalls.
  split; [done|]. split; [done|]. split; [done|]. split; [done|].
  split; [by intros [|x pre] lastS|].
  split; [done|]. split; [done|]. split; [done|]. split; [done|].
  rewrite Hcalls. by destruct (OnWrite w).
Qed.

(** The hook and the base name of a writer do not change. *)
Lemma rotate_const w fs sampleData :
  OnWrite (rotate w fs sampleData).1.1 = OnWrite w.
Proof.
  unfold rotate. destruct (Create _ _); [|done]. by destruct (0 <? _).
Qed.

Lemma writeOne_const w fs payload :
  OnWrite (writeOne w fs payload).1.1 = OnWrite w.
Proof.
  unfold writeOne.
  assert (H1 : OnWrite (match currentFile w with
                        | Some _ => (w, fs, None)
                        | None => rotate w fs payload
                        end).1.1 = OnWrite w).
  { destruct (currentFile w); [done|]. apply rotate_const. }
  destruct (match currentFile w with Some _ => _ | None => _ end)
    as [[w1 fs1] [e|]]; [done|]. simpl in H1.
  assert (H2 : OnWrite (if limit w1 <=? currentCount w1
                        then rotate w1 fs1 payload
                        else (w1, fs1, None)).1.1 = OnWrite w).
  { destruct (_ <=? _); [|done]. by rewrite rotate_const. }
  destruct (if limit w1 <=? currentCount w1 then _ else _)
    as [[w2 fs2] [e|]]; [done|]. simpl in H2.
  by destruct (recordOf payload).
Qed.

Lemma writeEntries_const es : forall w fs,
  OnWrite (writeEntries w fs es).1.1 = OnWrite w.
Proof.
  induction es as [|e es IH]; intros w fs; [done|]. simpl.
  pose proof (writeOne_const w fs (PEntryPtr e)) as Hone.
  destruct (writeOne w fs (PEntryPtr e)) as [[w1 fs1] [err|]]; [done|].
  by rewrite IH.
Qed.

Lemma Run_const results : forall w fs,
  OnWrite (Run w fs results).1.1 = OnWrite w.
Proof.
  induction results as [|data results IH]; intros w fs; [done|]. simpl.
  assert (Hone : OnWrite (Write w fs data).1.1 = OnWrite w).
  { unfold Write. destruct data as [[]|[]];
      first [apply writeOne_const | apply writeEntries_const]. }
  destruct (Write w fs data) as [[w1 fs1] [err|]]; [done|].
  by rewrite IH.
Qed.

(** Full shards but for the last: their number is the number of rows
    over the limit, rounded up. *)
Lemma full_shards_length (pre : list (list row)) L :
  (forall k rs, pre !! k = Some rs -> Z.of_nat (length rs) = L) ->
  Z.of_nat (length (mjoin pre)) = Z.of_nat (length pre) * L.
Proof.
  induction pre as [|s pre IH]; intros Hfull; [simpl; lia|].
  change (mjoin (s :: pre)) with (s ++ mjoin pre).
  rewrite length_app. simpl length.
  pose proof (Hfull 0%nat s eq_refl).
  assert (Z.of_nat (length (mjoin pre)) = Z.of_nat (length pre) * L)
    by (apply IH; intros k rs Hk; by apply (Hfull (S k))).
  lia.
Qed.

Lemma shards_number (shards : list (list row)) L :
  1 <= L ->
  (forall k rs, shards !! k = Some rs ->
     1 <= Z.of_nat (length rs) <= L
     /\ ((S k < length shards)%nat -> Z.of_nat (length rs) = L)) ->
  Z.of_nat (length shards) = (Z.of_nat (length (mjoin shards)) + L - 1) / L.
Proof.
  intros HL Hlen.
  destruct (shards_cases shards) as [->|(pre & lastS & ->)].
  - simpl. symmetry. apply Z.div_small. lia.
  - rewrite join_snoc, !length_app. simpl length.
    assert (Hpre : Z.of_nat (length (mjoin pre)) = Z.of_nat (length pre) * L).
    { apply full_shards_length. intros k rs Hk.
      destruct (Hlen k rs) as [_ Hfull]; [by apply lookup_app_l_Some|].
      apply Hfull. rewrite length_app. simpl.
      apply lookup_lt_Some in Hk. lia. }
    destruct (Hlen (length pre) lastS) as [Hlast _];
      [by rewrite lookup_app_r, Nat.sub_diag by lia|].
    apply (Z.div_unique _ _ _ (Z.of_nat (length lastS) - 1)); [lia|].
    rewrite !Nat2Z.inj_add, Hpre. simpl Z.of_nat. nia.
Qed.

(** The shards on disk are the shards written. *)
Lemma shards_rows okHeader base L fs0 shards w fs :
  shardsInv okHeader base L fs0 shards w fs ->
  rowsOf fs <$> shardNames base (length shards) = shards.
Proof.
  intros (_ & _ & _ & _ & _ & Hfiles & _).
  apply list_eq. intros i. unfold shardNames.
  rewrite !list_lookup_fmap.
  destruct (shards !! i) as [rsi|] eqn:Ei.
  - rewrite lookup_seq_lt by (by eapply lookup_lt_Some). simpl.
    destruct (Hfiles i rsi Ei) as (hdr & _ & Hf).
    unfold rowsOf. by rewrite Hf.
  - rewrite lookup_seq_ge; [done|]. by apply lookup_ge_None.
Qed.

(** X17.  What is written is what is on disk.  After [Run] succeeds on a new
    writer with a limit of at least one row, the shards 1 .. n read in the
    order of their index hold the records written, in the order written;
    n is the number of records over the limit, rounded up; every shard
    starts with the byte-order mark and holds at least one row and at most
    the limit, all but the last exactly the limit; no other file has
    changed; and the hook, when set, was called once for each record. *)
Theorem writer_round_trip w fs results w' fs' :
  currentFile w = None -> currentCount w = 0 -> fileIndex w = 1 ->
  onWriteCalls w = 0 ->
  1 <= limit w <= GoInt.max_int ->
  let rs := mjoin (rowsWritten <$> results) in
  Z.of_nat (length rs) + 2 <= GoInt.max_int ->
  Run w fs results = (w', fs', None) ->
  exists n : nat,
    let names := shardNames (baseFileName w) n in
    fileIndex w' = Z.of_nat n + 1
    /\ mjoin (rowsOf fs' <$> names) = rs
    /\ Z.of_nat n = (Z.of_nat (length rs) + limit w - 1) / limit w
    /\ (forall k, (1 <= k <= n)%nat ->
          exists f,
            files fs' !! shardName (baseFileName w) (Z.of_nat k) = Some f
            /\ bom f = true
            /\ 1 <= Z.of_nat (length (rows f)) <= limit w
            /\ ((k < n)%nat -> Z.of_nat (length (rows f)) = limit w))
    /\ (forall path, path ∉ names -> files fs' !! path = files fs !! path)
    /\ onWriteCalls w'
       = (if OnWrite w then Z.of_nat (length rs) else 0).
Proof.
  intros Hcur Hcnt Hidx Hcalls HL rs Hmax Hrun.
  pose proof (Run_const results w fs) as Hhook. rewrite Hrun in Hhook.
  simpl in Hhook.
  destruct (Run_shards (fun _ => True) (baseFileName w) (limit w) fs results
              [] w fs w' fs' HL)
    as (shards & Hinv & Hjoin); [simpl; fold rs; lia| |..|done|].
  { by apply fresh_shardsInv. }
  { apply Forall_forall. intros data _. unfold headersOK.
    destruct (payloadOf data); try done. by apply Forall_forall. }
  simpl in Hjoin. fold rs in Hjoin. pose proof Hinv as Hall.
  destruct Hinv as (_ & _ & Hi & _ & _ & Hfiles & Hlen & Hframe & _ & Hc).
  exists (length shards). cbv zeta.
  split; [done|].
  split; [by rewrite (shards_rows _ _ _ _ _ _ _ Hall)|].
  split; [rewrite <- Hjoin; apply shards_number; [lia|done]|].
  split.
  { intros k Hk. destruct k as [|k]; [lia|].
    destruct (lookup_lt_is_Some_2 shards k ltac:(lia)) as [rsk Hrsk].
    destruct (Hfiles k rsk Hrsk) as (hdr & _ & Hf).
    destruct (Hlen k rsk Hrsk) as [Hrange Hfull].
    exists (mkFile true hdr rsk). split; [done|]. split; [done|].
    split; [done|]. simpl. intros ?. apply Hfull. lia. }
  split.
  { intros path Hpath. apply Hframe. intros k Hk ->. apply Hpath.
    unfold shardNames. apply list_elem_of_fmap. exists (S k).
    split; [done|]. apply elem_of_seq. lia. }
  by rewrite Hc, Hhook, Hjoin.
Qed.

(** *** Failed writes *)



(** *** From the writer to the merged file *)



End Writer.






Section Pipeline.

Context `{EntryAPI}.


End Pipeline.

End WriterSpec.

(** *** Writer and merger on examples *)

Module WriterExamples.

Import Gmaps GoStrings Webrunner WebrunnerInv WriterInv MergeInv.
Import WebrunnerSpec WriterSpec MergeSpec Fixture Scenario.

Lemma run_eta (r : RotatingCsvWriter * FS * option string) :
  r.2 = None -> r = (r.1.1, r.1.2, None).
Proof. destruct r as [[w fs] err]. simpl. by intros ->. Qed.

Lemma fiveRows_run :
  Run smallWriter emptyFS fiveResults = (fiveRows.1.1, fiveRows.1.2, None).
Proof. apply (run_eta fiveRows). vm_compute. reflexivity. Qed.

Lemma writer_round_trip_witness :
  exists n : nat,
    Z.of_nat n = 3
    /\ mjoin (rowsOf fiveRows.1.2 <$> shardNames "data/job" n)
       = mjoin (rowsWritten <$> fiveResults)
    /\ fileIndex fiveRows.1.1 = 4.
Proof.
  destruct (writer_round_trip smallWriter emptyFS fiveResults _ _
              eq_refl eq_refl eq_refl eq_refl
              ltac:(by vm_compute) ltac:(by vm_compute) fiveRows_run)
    as (n & Hidx & Hrows & Hn & _).
  exists n. assert (Hn3 : Z.of_nat n = 3) by (rewrite Hn; reflexivity).
  split; [exact Hn3|]. split; [exact Hrows|]. rewrite Hidx, Hn3. reflexivity.
Defined.


Lemma merge_any_shards_witness :
  exists fs',
    mergeCSVFiles mixedShards "data" "job" = (fs', 2, None)
    /\ files fs' !! "data/job.csv"%string
       = Some (mkFile true (Some ["cid"; "title"]%string)
                 [["c1"; "first"]; ["c3"; "third"]]%string)
    /\ files fs' !! "data/job_2.csv"%string = None.
Proof.
  pose proof (merge_any_shards mixedShards "data" "job") as Hthm.
  cbv zeta in Hthm.
  assert (Hshards : sortStrings (Glob mixedShards "data" "job")
                    = ["data/job_1.csv"; "data/job_2.csv";
                       "data/job_3.csv"]%string)
    by (vm_compute; reflexivity).
  rewrite Hshards in Hthm.
  assert (Hrows : mjoin (dataRowsOf mixedShards
                           <$> ["data/job_1.csv"; "data/job_2.csv";
                                "data/job_3.csv"]%string)
                  = [["c1"; "first"]; ["c3"; "third"]]%string)
    by (vm_compute; reflexivity).
  rewrite Hrows in Hthm.
  specialize (Hthm ltac:(discriminate) ltac:(by vm_compute)).
  rewrite decide_False in Hthm by apply not_elem_of_empty.
  destruct Hthm as (fs' & Hret & Hfile & Hgone & _).
  exists fs'. split; [exact Hret|]. split; [exact Hfile|].
  apply Hgone. apply list_elem_of_further, list_elem_of_here.
Defined.


End WriterExamples.

(** ** The service over the result files *)

Module WebServiceSpec.

Import GoStrings Webrunner WebrunnerInv WebService WebrunnerSpec.

(** *** Column selection *)

Lemma project_cons i indices (r : row) :
  project (i :: indices) r
  = match r !! i with
    | Some c => c :: project indices r
    | None => project indices r
    end.
Proof. reflexivity. Qed.

Lemma project_length indices (r : row) :
  (length (project indices r) <= length indices)%nat.
Proof.
  induction indices as [|i indices IH]; [done|].
  rewrite project_cons. destruct (r !! i); simpl; lia.
Qed.

(** Positions in range select one cell each. *)
Lemma project_total indices (r : row) :
  Forall (fun i => (i < length r)%nat) indices ->
  length (project indices r) = length indices
  /\ (forall k i, indices !! k = Some i -> project indices r !! k = r !! i).
Proof.
  induction 1 as [|i indices Hi _ [IHlen IH]]; [done|].
  rewrite project_cons.
  destruct (lookup_lt_is_Some_2 r i Hi) as [c Hc]. rewrite Hc.
  split; [simpl; by rewrite IHlen|].
  intros [|k] j Hk; simpl in *.
  - by injection Hk as <-.
  - by apply IH.
Qed.

Lemma indicesFrom_bound fieldSet headers : forall i,
  Forall (fun j => (i <= j < i + length headers)%nat)
    (indicesFrom fieldSet i headers).
Proof.
  induction headers as [|h headers IH]; intros i; simpl; [constructor|].
  assert (Hrest : Forall (fun j => (i <= j < i + S (length headers))%nat)
                    (indicesFrom fieldSet (S i) headers)).
  { eapply Forall_impl; [apply IH|]. simpl. intros j ?. lia. }
  destruct (decide (h ∈ fieldSet)); [|done].
  constructor; [lia|done].
Qed.

Lemma indicesFrom_length fieldSet headers : forall i,
  length (indicesFrom fieldSet i headers)
  = length (filter (fun h => h ∈ fieldSet) headers).
Proof.
  induction headers as [|h headers IH]; intros i; simpl; [done|].
  rewrite filter_cons. destruct (decide (h ∈ fieldSet)); simpl; by rewrite IH.
Qed.

(** On the header row the selection is the headers requested, in the
    order of the header row. *)
Lemma project_headers fieldSet headers : forall pre,
  project (indicesFrom fieldSet (length pre) headers) (pre ++ headers)
  = filter (fun h => h ∈ fieldSet) headers.
Proof.
  induction headers as [|h headers IH]; intros pre; simpl; [done|].
  rewrite filter_cons.
  assert (Hshift : project (indicesFrom fieldSet (S (length pre)) headers)
                     (pre ++ h :: headers)
                   = filter (fun h => h ∈ fieldSet) headers).
  { rewrite <- (IH (pre ++ [h])), length_app, <- app_assoc. simpl.
    by rewrite Nat.add_1_r. }
  destruct (decide (h ∈ fieldSet)); [|done].
  rewrite project_cons, list_lookup_middle by done. by rewrite Hshift.
Qed.

Lemma indicesFrom_all fieldSet headers : forall i,
  Forall (fun h => h ∈ fieldSet) headers ->
  indicesFrom fieldSet i headers = seq i (length headers).
Proof.
  induction headers as [|h headers IH]; intros i Hall; simpl; [done|].
  apply Forall_cons in Hall as [Hh Hall].
  by rewrite decide_True, IH.
Qed.

Lemma project_nil indices : project indices [] = [].
Proof. induction indices as [|i indices IH]; [done|]. by rewrite project_cons. Qed.

Lemma project_seq_shift (c : string) (r : row) n : forall i,
  project (seq (S i) n) (c :: r) = project (seq i n) r.
Proof.
  induction n as [|n IH]; intros i; [done|].
  simpl seq. rewrite !project_cons. simpl. by rewrite IH.
Qed.

(** All the positions select the whole row. *)
Lemma project_seq (r : row) : forall n,
  (length r <= n)%nat -> project (seq 0 n) r = r.
Proof.
  induction r as [|c r IH]; intros n Hn; [apply project_nil|].
  destruct n as [|n]; [simpl in Hn; lia|].
  simpl seq. rewrite project_cons. simpl.
  rewrite project_seq_shift, IH; [done|]. simpl in Hn. lia.
Qed.

Lemma filterRecords_cons headers rows fields :
  let fieldSet : gset string := list_to_set (TrimSpace <$> fields) in
  let kept := filter (fun h => h ∈ fieldSet) headers in
  filterRecords (headers :: rows) fields
  = if decide (kept = []) then headers :: rows
    else kept :: (project (indicesFrom fieldSet 0 headers) <$> rows).
Proof.
  intros fieldSet kept. unfold filterRecords. fold fieldSet.
  pose proof (indicesFrom_length fieldSet headers 0) as Hlen. fold kept in Hlen.
  destruct (decide (kept = [])) as [Hnone|Hsome].
  - rewrite Hnone in Hlen. by rewrite Hlen.
  - destruct (Z.eqb_spec (Z.of_nat (length (indicesFrom fieldSet 0 headers))) 0)
      as [Hz|_].
    + destruct kept; [done|]. simpl in Hlen. lia.
    + rewrite fmap_cons. f_equal. apply (project_headers fieldSet headers []).
Qed.

(** X20.  [filterRecords] keeps the columns whose header is one of the fields,
    trimmed: the header row becomes the requested headers in the order of
    the header row, every row that is at least as long as the header row
    keeps the cells under them, aligned, and the number of records does not
    change.  Without any requested header in the header row, and on no
    record at all, the records come back as they are. *)
Theorem filter_columns headers rows fields :
  let fieldSet : gset string := list_to_set (TrimSpace <$> fields) in
  let kept := filter (fun h => h ∈ fieldSet) headers in
  let indices := indicesFrom fieldSet 0 headers in
  filterRecords [] fields = []
  /\ length (filterRecords (headers :: rows) fields) = S (length rows)
  /\ (kept = [] -> filterRecords (headers :: rows) fields = headers :: rows)
  /\ (kept <> [] ->
      filterRecords (headers :: rows) fields
      = kept :: (project indices <$> rows)
      /\ length indices = length kept
      /\ (forall k i, indices !! k = Some i -> kept !! k = headers !! i)
      /\ (forall r,
            (length headers <= length r)%nat ->
            length (project indices r) = length kept
            /\ (forall k i, indices !! k = Some i ->
                              project indices r !! k = r !! i))).
Proof.
  intros fieldSet kept indices.
  pose proof (filterRecords_cons headers rows fields) as Hcons.
  cbv zeta in Hcons. fold fieldSet kept indices in Hcons.
  pose proof (indicesFrom_length fieldSet headers 0) as Hlen.
  fold kept indices in Hlen.
  assert (Hrange : forall r : row,
             (length headers <= length r)%nat ->
             Forall (fun i => (i < length r)%nat) indices).
  { intros r Hr. eapply Forall_impl; [apply indicesFrom_bound|].
    simpl. intros j ?. lia. }
  split; [done|]. split.
  { rewrite Hcons. destruct (decide (kept = [])); simpl; [done|].
    by rewrite length_fmap. }
  split; [intros Hnone; by rewrite Hcons, decide_True|].
  intros Hsome. rewrite Hcons, decide_False by done.
  split; [done|]. split; [done|]. split.
  - intros k i Hk.
    destruct (project_total indices headers (Hrange headers ltac:(lia)))
      as [_ Hcell].
    rewrite <- (Hcell k i Hk). unfold indices, kept.
    by rewrite <- (project_headers fieldSet headers []).
  - intros r Hr. destruct (project_total indices r (Hrange r Hr)) as [Hl Hcell].
    split; [by rewrite Hl|done].
Qed.

(** X21.  Selecting the same fields again changes nothing, and the selection
    depends on the fields only through the set of their trimmed names:
    neither their order nor repetitions nor surrounding blanks matter. *)
Theorem filter_idempotent records fields :
  filterRecords (filterRecords records fields) fields
  = filterRecords records fields
  /\ (forall fields',
        (forall x, x ∈ TrimSpace <$> fields <-> x ∈ TrimSpace <$> fields') ->
        filterRecords records fields' = filterRecords records fields).
Proof.
  split.
  - destruct records as [|headers rows]; [done|].
    rewrite (filterRecords_cons headers rows fields). cbv zeta.
    set (fieldSet := list_to_set (TrimSpace <$> fields) : gset string).
    set (kept := filter (fun h => h ∈ fieldSet) headers).
    destruct (decide (kept = [])) as [Hnone|Hsome].
    + rewrite (filterRecords_cons headers rows fields). cbv zeta.
      fold fieldSet kept. by rewrite decide_True.
    + rewrite (filterRecords_cons kept _ fields). cbv zeta. fold fieldSet.
      assert (Hall : Forall (fun h => h ∈ fieldSet) kept).
      { apply Forall_forall. intros h Hh.
        by apply list_elem_of_filter in Hh as [? _]. }
      rewrite (filter_all _ kept Hall), decide_False by done.
      f_equal. rewrite (indicesFrom_all fieldSet kept 0 Hall).
      rewrite <- list_fmap_compose. apply list_fmap_ext. intros i r _. simpl.
      apply project_seq. etrans; [apply project_length|].
      by rewrite indicesFrom_length.
  - intros fields' Hsame.
    assert (Hset : (list_to_set (TrimSpace <$> fields') : gset string)
                   = list_to_set (TrimSpace <$> fields)).
    { apply set_eq. intros x. rewrite !elem_of_list_to_set. by rewrite Hsame. }
    unfold filterRecords. by rewrite Hset.
Qed.

(** *** The result file of a run *)




Lemma mergeCSVFiles_output fs dataFolder jobID fs' n :
  Glob fs dataFolder jobID <> [] ->
  mergeCSVFiles fs dataFolder jobID = (fs', n, None) ->
  is_Some (files fs' !! filepathJoin dataFolder (jobID +:+ ".csv")).
Proof.
  intros Hne. unfold mergeCSVFiles.
  destruct (Z.eqb_spec (Z.of_nat (length (Glob fs dataFolder jobID))) 0)
    as [Hz|_].
  { destruct (Glob fs dataFolder jobID); [done|]. simpl in Hz. lia. }
  unfold Create. destruct (decide _) as [|Hok]; [done|].
  intros [= <- _].
  rewrite removeAll_lookup, decide_False.
  2: { intros Hin. apply elem_of_sortStrings, elem_of_Glob in Hin as [_ Hm].
       by rewrite matchShard_output in Hm. }
  rewrite writeRows_lookup, decide_True by done.
  destruct (outHeader _); unfold writeHeader, writeBOM, onFile; simpl;
    rewrite ?lookup_alter_eq, lookup_insert_eq; by eexists.
Qed.

(** X23.  After a merge that found shards, [GetCSV] serves the merged file. *)
Theorem GetCSV_after_merge fs dataFolder id fs' n :
  invalidName id = false ->
  Glob fs dataFolder id <> [] ->
  mergeCSVFiles fs dataFolder id = (fs', n, None) ->
  GetCSV fs' dataFolder id
  = Some (Ok (filepathJoin dataFolder (id +:+ ".csv"))).
Proof.
  intros Hid Hne Hmerge. unfold GetCSV. rewrite Hid.
  rewrite bool_decide_eq_true_2; [done|].
  by eapply mergeCSVFiles_output.
Qed.

(** *** Deleting a run *)






End WebServiceSpec.

(** *** The service on examples *)

Module WebServiceExamples.

Import GoStrings Webrunner WebrunnerInv WebService WebrunnerSpec.
Import WebServiceSpec Fixture Scenario.

Lemma filter_columns_witness :
  filterRecords (sheetHeader :: sheetRows) someFields
  = [["cid"; "title"]; ["c1"; "n1"]; ["c2"; "n2"]]%string.
Proof.
  destruct (filter_columns sheetHeader sheetRows someFields)
    as (_ & _ & _ & Hsome).
  destruct Hsome as [Heq _].
  { intros Hnone. vm_compute in Hnone. discriminate. }
  rewrite Heq. vm_compute. reflexivity.
Defined.

Lemma filter_idempotent_witness :
  filterRecords (filterRecords (sheetHeader :: sheetRows) someFields)
    someFields
  = filterRecords (sheetHeader :: sheetRows) someFields
  /\ filterRecords (sheetHeader :: sheetRows) sameFields
     = filterRecords (sheetHeader :: sheetRows) someFields.
Proof.
  destruct (filter_idempotent (sheetHeader :: sheetRows) someFields)
    as [Hidem Hset].
  split; [exact Hidem|]. apply Hset. intros x.
  assert (E1 : TrimSpace <$> someFields = ["title"; "cid"; "nope"]%string)
    by (vm_compute; reflexivity).
  assert (E2 : TrimSpace <$> sameFields
               = ["nope"; "cid"; "title"; "cid"]%string)
    by (vm_compute; reflexivity).
  rewrite E1, E2, !elem_of_cons, !elem_of_nil. tauto.
Defined.


Lemma mixedMerged_run :
  mergeCSVFiles mixedShards "data" "job"
  = (mixedMerged.1.1, mixedMerged.1.2, None).
Proof.
  assert (Hnone : mixedMerged.2 = None) by (vm_compute; reflexivity).
  unfold mixedMerged in *.
  destruct (mergeCSVFiles mixedShards "data" "job") as [[fs n] err].
  simpl in *. by rewrite Hnone.
Qed.

Lemma GetCSV_after_merge_witness :
  GetCSV mixedMerged.1.1 "data" "job" = Some (Ok "data/job.csv"%string).
Proof.
  apply (GetCSV_after_merge mixedShards "data" "job" _ mixedMerged.1.2
           eq_refl).
  - intros Hnone. vm_compute in Hnone. discriminate.
  - exact mixedMerged_run.
Defined.


End WebServiceExamples.
